(** * PSSE contingency test: a shallow embedding of the batch driver

    The development follows the three Python sources:
      - [optimisation/__init__.py]  (check_directory, class Logger),
      - [Main.py]                   (main and the top-level loop),
      - [optimisation/data_visualisation.py] (the plotting script).

    The modules [optimisation.psse], [optimisation.file_handling] and
    [optimisation.constants], the simulation engine, pandas, matplotlib and
    the operating system are collaborators whose code is not part of these
    sources: they appear as interfaces (records of operations) over which
    the embedded functions are parametrised. *)

From Stdlib Require Import List String Ascii ZArith Lia Bool Arith Permutation.
From Stdlib Require Import DecimalString.
Import ListNotations.
Open Scope string_scope.

(* ===================================================================== *)
(** ** Python values shared by the three sources *)
(* ===================================================================== *)

Module Py.

(** Exceptions that the sources raise or let through. *)
Inductive exn : Type :=
| ValueError (msg : string)
| OSError (msg : string)
| IndexError (msg : string).

(** Outcome of a call: a returned value or a raised exception. *)
Inductive result (A : Type) : Type :=
| Ok (a : A)
| Raise (e : exn).
Arguments Ok {A} a.
Arguments Raise {A} e.

Definition is_raise {A} (r : result A) : bool :=
  match r with Ok _ => false | Raise _ => true end.

(** ['{}'.format(n)] for a non-negative int. *)
Definition str_of_nat (n : nat) : string :=
  NilEmpty.string_of_uint (Nat.to_uint n).

(** ['{}'.format(b)] for a bool. *)
Definition str_of_bool (b : bool) : string :=
  if b then "True" else "False".

(** [sum(list_of_ints)]. *)
Definition sum (l : list nat) : nat := fold_left Nat.add l 0.

(** [xs[i]] with Python's negative indices; [None] stands for IndexError. *)
Definition index {A} (xs : list A) (i : Z) : option A :=
  let n := Z.of_nat (List.length xs) in
  if (0 <=? i)%Z then nth_error xs (Z.to_nat i)
  else if (0 <=? n + i)%Z then nth_error xs (Z.to_nat (n + i))
  else None.

(** The newline and tab characters of Python's string literals. *)
Definition nl : string := String (ascii_of_nat 10) EmptyString.
Definition tab : string := String (ascii_of_nat 9) EmptyString.

(** Logging levels of the standard [logging] module. *)
Definition DEBUG : nat := 10.
Definition INFO : nat := 20.
Definition WARNING : nat := 30.
Definition ERROR : nat := 40.
Definition CRITICAL : nat := 50.

(** A record handed to a [logging.Logger]: its level and its message. *)
Definition log_record : Type := (nat * string)%type.

(** [s in l] for a list of strings. *)
Definition mem_string (s : string) (l : list string) : bool :=
  existsb (String.eqb s) l.

End Py.
Import Py.

(* ===================================================================== *)
(** ** optimisation/__init__.py : check_directory *)
(* ===================================================================== *)

(** The part of [os] and [os.path] that the sources call on the file
    system. [makedirs p fs] returns [true] with the new file system when
    [os.makedirs(p)] returns, and [false] when it raises OSError or IOError
    (the file system may have changed all the same: intermediate directories
    are created before the failure). *)
Class FileSystem (FS : Type) : Type := {
  isdir : FS -> string -> bool;
  isfile : FS -> string -> bool;
  makedirs : string -> FS -> bool * FS;
  path_join : string -> string -> string
}.

(** What [os.makedirs] promises when it returns. *)
Definition makedirs_creates (FS : Type) `{FileSystem FS} : Prop :=
  forall (fs fs' : FS) (p : string),
    makedirs p fs = (true, fs') -> isdir fs' p = true.

Section CheckDirectory.
Context {FS : Type} `{FileSystem FS}.

(** [os.path.dirname(__file__)] of the package. *)
Variable script_pth : string.

Definition check_directory (pth_to_check default_folder_name : string) (fs : FS)
  : result string * FS :=
  if negb (isdir fs pth_to_check) then
    match makedirs pth_to_check fs with
    | (true, fs1) => (Ok pth_to_check, fs1)
    | (false, fs1) =>
        let pth_to_check := path_join (FS := FS) script_pth default_folder_name in
        if negb (isdir fs1 pth_to_check) then
          match makedirs pth_to_check fs1 with
          | (true, fs2) => (Ok pth_to_check, fs2)
          | (false, fs2) =>
              (Raise (OSError ("Unable to create directory <" ++ pth_to_check
                               ++ "> to store log files in")), fs2)
          end
        else (Ok pth_to_check, fs1)
    end
  else (Ok pth_to_check, fs).

End CheckDirectory.

(* ===================================================================== *)
(** ** optimisation/__init__.py : class Logger *)
(* ===================================================================== *)

Module LoggerModel.

(** [constants.Logging], as far as the class reads it. *)
Record LoggingConstants : Type := {
  logger_name : string;
  debug : string;
  progress : string;
  error : string;
  extension : string
}.

(** The handlers of the [logging] module that the class builds; each one
    carries the level given to it by [setLevel] (0 is NOTSET). *)
Inductive Handler : Type :=
| FileHandler (filename : option string) (level : nat)
| MemoryHandler (capacity : N) (flushLevel : nat) (target : Handler) (level : nat)
| StreamHandler (level : nat).

Fixpoint Handler_eqb (a b : Handler) : bool :=
  match a, b with
  | FileHandler f l, FileHandler f' l' =>
      match f, f' with
      | Some x, Some y => String.eqb x y
      | None, None => true
      | _, _ => false
      end && Nat.eqb l l'
  | MemoryHandler c fl t l, MemoryHandler c' fl' t' l' =>
      N.eqb c c' && Nat.eqb fl fl' && Handler_eqb t t' && Nat.eqb l l'
  | StreamHandler l, StreamHandler l' => Nat.eqb l l'
  | _, _ => false
  end.

(** The object state of a [Logger], together with the state of the
    [logging.Logger] it drives: the handlers attached to it
    ([logger_handlers]), the records handed to it so far ([records]) and
    whether [logging.shutdown] has run. *)
Record Logger : Type := {
  log_constants : LoggingConstants;
  handler_progress_log : option Handler;
  handler_debug_log : option Handler;
  handler_error_log : option Handler;
  handler_stream_log : option Handler;
  warning_count : nat;
  error_count : nat;
  critical_count : nat;
  pth_logs : string;
  pth_debug_log : option string;
  pth_progress_log : option string;
  pth_error_log : option string;
  app : option string;
  debug_mode : bool;
  file_handlers : list Handler;
  logger_handlers : list Handler;
  records : list log_record;
  shutdown : bool
}.

(** Attribute assignments, one per attribute that a method writes. *)
Definition set_records (r : list log_record) (L : Logger) : Logger :=
  {|   log_constants := log_constants L;
     handler_progress_log := handler_progress_log L;
     handler_debug_log := handler_debug_log L;
     handler_error_log := handler_error_log L;
     handler_stream_log := handler_stream_log L;
     warning_count := warning_count L;
     error_count := error_count L;
     critical_count := critical_count L;
     pth_logs := pth_logs L;
     pth_debug_log := pth_debug_log L;
     pth_progress_log := pth_progress_log L;
     pth_error_log := pth_error_log L;
     app := app L;
     debug_mode := debug_mode L;
     file_handlers := file_handlers L;
     logger_handlers := logger_handlers L;
     records := r;
     shutdown := shutdown L |}.

Definition set_critical_count (n : nat) (L : Logger) : Logger :=
  {|   log_constants := log_constants L;
     handler_progress_log := handler_progress_log L;
     handler_debug_log := handler_debug_log L;
     handler_error_log := handler_error_log L;
     handler_stream_log := handler_stream_log L;
     warning_count := warning_count L;
     error_count := error_count L;
     critical_count := n;
     pth_logs := pth_logs L;
     pth_debug_log := pth_debug_log L;
     pth_progress_log := pth_progress_log L;
     pth_error_log := pth_error_log L;
     app := app L;
     debug_mode := debug_mode L;
     file_handlers := file_handlers L;
     logger_handlers := logger_handlers L;
     records := records L;
     shutdown := shutdown L |}.

Definition set_pth_debug_log (p : option string) (L : Logger) : Logger :=
  {|   log_constants := log_constants L;
     handler_progress_log := handler_progress_log L;
     handler_debug_log := handler_debug_log L;
     handler_error_log := handler_error_log L;
     handler_stream_log := handler_stream_log L;
     warning_count := warning_count L;
     error_count := error_count L;
     critical_count := critical_count L;
     pth_logs := pth_logs L;
     pth_debug_log := p;
     pth_progress_log := pth_progress_log L;
     pth_error_log := pth_error_log L;
     app := app L;
     debug_mode := debug_mode L;
     file_handlers := file_handlers L;
     logger_handlers := logger_handlers L;
     records := records L;
     shutdown := shutdown L |}.

Definition set_pth_progress_log (p : option string) (L : Logger) : Logger :=
  {|   log_constants := log_constants L;
     handler_progress_log := handler_progress_log L;
     handler_debug_log := handler_debug_log L;
     handler_error_log := handler_error_log L;
     handler_stream_log := handler_stream_log L;
     warning_count := warning_count L;
     error_count := error_count L;
     critical_count := critical_count L;
     pth_logs := pth_logs L;
     pth_debug_log := pth_debug_log L;
     pth_progress_log := p;
     pth_error_log := pth_error_log L;
     app := app L;
     debug_mode := debug_mode L;
     file_handlers := file_handlers L;
     logger_handlers := logger_handlers L;
     records := records L;
     shutdown := shutdown L |}.

Definition set_handler_progress_log (h : option Handler) (L : Logger) : Logger :=
  {|   log_constants := log_constants L;
     handler_progress_log := h;
     handler_debug_log := handler_debug_log L;
     handler_error_log := handler_error_log L;
     handler_stream_log := handler_stream_log L;
     warning_count := warning_count L;
     error_count := error_count L;
     critical_count := critical_count L;
     pth_logs := pth_logs L;
     pth_debug_log := pth_debug_log L;
     pth_progress_log := pth_progress_log L;
     pth_error_log := pth_error_log L;
     app := app L;
     debug_mode := debug_mode L;
     file_handlers := file_handlers L;
     logger_handlers := logger_handlers L;
     records := records L;
     shutdown := shutdown L |}.

Definition set_handler_debug_log (h : option Handler) (L : Logger) : Logger :=
  {|   log_constants := log_constants L;
     handler_progress_log := handler_progress_log L;
     handler_debug_log := h;
     handler_error_log := handler_error_log L;
     handler_stream_log := handler_stream_log L;
     warning_count := warning_count L;
     error_count := error_count L;
     critical_count := critical_count L;
     pth_logs := pth_logs L;
     pth_debug_log := pth_debug_log L;
     pth_progress_log := pth_progress_log L;
     pth_error_log := pth_error_log L;
     app := app L;
     debug_mode := debug_mode L;
     file_handlers := file_handlers L;
     logger_handlers := logger_handlers L;
     records := records L;
     shutdown := shutdown L |}.

Definition set_handler_error_log (h : option Handler) (L : Logger) : Logger :=
  {|   log_constants := log_constants L;
     handler_progress_log := handler_progress_log L;
     handler_debug_log := handler_debug_log L;
     handler_error_log := h;
     handler_stream_log := handler_stream_log L;
     warning_count := warning_count L;
     error_count := error_count L;
     critical_count := critical_count L;
     pth_logs := pth_logs L;
     pth_debug_log := pth_debug_log L;
     pth_progress_log := pth_progress_log L;
     pth_error_log := pth_error_log L;
     app := app L;
     debug_mode := debug_mode L;
     file_handlers := file_handlers L;
     logger_handlers := logger_handlers L;
     records := records L;
     shutdown := shutdown L |}.

Definition set_handler_stream_log (h : option Handler) (L : Logger) : Logger :=
  {|   log_constants := log_constants L;
     handler_progress_log := handler_progress_log L;
     handler_debug_log := handler_debug_log L;
     handler_error_log := handler_error_log L;
     handler_stream_log := h;
     warning_count := warning_count L;
     error_count := error_count L;
     critical_count := critical_count L;
     pth_logs := pth_logs L;
     pth_debug_log := pth_debug_log L;
     pth_progress_log := pth_progress_log L;
     pth_error_log := pth_error_log L;
     app := app L;
     debug_mode := debug_mode L;
     file_handlers := file_handlers L;
     logger_handlers := logger_handlers L;
     records := records L;
     shutdown := shutdown L |}.

Definition set_file_handlers (l : list Handler) (L : Logger) : Logger :=
  {|   log_constants := log_constants L;
     handler_progress_log := handler_progress_log L;
     handler_debug_log := handler_debug_log L;
     handler_error_log := handler_error_log L;
     handler_stream_log := handler_stream_log L;
     warning_count := warning_count L;
     error_count := error_count L;
     critical_count := critical_count L;
     pth_logs := pth_logs L;
     pth_debug_log := pth_debug_log L;
     pth_progress_log := pth_progress_log L;
     pth_error_log := pth_error_log L;
     app := app L;
     debug_mode := debug_mode L;
     file_handlers := l;
     logger_handlers := logger_handlers L;
     records := records L;
     shutdown := shutdown L |}.

Definition set_logger_handlers (l : list Handler) (L : Logger) : Logger :=
  {|   log_constants := log_constants L;
     handler_progress_log := handler_progress_log L;
     handler_debug_log := handler_debug_log L;
     handler_error_log := handler_error_log L;
     handler_stream_log := handler_stream_log L;
     warning_count := warning_count L;
     error_count := error_count L;
     critical_count := critical_count L;
     pth_logs := pth_logs L;
     pth_debug_log := pth_debug_log L;
     pth_progress_log := pth_progress_log L;
     pth_error_log := pth_error_log L;
     app := app L;
     debug_mode := debug_mode L;
     file_handlers := file_handlers L;
     logger_handlers := l;
     records := records L;
     shutdown := shutdown L |}.

Definition set_shutdown (b : bool) (L : Logger) : Logger :=
  {|   log_constants := log_constants L;
     handler_progress_log := handler_progress_log L;
     handler_debug_log := handler_debug_log L;
     handler_error_log := handler_error_log L;
     handler_stream_log := handler_stream_log L;
     warning_count := warning_count L;
     error_count := error_count L;
     critical_count := critical_count L;
     pth_logs := pth_logs L;
     pth_debug_log := pth_debug_log L;
     pth_progress_log := pth_progress_log L;
     pth_error_log := pth_error_log L;
     app := app L;
     debug_mode := debug_mode L;
     file_handlers := file_handlers L;
     logger_handlers := logger_handlers L;
     records := records L;
     shutdown := b |}.

(** ['{}'.format(p)] of a path attribute. *)
Definition str_of_path (p : option string) : string :=
  match p with Some s => s | None => "None" end.

(** [self.logger.log(lvl, msg)]: the logger's own level is DEBUG, so every
    record of the five levels is taken. *)
Definition emit (lvl : nat) (msg : string) (L : Logger) : Logger :=
  set_records (records L ++ [(lvl, msg)]) L.

Definition debug_ (msg : string) (L : Logger) : Logger := emit DEBUG msg L.

Definition info (msg : string) (L : Logger) : Logger := emit INFO msg L.

(** The increment of [warning_count] is commented out in the source. *)
Definition warning (msg : string) (L : Logger) : Logger := emit WARNING msg L.

(** The increment of [error_count] is commented out in the source. *)
Definition error_ (msg : string) (L : Logger) : Logger := emit ERROR msg L.

(** [caller] is [inspect.stack()[1][3]], the name of the calling function. *)
Definition critical (caller msg : string) (L : Logger) : Logger :=
  let L := set_critical_count (critical_count L + 1) L in
  emit CRITICAL ("function <" ++ caller ++ "> reported " ++ msg) L.

(** Flushing moves buffered records to the log files; the object and the
    records handed to the logger stay as they are. *)
Definition flush (L : Logger) : Logger := L.

(** [get_file_handlers]: a [FileHandler] is appended to [file_handlers]; the
    returned handler is that object or, with [_buffer], a [MemoryHandler]
    around it. [setLevel] acts on the returned handler, which without
    [_buffer] is the very object already in [file_handlers]. *)
Definition get_file_handlers (pth : option string) (min_level : nat)
    (_buffer : bool) (flush_level : nat) (buffer_cap : N) (L : Logger)
  : Handler * Logger :=
  if _buffer then
    let handler := FileHandler pth 0 in
    (MemoryHandler buffer_cap flush_level handler min_level,
     set_file_handlers (file_handlers L ++ [handler]) L)
  else
    let handler := FileHandler pth min_level in
    (handler, set_file_handlers (file_handlers L ++ [handler]) L).

Definition setup_logging (L : Logger) : Logger :=
  let L := set_logger_handlers [] L in
  let '(hp, L) := get_file_handlers (pth_progress_log L) INFO true ERROR 10%N L in
  let L := set_handler_progress_log (Some hp) L in
  let '(hd, L) := get_file_handlers (pth_debug_log L) DEBUG true CRITICAL 100000%N L in
  let L := set_handler_debug_log (Some hd) L in
  let '(he, L) := get_file_handlers (pth_error_log L) ERROR false INFO 10%N L in
  let L := set_handler_error_log (Some he) L in
  let hs := StreamHandler (if debug_mode L then DEBUG else INFO) in
  let L := set_handler_stream_log (Some hs) L in
  set_logger_handlers [hp; hd; he; hs] L.

Definition initial_log_messages (L : Logger) : Logger :=
  let L := info ("Path for debug log is " ++ str_of_path (pth_debug_log L)
                 ++ " and will be created if any WARNING messages occur") L in
  let L := info ("Path for process log is " ++ str_of_path (pth_progress_log L)
                 ++ " and will contain all INFO and higher messages") L in
  let L := info ("Path for error log is " ++ str_of_path (pth_error_log L)
                 ++ " and will be created if any ERROR messages occur") L in
  let L := debug_ ("Stream output is going to stdout which will only be displayed if DEBUG MODE is True and currently it is "
                   ++ str_of_bool (debug_mode L)) L in
  flush L.

(** [logger.removeHandler(h)]: the first occurrence of [h] goes. *)
Fixpoint removeHandler (h : Handler) (l : list Handler) : list Handler :=
  match l with
  | [] => []
  | x :: l' => if Handler_eqb h x then l' else x :: removeHandler h l'
  end.

(** [close_logging]: the two flushes, the debug handler taken off the
    logger; closing the file handlers changes no attribute. *)
Definition close_logging (L : Logger) : Logger :=
  let L := flush L in
  match handler_debug_log L with
  | Some h => set_logger_handlers (removeHandler h (logger_handlers L)) L
  | None => L
  end.

Definition logging_final_report_and_closure (L : Logger) : Logger :=
  let L :=
    if (1 <? sum [warning_count L; error_count L; critical_count L])%nat then
      info ("Log file closing, there were the following number of important messages: " ++ nl
            ++ tab ++ " - " ++ str_of_nat (warning_count L) ++ " Warning Messages that may be of concern" ++ nl
            ++ tab ++ " - " ++ str_of_nat (error_count L)
            ++ " Error Messages that may have stopped the results being produced" ++ nl
            ++ tab ++ " - " ++ str_of_nat (critical_count L) ++ " Critical Messages") L
    else
      info "Log file closing, there were 0 important messages" L in
  let L := debug_ "Logging stopped" L in
  set_shutdown true L.

Section WithOs.
Context {FS : Type} `{FileSystem FS}.

(** [os.path.dirname(__file__)] and the parent of
    [os.path.realpath(__file__)]. *)
Variable script_pth : string.
Variable parent_pth : string.

#[local] Abbreviation join := (path_join (FS := FS)).

(** [uid] is [time.strftime('%Y%m%d_%H%M%S')] at the time of the call. The
    third branch assigns [pth_progress_log], as the source does. *)
Definition check_file_paths (uid : string) (L : Logger) : Logger :=
  let c := log_constants L in
  let L :=
    match pth_debug_log L with
    | None => set_pth_debug_log
                (Some (join parent_pth (debug c ++ "_" ++ uid ++ extension c))) L
    | Some _ => L
    end in
  let L :=
    match pth_progress_log L with
    | None => set_pth_progress_log
                (Some (join parent_pth (progress c ++ "_" ++ uid ++ extension c))) L
    | Some _ => L
    end in
  match pth_error_log L with
  | None => set_pth_progress_log
              (Some (join parent_pth (error c ++ "_" ++ uid ++ extension c))) L
  | Some _ => L
  end.

(** [Logger(pth_logs, uid, app, debug)]; [now] is the time stamp that
    [check_file_paths] reads. The log files are placed under the
    argument [pth_logs], not under the checked directory. *)
Definition __init__ (consts : LoggingConstants) (pth_logs_arg uid : string)
    (app_arg : option string) (debug_arg : bool) (now : string) (fs : FS)
  : result Logger * FS :=
  match check_directory script_pth pth_logs_arg "Logs" fs with
  | (Raise e, fs') => (Raise e, fs')
  | (Ok checked, fs') =>
      let L :=
        {| log_constants := consts;
           handler_progress_log := None;
           handler_debug_log := None;
           handler_error_log := None;
           handler_stream_log := None;
           warning_count := 0;
           error_count := 0;
           critical_count := 0;
           pth_logs := checked;
           pth_debug_log := Some (join pth_logs_arg ("DEBUG_" ++ uid ++ ".log"));
           pth_progress_log := Some (join pth_logs_arg ("INFO_" ++ uid ++ ".log"));
           pth_error_log := Some (join pth_logs_arg ("ERROR_" ++ uid ++ ".log"));
           app := app_arg;
           debug_mode := debug_arg;
           file_handlers := [];
           logger_handlers := [];
           records := [];
           shutdown := false |} in
      let L := check_file_paths now L in
      let L := setup_logging L in
      let L := initial_log_messages L in
      (Ok L, fs')
  end.

(** The public methods of the class, as calls on an instance. *)
Inductive call : Type :=
| Call_check_file_paths (now : string)
| Call_setup_logging
| Call_initial_log_messages
| Call_close_logging
| Call_get_file_handlers (pth : option string) (min_level : nat)
    (_buffer : bool) (flush_level : nat) (buffer_cap : N)
| Call_debug (msg : string)
| Call_info (msg : string)
| Call_warning (msg : string)
| Call_error (msg : string)
| Call_critical (caller msg : string)
| Call_flush
| Call_logging_final_report_and_closure
| Call___del__
| Call___exit__.

Definition is_critical (c : call) : bool :=
  match c with Call_critical _ _ => true | _ => false end.

Definition run_call (c : call) (L : Logger) : Logger :=
  match c with
  | Call_check_file_paths now => check_file_paths now L
  | Call_setup_logging => setup_logging L
  | Call_initial_log_messages => initial_log_messages L
  | Call_close_logging => close_logging L
  | Call_get_file_handlers pth lvl b fl cap =>
      snd (get_file_handlers pth lvl b fl cap L)
  | Call_debug msg => debug_ msg L
  | Call_info msg => info msg L
  | Call_warning msg => warning msg L
  | Call_error msg => error_ msg L
  | Call_critical caller msg => critical caller msg L
  | Call_flush => flush L
  | Call_logging_final_report_and_closure => logging_final_report_and_closure L
  | Call___del__ => logging_final_report_and_closure L
  | Call___exit__ => logging_final_report_and_closure L
  end.

(** A lifetime of an instance: the calls made on it, in order. *)
Definition run_calls (cs : list call) (L : Logger) : Logger :=
  fold_left (fun L c => run_call c L) cs L.

End WithOs.

(** The three counters of an instance. *)
Definition counts (L : Logger) : nat * nat * nat :=
  (warning_count L, error_count L, critical_count L).

(** The message that [logging_final_report_and_closure] writes at INFO. *)
Definition final_report_message (L : Logger) : option string :=
  match rev (records (logging_final_report_and_closure L)) with
  | _ :: (_, msg) :: _ => Some msg
  | _ => None
  end.

Definition counts_message (w e c : nat) : string :=
  "Log file closing, there were the following number of important messages: " ++ nl
  ++ tab ++ " - " ++ str_of_nat w ++ " Warning Messages that may be of concern" ++ nl
  ++ tab ++ " - " ++ str_of_nat e
  ++ " Error Messages that may have stopped the results being produced" ++ nl
  ++ tab ++ " - " ++ str_of_nat c ++ " Critical Messages".

End LoggerModel.

(* ===================================================================== *)
(** ** collections.OrderedDict and the pandas operations that main uses *)
(* ===================================================================== *)

Module OrderedDict.

(** Keys in the order of their first insertion, each with its value. *)
Definition t (V : Type) : Type := list (string * V).

(** [d[k] = v]: a key already present keeps its place and takes the new
    value, a new key goes to the end. *)
Fixpoint setitem {V} (k : string) (v : V) (d : t V) : t V :=
  match d with
  | [] => [(k, v)]
  | (k', v') :: d' =>
      if String.eqb k' k then (k', v) :: d' else (k', v') :: setitem k v d'
  end.

Definition keys {V} (d : t V) : list string := map fst d.

End OrderedDict.

Module Pandas.

Section Frames.
(** The numbers that the engine reports (voltages, loadings). *)
Variable Num : Type.

Inductive cell : Type :=
| NaN
| CBool (b : bool)
| CStr (s : string)
| CNum (x : Num).

(** A DataFrame: its column labels and its rows, each row with its index
    label and one cell per column. *)
Record DataFrame : Type := {
  columns : list string;
  rows : list (string * list cell)
}.

Definition df_index (df : DataFrame) : list string := map fst (rows df).

(** [pd.DataFrame(index=idx, columns=cols)]: every cell is NaN. *)
Definition new_frame (idx cols : list string) : DataFrame :=
  {| columns := cols;
     rows := map (fun i => (i, map (fun _ => NaN) cols)) idx |}.

Fixpoint position (c : string) (cols : list string) : option nat :=
  match cols with
  | [] => None
  | c' :: cols' =>
      if String.eqb c' c then Some 0
      else option_map S (position c cols')
  end.

Fixpoint set_nth {A} (n : nat) (v : A) (l : list A) : list A :=
  match l, n with
  | [], _ => []
  | _ :: l', 0 => v :: l'
  | x :: l', S n' => x :: set_nth n' v l'
  end.

Definition add_column (c : string) (df : DataFrame) : DataFrame :=
  if mem_string c (columns df) then df
  else {| columns := (columns df ++ [c])%list;
          rows := map (fun r => (fst r, (snd r ++ [NaN])%list)) (rows df) |}.

(** [df.loc[r, c] = v] for scalar labels: the cell is written in every
    row labelled [r]; a label that is not in the index is appended as a
    new row, NaN outside column [c]. *)
Definition loc_set (r c : string) (v : cell) (df : DataFrame) : DataFrame :=
  let df := add_column c df in
  match position c (columns df) with
  | None => df
  | Some k =>
      if mem_string r (df_index df) then
        {| columns := columns df;
           rows := map (fun row =>
                          if String.eqb (fst row) r
                          then (fst row, set_nth k v (snd row))
                          else row) (rows df) |}
      else
        {| columns := columns df;
           rows := (rows df
                   ++ [(r, set_nth k v (map (fun _ => NaN) (columns df)))])%list |}
  end.

(** [df.loc[r] = v] for a scalar [v]: the whole row takes the value; a
    label that is not in the index is appended as a new row. *)
Definition loc_set_row (r : string) (v : cell) (df : DataFrame) : DataFrame :=
  if mem_string r (df_index df) then
    {| columns := columns df;
       rows := map (fun row =>
                      if String.eqb (fst row) r
                      then (fst row, map (fun _ => v) (snd row))
                      else row) (rows df) |}
  else
    {| columns := columns df;
       rows := (rows df ++ [(r, map (fun _ => v) (columns df))])%list |}.

(** The cells of the first row labelled [r]. *)
Fixpoint find_row (r : string) (rs : list (string * list cell))
  : option (list cell) :=
  match rs with
  | [] => None
  | (i, cs) :: rs' => if String.eqb i r then Some cs else find_row r rs'
  end.

Definition loc_row (r : string) (df : DataFrame) : option (list cell) :=
  find_row r (rows df).

(** [df.loc[r, c]]. *)
Definition loc (r c : string) (df : DataFrame) : option cell :=
  match loc_row r df, position c (columns df) with
  | Some cs, Some k => nth_error cs k
  | _, _ => None
  end.

(** Every row has one cell per column. *)
Definition aligned (df : DataFrame) : Prop :=
  Forall (fun row => List.length (snd row) = List.length (columns df)) (rows df).

End Frames.

Arguments NaN {Num}.
Arguments CBool {Num} b.
Arguments CStr {Num} s.
Arguments CNum {Num} x.
Arguments columns {Num} d.
Arguments rows {Num} d.
Arguments df_index {Num} df.
Arguments add_column {Num} c df.
Arguments loc_set {Num} r c v df.
Arguments loc_set_row {Num} r v df.
Arguments find_row {Num} r rs.
Arguments loc_row {Num} r df.
Arguments loc {Num} r c df.
Arguments aligned {Num} df.

End Pandas.

(* ===================================================================== *)
(** ** Main.py : the collaborators of main *)
(* ===================================================================== *)

Module Collaborators.
Import Pandas.

(** The eight data-set objects that main creates, by the name of the
    variable that holds each. *)
Inductive DataSet : Type :=
| bus_data | circuit_data | tx2_data | tx3_data | tx3_wind_data
| fixed_shunt_data | switched_shunt_data | machine_data.

(** The constructor calls of [optimisation.psse] behind them, with the
    keyword arguments that main gives ([tx] is given for the two-winding
    transformers only); all but [MachineData] are also given
    [sid=psse_case.sid]. *)
Inductive ctor : Type :=
| BusData
| BranchData (flag : Z) (tx : option bool)
| Tx3Data
| Tx3WndData
| ShuntData (fixed : bool)
| MachineData.

(** The DataFrame attributes of the data sets that main exports. *)
Inductive attr : Type :=
| df_voltage_steady | df_voltage_step | df_state | df_status | df_loading | df.

(** [optimisation.psse.Contingency(circuits=..., ..., name=...)]. *)
Record Contingency (Elems : Type) : Type := {
  circuits : Elems;
  tx2 : Elems;
  tx3 : Elems;
  busbars : Elems;
  fixed_shunts : Elems;
  switched_shunts : Elems;
  name : string
}.
Arguments circuits {Elems} c.
Arguments tx2 {Elems} c.
Arguments tx3 {Elems} c.
Arguments busbars {Elems} c.
Arguments fixed_shunts {Elems} c.
Arguments switched_shunts {Elems} c.
Arguments name {Elems} c.

(** [optimisation.constants], as far as Main.py reads it. *)
Record Constants (Limit : Type) : Type := {
  Logging_constants : LoggerModel.LoggingConstants;
  Contingency_bc : string;
  Contingency_convergent : string;
  EirGridThresholds_cont_step_change_limit : Limit;
  EirGridThresholds_reactor_step_change_limit : Limit;
  Excel_message : string;
  Excel_convergence : string;
  Excel_voltage_steady : string;
  Excel_voltage_step : string;
  Excel_busbars : string;
  Excel_circuit_status : string;
  Excel_circuit_loading : string;
  Excel_tx2_status : string;
  Excel_tx2_loading : string;
  Excel_tx3 : string;
  Excel_tx3_wind_status : string;
  Excel_tx3_wind_loading : string;
  Excel_fixed_shunts : string;
  Excel_switched_shunts : string;
  Excel_machine_data : string
}.
Arguments Logging_constants {Limit} c.
Arguments Contingency_bc {Limit} c.
Arguments Contingency_convergent {Limit} c.
Arguments EirGridThresholds_cont_step_change_limit {Limit} c.
Arguments EirGridThresholds_reactor_step_change_limit {Limit} c.
Arguments Excel_message {Limit} c.
Arguments Excel_convergence {Limit} c.
Arguments Excel_voltage_steady {Limit} c.
Arguments Excel_voltage_step {Limit} c.
Arguments Excel_busbars {Limit} c.
Arguments Excel_circuit_status {Limit} c.
Arguments Excel_circuit_loading {Limit} c.
Arguments Excel_tx2_status {Limit} c.
Arguments Excel_tx2_loading {Limit} c.
Arguments Excel_tx3 {Limit} c.
Arguments Excel_tx3_wind_status {Limit} c.
Arguments Excel_tx3_wind_loading {Limit} c.
Arguments Excel_fixed_shunts {Limit} c.
Arguments Excel_switched_shunts {Limit} c.
Arguments Excel_machine_data {Limit} c.

(** Everything outside the three sources that main and the top-level loop
    call. [W] is the state of the process apart from the file system: the
    engine with its loaded case, the objects of [optimisation.psse] and
    [optimisation.file_handling] and the files they read and write. Each
    operation is the call of the same name; exceptions raised inside these
    modules are not part of the interface. *)
Record Env : Type := {
  W : Type;
  Bus : Type;
  Limit : Type;
  Elems : Type;
  ContingencyData : Type;
  Num : Type;
  FS : Type;
  os : FileSystem FS;
  constants : Constants Limit;
  (** optimisation.psse.PsseControl *)
  PsseControl : W -> W;
  load_data_case : option string -> W -> W;
  define_bus_subsystem : W -> W;
  (** [run_load_flow] returns the success flag and the frame of islanded
      busbars, held here by its [constants.Busbars.bus] column. *)
  run_load_flow : W -> (bool * list Bus) * W;
  str_of_bus : Bus -> string;
  (** the data-set classes *)
  construct : DataSet -> ctor -> W -> W;
  check_compliance : DataSet -> list string -> option Limit -> W
                     -> DataFrame Num * W;
  getattr : DataSet -> attr -> W -> DataFrame Num;
  (** optimisation.file_handling *)
  ImportContingencies : string -> W -> ContingencyData * W;
  contingency_names : ContingencyData -> list string;
  group_contingencies_by_name :
    ContingencyData -> string
    -> Elems * Elems * Elems * Elems * Elems * Elems;
  ExportResults : string -> OrderedDict.t (DataFrame Num) -> DataFrame Num
                  -> W -> W;
  (** optimisation.psse.Contingency: [test_contingency] leaves the
      attributes [convergence_message] and [convergent] on the object. *)
  voltage_control_contingency : Contingency Elems -> bool;
  setup_contingency : Contingency Elems -> W -> W;
  test_contingency : Contingency Elems -> W -> (string * bool) * W;
  (** [pd.concat(frames, axis=axis, sort=sort)] *)
  pd_concat : list (DataFrame Num) -> nat -> option bool -> DataFrame Num;
  (** ['{:.2f}'.format(time.time() - t)] for the two timers of the script *)
  elapsed_text : W -> string
}.

End Collaborators.

(* ===================================================================== *)
(** ** Main.py : main *)
(* ===================================================================== *)

Module MainPy.
Import Pandas Collaborators.

Section WithEnv.
Variable E : Env.

#[local] Abbreviation Frame := (DataFrame (Num E)).

(** What the run does to the world outside, in order: the records given
    to the logger named [constants.Logging.logger_name] and the calls
    into the collaborators. *)
Inductive event : Type :=
| Log (lvl : nat) (msg : string)
| EPsseControl
| ELoadDataCase (pth_sav : option string)
| EDefineBusSubsystem
| ERunLoadFlow
| EConstruct (d : DataSet) (c : ctor)
| EImportContingencies (pth : string)
| ESetupContingency (cont_name : string)
| ETestContingency (cont_name : string) (message : string) (convergent : bool)
| ECheckCompliance (d : DataSet) (cont_names : list string)
    (voltage_step_limit : option (Limit E))
| EExportResults (pth_workbook : string) (results : OrderedDict.t Frame)
    (convergence : Frame).

Record St : Type := {
  world : W E;
  files : FS E;
  trace : list event
}.

(** Statements: state passing with exceptions. *)
Definition M (A : Type) : Type := St -> result A * St.

Definition ret {A} (a : A) : M A := fun st => (Ok a, st).

Definition bind {A B} (m : M A) (k : A -> M B) : M B :=
  fun st =>
    match m st with
    | (Ok a, st') => k a st'
    | (Raise e, st') => (Raise e, st')
    end.

Definition raise {A} (e : exn) : M A := fun st => (Raise e, st).

Definition emit (ev : event) : M unit :=
  fun st => (Ok tt, {| world := world st; files := files st;
                       trace := trace st ++ [ev] |}).

(** A call into a collaborator: the event is recorded and the world moves. *)
Definition call {A} (ev : A -> event) (op : W E -> A * W E) : M A :=
  fun st =>
    let '(a, w) := op (world st) in
    (Ok a, {| world := w; files := files st; trace := trace st ++ [ev a] |}).

Definition call_ (ev : event) (op : W E -> W E) : M unit :=
  call (fun _ => ev) (fun w => (tt, op w)).

Definition read {A} (f : W E -> A) : M A := fun st => (Ok (f (world st)), st).

Definition log (lvl : nat) (msg : string) : M unit := emit (Log lvl msg).

(** [for x in xs: acc = body(x, acc)], left at the first exception. *)
Fixpoint for_each {A B} (xs : list A) (body : A -> B -> M B) (acc : B) : M B :=
  match xs with
  | [] => ret acc
  | x :: xs' => bind (body x acc) (for_each xs' body)
  end.

End WithEnv.

Arguments world {E} s.
Arguments files {E} s.
Arguments trace {E} s.
Arguments ret {E A} a.
Arguments raise {E A} e.
Arguments bind {E A B} m k.
Arguments emit {E} ev.
Arguments call {E A} ev op.
Arguments call_ {E} ev op.
Arguments read {E A} f.
Arguments for_each {E A B} xs body acc.

Declare Scope py_scope.
Delimit Scope py_scope with py.
Notation "x <- c1 ;; c2" := (bind c1 (fun x => c2))
  (at level 61, c1 at next level, right associativity) : py_scope.
Notation "' pat <- c1 ;; c2" := (bind c1 (fun x => match x with pat => c2 end))
  (at level 61, pat pattern, c1 at next level, right associativity) : py_scope.
Notation "c1 ;; c2" := (bind c1 (fun _ => c2))
  (at level 61, right associativity) : py_scope.

Open Scope py_scope.

Section Main.
Variable E : Env.

#[local] Abbreviation Frame := (DataFrame (Num E)).
#[local] Abbreviation c := (constants E).

(** The local variables that the test loop updates. *)
Record loop_vars : Type := {
  circuit_switching : list string;
  shunt_switching : list string;
  contingency_convergence : Frame
}.

(** Lines 76-92: the base case must be convergent, with no islands. *)
Definition check_base_case (psse_sav_case : string) : M E unit :=
  '(load_flow_success, islanded_busbars) <-
     call (fun _ => ERunLoadFlow E) (run_load_flow E) ;;
  let islanded_busbars_empty :=
    match islanded_busbars with [] => true | _ => false end in
  if negb load_flow_success || negb islanded_busbars_empty then
    (if negb islanded_busbars_empty then
       let msg0 := "The loaded PSSE case " ++ psse_sav_case
                   ++ " has the following busbars islanded in the base case:" in
       let msg1 := String.concat nl
                     (map (fun bus => tab ++ " - Busbar: " ++ str_of_bus E bus)
                          islanded_busbars) in
       let msg := msg0 ++ nl ++ msg1 in
       log E CRITICAL msg ;;
       raise (ValueError "Check PSSE SAV Case - Islanded busbars")
     else ret tt) ;;
    (if negb load_flow_success then
       log E CRITICAL ("The base PSSE SAV case " ++ psse_sav_case
                       ++ " is non-convergent") ;;
       raise (ValueError "Check PSSE SAV Case - Non-Convergent")
     else ret tt)
  else
    log E INFO "Initial load flow study convergent".

(** Lines 95-102. *)
Definition construct_data_sets : M E unit :=
  let new d k := call_ (EConstruct E d k) (construct E d k) in
  new bus_data BusData ;;
  new circuit_data (BranchData 2 None) ;;
  new tx2_data (BranchData 6 (Some true)) ;;
  new tx3_data Tx3Data ;;
  new tx3_wind_data Tx3WndData ;;
  new fixed_shunt_data (ShuntData true) ;;
  new switched_shunt_data (ShuntData false) ;;
  new machine_data MachineData.

(** Lines 105-117: one [Contingency] per name, in an OrderedDict. *)
Definition import_contingencies (cont_workbook : string)
  : M E (OrderedDict.t (Contingency (Elems E))) :=
  log E INFO ("Importing details of all contingencies from workbook "
              ++ cont_workbook) ;;
  contingency_data <-
    call (fun _ => EImportContingencies E cont_workbook)
         (ImportContingencies E cont_workbook) ;;
  contingency_circuits_details <-
    for_each (contingency_names E contingency_data)
      (fun cont_name contingency_circuits_details =>
         log E DEBUG ("Processing contingency: " ++ cont_name) ;;
         let '(circuits, tx2, tx3, busbars, fixed_shunts, switched_shunts) :=
           group_contingencies_by_name E contingency_data cont_name in
         let contingency :=
           {| circuits := circuits; tx2 := tx2; tx3 := tx3;
              busbars := busbars; fixed_shunts := fixed_shunts;
              switched_shunts := switched_shunts; name := cont_name |} in
         ret (OrderedDict.setitem cont_name contingency
                contingency_circuits_details))
      [] ;;
  log E INFO ("All contingencies from workbook " ++ cont_workbook
              ++ " imported") ;;
  ret contingency_circuits_details.

(** Lines 129-153: the body of the test loop for one item. *)
Definition test_one (item : string * Contingency (Elems E)) (v : loop_vars)
  : M E loop_vars :=
  let '(name, contingency) := item in
  log E INFO ("Testing contingency " ++ name) ;;
  let v :=
    if voltage_control_contingency E contingency then
      {| circuit_switching := circuit_switching v;
         shunt_switching := (shunt_switching v ++ [name])%list;
         contingency_convergence := contingency_convergence v |}
    else
      {| circuit_switching := (circuit_switching v ++ [name])%list;
         shunt_switching := shunt_switching v;
         contingency_convergence := contingency_convergence v |} in
  call_ (ESetupContingency E name) (setup_contingency E contingency) ;;
  '(convergence_message, convergent) <-
     call (fun r => ETestContingency E name (fst r) (snd r))
          (test_contingency E contingency) ;;
  call_ (ELoadDataCase E None) (load_data_case E None) ;;
  let df := contingency_convergence v in
  let df := loc_set name (Excel_message c) (CStr convergence_message) df in
  let df := loc_set name (Excel_convergence c) (CBool convergent) df in
  ret {| circuit_switching := circuit_switching v;
         shunt_switching := shunt_switching v;
         contingency_convergence := df |}.

(** Lines 119-153. *)
Definition test_contingencies
    (contingency_circuits_details : OrderedDict.t (Contingency (Elems E)))
  : M E loop_vars :=
  let df := new_frame (Num E) (OrderedDict.keys contingency_circuits_details)
              [Excel_message c; Excel_convergence c] in
  let df := loc_set (Contingency_bc c) (Excel_message c)
              (CStr (Contingency_convergent c)) df in
  let df := loc_set (Contingency_bc c) (Excel_convergence c) (CBool true) df in
  for_each contingency_circuits_details test_one
    {| circuit_switching := []; shunt_switching := [];
       contingency_convergence := df |}.

Definition compliance_call (d : DataSet) (cont_names : list string)
    (voltage_step_limit : option (Limit E)) : M E Frame :=
  call (fun _ => ECheckCompliance E d cont_names voltage_step_limit)
       (check_compliance E d cont_names voltage_step_limit).

(** Lines 172: the names that every data set is checked for. *)
Definition all_cont_names (v : loop_vars) : list string :=
  (Contingency_bc c :: circuit_switching v ++ shunt_switching v)%list.

(** Lines 156-177. *)
Definition check_all_compliance (v : loop_vars) : M E Frame :=
  df_compliance_cont_step <-
    compliance_call bus_data (circuit_switching v)
      (Some (EirGridThresholds_cont_step_change_limit c)) ;;
  df_compliance_reactor_step <-
    compliance_call bus_data (shunt_switching v)
      (Some (EirGridThresholds_reactor_step_change_limit c)) ;;
  let df_compliance_step_change :=
    pd_concat E [df_compliance_cont_step; df_compliance_reactor_step] 0 None in
  let df_compliance_step_change :=
    loc_set_row (Contingency_bc c) (CBool true) df_compliance_step_change in
  compliance <-
    for_each [bus_data; circuit_data; tx2_data; tx3_wind_data]
      (fun data_set compliance =>
         df <- compliance_call data_set (all_cont_names v) None ;;
         ret (compliance ++ [df])%list)
      [df_compliance_step_change] ;;
  ret (pd_concat E (contingency_convergence v :: compliance) 1 (Some true)).

(** Lines 180-194: the sheets, keyed by their names. *)
Definition results_data (w : W E) : OrderedDict.t Frame :=
  let results_data := [] in
  let results_data := OrderedDict.setitem (Excel_voltage_steady c)
                        (getattr E bus_data df_voltage_steady w) results_data in
  let results_data := OrderedDict.setitem (Excel_voltage_step c)
                        (getattr E bus_data df_voltage_step w) results_data in
  let results_data := OrderedDict.setitem (Excel_busbars c)
                        (getattr E bus_data df_state w) results_data in
  let results_data := OrderedDict.setitem (Excel_circuit_status c)
                        (getattr E circuit_data df_status w) results_data in
  let results_data := OrderedDict.setitem (Excel_circuit_loading c)
                        (getattr E circuit_data df_loading w) results_data in
  let results_data := OrderedDict.setitem (Excel_tx2_status c)
                        (getattr E tx2_data df_status w) results_data in
  let results_data := OrderedDict.setitem (Excel_tx2_loading c)
                        (getattr E tx2_data df_loading w) results_data in
  let results_data := OrderedDict.setitem (Excel_tx3 c)
                        (getattr E tx3_data df w) results_data in
  let results_data := OrderedDict.setitem (Excel_tx3_wind_status c)
                        (getattr E tx3_wind_data df_status w) results_data in
  let results_data := OrderedDict.setitem (Excel_tx3_wind_loading c)
                        (getattr E tx3_wind_data df_loading w) results_data in
  let results_data := OrderedDict.setitem (Excel_fixed_shunts c)
                        (getattr E fixed_shunt_data df_status w) results_data in
  let results_data := OrderedDict.setitem (Excel_switched_shunts c)
                        (getattr E switched_shunt_data df_status w) results_data in
  let results_data := OrderedDict.setitem (Excel_machine_data c)
                        (getattr E machine_data df_loading w) results_data in
  results_data.

(** Lines 69-117: everything before the test loop. *)
Definition prepare (cont_workbook psse_sav_case : string)
  : M E (OrderedDict.t (Contingency (Elems E))) :=
  log E INFO ("Loading PSSE case " ++ psse_sav_case
              ++ " and checking convergent") ;;
  call_ (EPsseControl E) (PsseControl E) ;;
  call_ (ELoadDataCase E (Some psse_sav_case))
        (load_data_case E (Some psse_sav_case)) ;;
  call_ (EDefineBusSubsystem E) (define_bus_subsystem E) ;;
  check_base_case psse_sav_case ;;
  construct_data_sets ;;
  import_contingencies cont_workbook.

(** Lines 180-198. *)
Definition export_results (target_workbook : string)
    (contingency_compliance : Frame) : M E unit :=
  results_data <- read results_data ;;
  call_ (EExportResults E target_workbook results_data contingency_compliance)
        (ExportResults E target_workbook results_data contingency_compliance).

Definition main (cont_workbook psse_sav_case target_workbook : string)
  : M E string :=
  contingency_circuits_details <- prepare cont_workbook psse_sav_case ;;
  v <- test_contingencies contingency_circuits_details ;;
  contingency_compliance <- check_all_compliance v ;;
  export_results target_workbook contingency_compliance ;;
  ret target_workbook.

End Main.

Arguments circuit_switching {E} l.
Arguments shunt_switching {E} l.
Arguments contingency_convergence {E} l.

(* ===================================================================== *)
(** ** Main.py : module constants and the top-level loop *)
(* ===================================================================== *)

Section Script.
Variable E : Env.

#[local] Instance E_os : FileSystem (FS E) := os E.

(** [os.path.join(a, b)]. *)
Definition join (a b : string) : string := path_join (FS := FS E) a b.

(** [os.path.dirname(os.path.abspath(__file__))] of Main.py, and for the
    package [os.path.dirname(__file__)] and the parent of
    [os.path.realpath(__file__)]. *)
Variable script_path : string.
Variable package_pth : string.
Variable package_parent_pth : string.

Definition project_directory : string :=
  "C:\Users\david\Power Systems Consultants Inc\Jobs - JI7867 - Cable Integration Studies for Capital Project 966"
  ++ "\5 Working Docs\Phase B".

(** [os.path.join(a, b, c)]. *)
Definition join3 (a b c : string) : string := join (join a b) c.

Definition pth_EirGrid_SAV : list string := [
  join3 project_directory "PSSE Models" "snv_high wind_30snv_mec_33_v1(BC).sav";
  join3 project_directory "PSSE Models" "snv_low wind_30snv_mec_33_v1(BC).sav";
  join3 project_directory "PSSE Models" "WP_high wind_30w_mec_33_v1(BC).sav";
  join3 project_directory "PSSE Models" "snv_high wind_30snv_mec_33_v1(CP966).sav";
  join3 project_directory "PSSE Models" "snv_low wind_30snv_mec_33_v1(CP966).sav";
  join3 project_directory "PSSE Models" "WP_high wind_30w_mec_33_v1(CP966).sav"
].

Definition pth_Contingencies : string :=
  join project_directory "Contingencies.xlsx".

Definition pth_results : list string := [
  join project_directory "Results_SVHW(BC).xlsx";
  join project_directory "Results_SVLW(BC).xlsx";
  join project_directory "Results_WPHW(BC).xlsx";
  join project_directory "Results_SVHW(CP966).xlsx";
  join project_directory "Results_SVLW(CP966).xlsx";
  join project_directory "Results_WPHW(CP966).xlsx"
].

Definition selector : list Z := [5%Z].

(** Lines 214-224: one pass of the loop over the selection. *)
Definition run_selected (i : Z) : M E unit :=
  match index pth_EirGrid_SAV i with
  | None => raise (IndexError "list index out of range")
  | Some pth_sav =>
      match index pth_results i with
      | None => raise (IndexError "list index out of range")
      | Some pth_res =>
          log E INFO ("Processing SAV case " ++ pth_sav) ;;
          fun st =>
            match main E pth_Contingencies pth_sav pth_res st with
            | (Ok pth_excel, st') =>
                (elapsed <- read (elapsed_text E) ;;
                 log E INFO ("SAV case " ++ pth_sav ++ " completed in " ++ elapsed
                             ++ ", results saved in " ++ pth_res)) st'
            | (Raise (ValueError _), st') =>
                log E ERROR ("Contingency analysis for the SAV case " ++ pth_sav
                             ++ " could not be completed") st'
            | (Raise e, st') => (Raise e, st')
            end
      end
  end.

(** Lines 213-224 for a given selection. *)
Definition run_selection (sel : list Z) : M E unit :=
  for_each sel (fun i _ => run_selected i) tt.

(** [optimisation.Logger(pth_logs=log_path, uid=uid)] in the state of the
    script: the records of its initial messages go to the logger. *)
Definition new_Logger (pth_logs uid now : string) : M E LoggerModel.Logger :=
  fun st =>
    match LoggerModel.__init__ package_pth package_parent_pth
            (Logging_constants (constants E)) pth_logs uid None false now
            (files st) with
    | (Raise e, fs) =>
        (Raise e, {| world := world st; files := fs; trace := trace st |})
    | (Ok L, fs) =>
        (Ok L, {| world := world st; files := fs;
                  trace := (trace st
                            ++ map (fun r => Log E (fst r) (snd r))
                                   (LoggerModel.records L))%list |})
    end.

(** Lines 204-226; [now] is [time.strftime('%Y%m%d_%H%M%S')]. *)
Definition script (now : string) : M E unit :=
  let log_path := join script_path "Logs" in
  let uid := "Contingencies_" ++ now in
  log_cls <- new_Logger log_path uid now ;;
  log E INFO "Study Started" ;;
  run_selection selector ;;
  elapsed <- read (elapsed_text E) ;;
  log E INFO ("Study completed in " ++ elapsed ++ " seconds").

End Script.

(** The states at which the passes of a loop start: the state before the
    first item and the state after each pass but the last, for as long as
    no pass raises. *)
Fixpoint pass_starts {E A B} (xs : list A) (body : A -> B -> M E B) (acc : B)
    (st : St E) : list (St E) :=
  match xs with
  | [] => []
  | x :: xs' =>
      st :: match body x acc st with
            | (Ok acc', st') => pass_starts xs' body acc' st'
            | (Raise _, _) => []
            end
  end.

End MainPy.

(* ===================================================================== *)
(** ** os.path.splitext *)
(* ===================================================================== *)

Module OsPath.

(** [p.rfind(ch)] for a one-character [ch]: the last position, or -1.
    [i] is the position of the head of [s] and [last] the answer so far. *)
Fixpoint rfind_from (ch : ascii) (s : string) (i last : Z) : Z :=
  match s with
  | EmptyString => last
  | String a s' => rfind_from ch s' (i + 1)%Z (if Ascii.eqb a ch then i else last)
  end.

Definition rfind (ch : ascii) (p : string) : Z := rfind_from ch p 0%Z (-1)%Z.

(** The loop of [genericpath._splitext] that skips the leading dots of the
    file name: [n] passes are left, starting at [filenameIndex]; [true] when
    a character other than [extsep] is met. *)
Fixpoint skip_leading_dots (extsep : ascii) (p : string) (filenameIndex n : nat)
  : bool :=
  match n with
  | 0 => false
  | S n' =>
      match String.get filenameIndex p with
      | Some a =>
          if Ascii.eqb a extsep
          then skip_leading_dots extsep p (S filenameIndex) n'
          else true
      | None => true
      end
  end.

(** [genericpath._splitext(p, sep, altsep, extsep)]. *)
Definition _splitext (p : string) (sep : ascii) (altsep : option ascii)
    (extsep : ascii) : string * string :=
  let sepIndex := rfind sep p in
  let sepIndex :=
    match altsep with
    | Some alt => Z.max sepIndex (rfind alt p)
    | None => sepIndex
    end in
  let dotIndex := rfind extsep p in
  if (sepIndex <? dotIndex)%Z
     && skip_leading_dots extsep p (Z.to_nat (sepIndex + 1))
          (Z.to_nat (dotIndex - (sepIndex + 1)))
  then (substring 0 (Z.to_nat dotIndex) p,
        substring (Z.to_nat dotIndex) (String.length p - Z.to_nat dotIndex) p)
  else (p, EmptyString).

(** [ntpath.splitext] and [posixpath.splitext]. *)
Definition ntpath_splitext (p : string) : string * string :=
  _splitext p "\" (Some "/"%char) ".".

Definition posixpath_splitext (p : string) : string * string :=
  _splitext p "/" None ".".

End OsPath.

(* ===================================================================== *)
(** ** optimisation/data_visualisation.py *)
(* ===================================================================== *)

Module DataVisualisation.

(** What the script calls outside itself. [plot source_file fs] stands for
    lines 57-131 of [produce_plots_voltage]: the workbooks are read with
    [file_handling.busbars_to_consider] and pandas and the figure is drawn
    with matplotlib; it is the figure, or the exception that one of these
    calls raises. [savefig] writes the figure to a file. [windows] tells
    whether [os.path] is [ntpath] or [posixpath]. *)
Record PlotEnv : Type := {
  FS : Type;
  Figure : Type;
  os : FileSystem FS;
  windows : bool;
  plot : string -> FS -> result Figure;
  savefig : string -> Figure -> FS -> FS
}.

Section WithEnv.
Variable P : PlotEnv.

(** [os.path.join(a, b)]. *)
Definition join (a b : string) : string := path_join (FileSystem := os P) a b.

Definition project_directory : string :=
  "C:\Users\david\Power Systems Consultants Inc\Jobs - JI7867 - Cable Integration Studies for Capital Project 966"
  ++ "\5 Working Docs\Phase B".

Definition selector : list Z := [3%Z; 4%Z; 5%Z].

Definition source_files : list string := [
  join project_directory "Results_SVHW(BC).xlsx";
  join project_directory "Results_SVLW(BC).xlsx";
  join project_directory "Results_WPHW(BC).xlsx";
  join project_directory "Results_SVHW(CP966)2.xlsx";
  join project_directory "Results_SVLW(CP966)2.xlsx";
  join project_directory "Results_WPHW(CP966)2.xlsx";
  join project_directory "Results_SVHW(CP966)_RC.xlsx";
  join project_directory "Results_SVLW(CP966)_RC.xlsx";
  join project_directory "Results_WPHW(CP966)_RC.xlsx";
  join project_directory "Results_SVLW(CP966)_RC2.xlsx"
].

(** What the script leaves behind: files saved and lines printed. *)
Inductive output : Type :=
| Saved (fig_name : string) (fig : Figure P)
| Printed (line : string).

Record St : Type := {
  files : FS P;
  out : list output
}.

(** [os.path.splitext]. *)
Definition splitext (p : string) : string * string :=
  if windows P then OsPath.ntpath_splitext p else OsPath.posixpath_splitext p.

(** Lines 54-55. *)
Definition fig_name_of (source_file : string) : string :=
  let '(file_name, _) := splitext source_file in
  file_name ++ "_Voltage.png".

Definition produce_plots_voltage (source_file : string) (st : St)
  : result unit * St :=
  let fig_name := fig_name_of source_file in
  match plot P source_file (files st) with
  | Raise e => (Raise e, st)
  | Ok fig =>
      (Ok tt, {| files := savefig P fig_name fig (files st);
                 out := (out st ++ [Saved fig_name fig])%list |})
  end.

Definition print (line : string) (st : St) : result unit * St :=
  (Ok tt, {| files := files st; out := (out st ++ [Printed line])%list |}).

(** Lines 140-145: one pass of the loop over the selection. *)
Definition visualise (i : Z) (st : St) : result unit * St :=
  match index source_files i with
  | None => (Raise (IndexError "list index out of range"), st)
  | Some res_file =>
      if isfile (FileSystem := os P) (files st) res_file
      then produce_plots_voltage res_file st
      else print ("File <" ++ res_file ++ "> does not exist") st
  end.

(** Lines 139-145 for a given selection. *)
Fixpoint visualise_all (sel : list Z) (st : St) : result unit * St :=
  match sel with
  | [] => (Ok tt, st)
  | i :: sel' =>
      match visualise i st with
      | (Ok _, st') => visualise_all sel' st'
      | (Raise e, st') => (Raise e, st')
      end
  end.

Definition script (st : St) : result unit * St := visualise_all selector st.

End WithEnv.

Arguments files {P} s.
Arguments out {P} s.

End DataVisualisation.

(* ===================================================================== *)
(** ** Vocabulary for the runs of main *)
(* ===================================================================== *)

Module Runs.
Import Pandas Collaborators MainPy.

Section WithEnv.
Variable E : Env.

#[local] Abbreviation c := (constants E).

(** What the passes of the test loop obtain from the engine, pass by
    pass, when the loop starts in world [w]: the name, the convergence
    message and the convergent flag. *)
Fixpoint outcomes (items : OrderedDict.t (Contingency (Elems E))) (w : W E)
  : list (string * string * bool) :=
  match items with
  | [] => []
  | (name, contingency) :: items' =>
      let w1 := setup_contingency E contingency w in
      let '(r, w2) := test_contingency E contingency w1 in
      (name, fst r, snd r) :: outcomes items' (load_data_case E None w2)
  end.

(** The world in which the loop ends. *)
Fixpoint world_after (items : OrderedDict.t (Contingency (Elems E))) (w : W E)
  : W E :=
  match items with
  | [] => w
  | (name, contingency) :: items' =>
      let w1 := setup_contingency E contingency w in
      let '(r, w2) := test_contingency E contingency w1 in
      world_after items' (load_data_case E None w2)
  end.

(** The events of one pass: announce, set up, test, reload. *)
Definition pass_events (o : string * string * bool) : list (event E) :=
  let '(name, message, convergent) := o in
  [Log E INFO ("Testing contingency " ++ name);
   ESetupContingency E name;
   ETestContingency E name message convergent;
   ELoadDataCase E None].

(** The two cells that a pass writes (lines 152-153). *)
Definition record_outcome (df : DataFrame (Num E)) (o : string * string * bool)
  : DataFrame (Num E) :=
  let '(name, message, convergent) := o in
  loc_set name (Excel_convergence c) (CBool convergent)
    (loc_set name (Excel_message c) (CStr message) df).

(** The frame of lines 122-127, before the loop. *)
Definition initial_convergence (names : list string) : DataFrame (Num E) :=
  loc_set (Contingency_bc c) (Excel_convergence c) (CBool true)
    (loc_set (Contingency_bc c) (Excel_message c)
       (CStr (Contingency_convergent c))
       (new_frame (Num E) names [Excel_message c; Excel_convergence c])).

(** Events in which a contingency is applied to the engine. *)
Definition applies_contingency (ev : event E) : bool :=
  match ev with
  | ESetupContingency _ _ => true
  | ETestContingency _ _ _ _ => true
  | _ => false
  end.

(** The thirteen sheet names, in the order of lines 182-194. *)
Definition sheet_names : list string :=
  [Excel_voltage_steady c; Excel_voltage_step c; Excel_busbars c;
   Excel_circuit_status c; Excel_circuit_loading c;
   Excel_tx2_status c; Excel_tx2_loading c;
   Excel_tx3 c; Excel_tx3_wind_status c; Excel_tx3_wind_loading c;
   Excel_fixed_shunts c; Excel_switched_shunts c; Excel_machine_data c].

(** The attribute behind each sheet, in the same order. *)
Definition sheet_sources : list (DataSet * attr) :=
  [(bus_data, df_voltage_steady); (bus_data, df_voltage_step);
   (bus_data, df_state);
   (circuit_data, df_status); (circuit_data, df_loading);
   (tx2_data, df_status); (tx2_data, df_loading);
   (tx3_data, df); (tx3_wind_data, df_status); (tx3_wind_data, df_loading);
   (fixed_shunt_data, df_status); (switched_shunt_data, df_status);
   (machine_data, df_loading)].

(** A state further on: the world moved to [w], events [evs] added. *)
Definition step (w : W E) (evs : list (event E)) (st : St E) : St E :=
  {| world := w; files := files st; trace := (trace st ++ evs)%list |}.

(** The object that lines 111-115 build for a name. *)
Definition contingency_of (data : ContingencyData E) (cont_name : string)
  : Contingency (Elems E) :=
  let '(circuits, tx2, tx3, busbars, fixed_shunts, switched_shunts) :=
    group_contingencies_by_name E data cont_name in
  {| circuits := circuits; tx2 := tx2; tx3 := tx3;
     busbars := busbars; fixed_shunts := fixed_shunts;
     switched_shunts := switched_shunts; name := cont_name |}.

(** The dictionary that lines 107-116 build from the names. *)
Definition details_of (data : ContingencyData E) (names : list string)
  : OrderedDict.t (Contingency (Elems E)) :=
  fold_left (fun d n => OrderedDict.setitem n (contingency_of data n) d)
            names [].

(** The names of the items that are, and are not, voltage-control
    contingencies, in the order of the items. *)
Definition shunt_names (items : OrderedDict.t (Contingency (Elems E)))
  : list string :=
  map fst (filter (fun it => voltage_control_contingency E (snd it)) items).

Definition circuit_names (items : OrderedDict.t (Contingency (Elems E)))
  : list string :=
  map fst (filter (fun it => negb (voltage_control_contingency E (snd it))) items).

(** The events of lines 69-76 for a SAV case. *)
Definition opening_events (psse_sav_case : string) : list (event E) :=
  [Log E INFO ("Loading PSSE case " ++ psse_sav_case ++ " and checking convergent");
   EPsseControl E;
   ELoadDataCase E (Some psse_sav_case);
   EDefineBusSubsystem E;
   ERunLoadFlow E].

(** The world in which the base-case load flow is run. *)
Definition opened (psse_sav_case : string) (w : W E) : W E :=
  define_bus_subsystem E
    (load_data_case E (Some psse_sav_case) (PsseControl E w)).

(** The variables of the loop after a pass with outcome [o]. *)
Definition after_pass (k : Contingency (Elems E)) (o : string * string * bool)
    (v : loop_vars E) : loop_vars E :=
  {| circuit_switching :=
       if voltage_control_contingency E k then circuit_switching v
       else (circuit_switching v ++ [fst (fst o)])%list;
     shunt_switching :=
       if voltage_control_contingency E k
       then (shunt_switching v ++ [fst (fst o)])%list
       else shunt_switching v;
     contingency_convergence := record_outcome (contingency_convergence v) o |}.

(** The data sets of lines 95-102 with their constructors. *)
Definition data_set_ctors : list (DataSet * ctor) :=
  [(bus_data, BusData); (circuit_data, BranchData 2 None);
   (tx2_data, BranchData 6 (Some true)); (tx3_data, Tx3Data);
   (tx3_wind_data, Tx3WndData); (fixed_shunt_data, ShuntData true);
   (switched_shunt_data, ShuntData false); (machine_data, MachineData)].

Definition constructed (w : W E) : W E :=
  fold_left (fun w dk => construct E (fst dk) (snd dk) w) data_set_ctors w.

Definition construct_events : list (event E) :=
  map (fun dk => EConstruct E (fst dk) (snd dk)) data_set_ctors.

(** The events of lines 105-117. *)
Definition import_events (cont_workbook : string) (names : list string)
  : list (event E) :=
  ([Log E INFO ("Importing details of all contingencies from workbook "
                ++ cont_workbook);
    EImportContingencies E cont_workbook]
   ++ map (fun n => Log E DEBUG ("Processing contingency: " ++ n)) names
   ++ [Log E INFO ("All contingencies from workbook " ++ cont_workbook
                   ++ " imported")])%list.

(** The six calls of [check_compliance] of lines 159-174: data set,
    names and voltage-step limit. *)
Definition compliance_requests (v : loop_vars E)
  : list (DataSet * list string * option (Limit E)) :=
  [(bus_data, circuit_switching v,
    Some (EirGridThresholds_cont_step_change_limit c));
   (bus_data, shunt_switching v,
    Some (EirGridThresholds_reactor_step_change_limit c));
   (bus_data, all_cont_names E v, None);
   (circuit_data, all_cont_names E v, None);
   (tx2_data, all_cont_names E v, None);
   (tx3_wind_data, all_cont_names E v, None)].

Definition compliance_event (q : DataSet * list string * option (Limit E))
  : event E :=
  ECheckCompliance E (fst (fst q)) (snd (fst q)) (snd q).

(** The frames that the calls return, one after the other. *)
Fixpoint answers (qs : list (DataSet * list string * option (Limit E)))
    (w : W E) : list (DataFrame (Num E)) * W E :=
  match qs with
  | [] => ([], w)
  | q :: qs' =>
      let '(f, w1) := check_compliance E (fst (fst q)) (snd (fst q)) (snd q) w in
      let '(fs, w2) := answers qs' w1 in
      (f :: fs, w2)
  end.

(** The step-change frame of lines 167-168. *)
Definition step_change_frame (cont_step reactor_step : DataFrame (Num E))
  : DataFrame (Num E) :=
  loc_set_row (Contingency_bc c) (CBool true)
    (pd_concat E [cont_step; reactor_step] 0 None).

(** The summary of line 177 from the convergence frame and the six
    frames of the calls. *)
Definition summary_of (convergence : DataFrame (Num E))
    (frames : list (DataFrame (Num E))) : DataFrame (Num E) :=
  match frames with
  | cont_step :: reactor_step :: others =>
      pd_concat E (convergence :: step_change_frame cont_step reactor_step
                               :: others) 1 (Some true)
  | _ => convergence
  end.

(** The critical message and the error of a failed base case (lines
    78-90): islanded busbars come first. *)
Definition base_case_failure (psse_sav_case : string) (islanded : list (Bus E))
  : string * string :=
  match islanded with
  | [] => ("The base PSSE SAV case " ++ psse_sav_case ++ " is non-convergent",
           "Check PSSE SAV Case - Non-Convergent")
  | _ :: _ =>
      (("The loaded PSSE case " ++ psse_sav_case
        ++ " has the following busbars islanded in the base case:") ++ nl
       ++ String.concat nl
            (map (fun bus => tab ++ " - Busbar: " ++ str_of_bus E bus) islanded),
       "Check PSSE SAV Case - Islanded busbars")
  end.

(** The variables with which the test loop ends when it starts in [w]. *)
Definition loop_result (items : OrderedDict.t (Contingency (Elems E))) (w : W E)
  : loop_vars E :=
  {| circuit_switching := circuit_names items;
     shunt_switching := shunt_names items;
     contingency_convergence :=
       fold_left record_outcome (outcomes items w)
                 (initial_convergence (OrderedDict.keys items)) |}.

(** Modelled from the spec: [PsseControl.load_data_case] and the other
    calls into [optimisation.psse] and [optimisation.file_handling] are not
    among the sources; this is what "applying/reverting that change
    against the loaded case" and the comment on line 148 of Main.py
    ("rather than restoring it is quicker to just reload the SAV case")
    take them to do to the switching state of the network.
    [switched w] is the in-service state of the network elements in the
    engine and [on_file w] the one stored in the SAV file whose path the
    [PsseControl] object holds. Loading puts the engine at the state on
    file; solving, reading data and importing the workbook switch
    nothing; nothing but a load with a path changes what is on file. *)
Record engine_contract (Net : Type) (switched on_file : W E -> Net) : Prop := {
  load_restores :
    forall p w, switched (load_data_case E p w) = on_file (load_data_case E p w);
  reload_same_file :
    forall w, on_file (load_data_case E None w) = on_file w;
  setup_same_file :
    forall k w, on_file (setup_contingency E k w) = on_file w;
  test_same_file :
    forall k w, on_file (snd (test_contingency E k w)) = on_file w;
  define_switches_nothing :
    forall w, switched (define_bus_subsystem E w) = switched w
              /\ on_file (define_bus_subsystem E w) = on_file w;
  solve_switches_nothing :
    forall w, switched (snd (run_load_flow E w)) = switched w
              /\ on_file (snd (run_load_flow E w)) = on_file w;
  construct_switches_nothing :
    forall d k w, switched (construct E d k w) = switched w
                  /\ on_file (construct E d k w) = on_file w;
  import_switches_nothing :
    forall p w, switched (snd (ImportContingencies E p w)) = switched w
                /\ on_file (snd (ImportContingencies E p w)) = on_file w
}.

End WithEnv.

Arguments load_restores {E Net switched on_file} _ p w.
Arguments reload_same_file {E Net switched on_file} _ w.
Arguments setup_same_file {E Net switched on_file} _ k w.
Arguments test_same_file {E Net switched on_file} _ k w.
Arguments define_switches_nothing {E Net switched on_file} _ w.
Arguments solve_switches_nothing {E Net switched on_file} _ w.
Arguments construct_switches_nothing {E Net switched on_file} _ d k w.
Arguments import_switches_nothing {E Net switched on_file} _ p w.

(** The names of a list in the order of their first occurrence. *)
Definition first_occurrences (names : list string) : list string :=
  fold_left (fun seen n => if mem_string n seen then seen else (seen ++ [n])%list)
            names [].

End Runs.

(* ===================================================================== *)
(** ** A small engine, to run the embedded functions *)
(* ===================================================================== *)

Module Toy.
Import Pandas Collaborators.

(** A small concrete file system: the directories and files that exist and
    the paths under which nothing can be created. *)
Record ToyFS : Type := {
  toy_dirs : list string;
  toy_files : list string;
  toy_denied : list string
}.

Definition ToyFS_ops : FileSystem ToyFS := {|
  isdir fs p := mem_string p (toy_dirs fs);
  isfile fs p := mem_string p (toy_files fs);
  makedirs p fs :=
    if mem_string p (toy_denied fs) || mem_string p (toy_dirs fs)
    then (false, fs)
    else (true, {| toy_dirs := p :: toy_dirs fs; toy_files := toy_files fs;
                   toy_denied := toy_denied fs |});
  path_join a b := a ++ "/" ++ b
|}.

(** The engine: the path of the loaded case, the elements switched out and
    the SAV cases that are broken on disk (a base case that does not
    converge, a base case with islanded busbars). A case converges while
    fewer than two elements are out. *)
Record ToyWorld : Type := {
  sav : option string;
  out_of_service : list string;
  diverging : list string;
  with_islands : list string
}.

Definition toy_load (p : option string) (w : ToyWorld) : ToyWorld :=
  {| sav := match p with Some s => Some s | None => sav w end;
     out_of_service := [];
     diverging := diverging w;
     with_islands := with_islands w |}.

Definition toy_run_load_flow (w : ToyWorld) : (bool * list nat) * ToyWorld :=
  let p := match sav w with Some s => s | None => "" end in
  ((negb (mem_string p (diverging w))
    && (List.length (out_of_service w) <? 2)%nat,
    if mem_string p (with_islands w) then [101; 102] else []), w).

(** The workbook: three contingencies, the second one a double outage and
    the third one a reactor switching. *)
Definition toy_workbook : list (string * (list string * list string)) :=
  [("C1", (["line A"], []));
   ("C2", (["line A"; "line B"], []));
   ("R1", ([], ["reactor 1"]))].

Fixpoint toy_group (name : string) (wb : list (string * (list string * list string)))
  : list string * list string :=
  match wb with
  | [] => ([], [])
  | (n, g) :: wb' => if String.eqb n name then g else toy_group name wb'
  end.

Definition toy_test (k : Contingency (list string)) (w : ToyWorld)
  : (string * bool) * ToyWorld :=
  let w' := {| sav := sav w;
               out_of_service := (out_of_service w ++ circuits k
                                  ++ switched_shunts k)%list;
               diverging := diverging w;
               with_islands := with_islands w |} in
  let ok := (List.length (out_of_service w') <? 2)%nat in
  ((if ok then "Convergent" else "Non-convergent", ok), w').

Definition toy_constants : Constants nat := {|
  Logging_constants :=
    {| LoggerModel.logger_name := "PSSE"; LoggerModel.debug := "DEBUG";
       LoggerModel.progress := "INFO"; LoggerModel.error := "ERROR";
       LoggerModel.extension := ".log" |};
  Contingency_bc := "BC";
  Contingency_convergent := "Convergent";
  EirGridThresholds_cont_step_change_limit := 10;
  EirGridThresholds_reactor_step_change_limit := 3;
  Excel_message := "Message";
  Excel_convergence := "Convergent";
  Excel_voltage_steady := "V Steady";
  Excel_voltage_step := "V Step";
  Excel_busbars := "Busbars";
  Excel_circuit_status := "Circuit Status";
  Excel_circuit_loading := "Circuit Loading";
  Excel_tx2_status := "TX2 Status";
  Excel_tx2_loading := "TX2 Loading";
  Excel_tx3 := "TX3";
  Excel_tx3_wind_status := "TX3 Winding Status";
  Excel_tx3_wind_loading := "TX3 Winding Loading";
  Excel_fixed_shunts := "Fixed Shunts";
  Excel_switched_shunts := "Switched Shunts";
  Excel_machine_data := "Machines"
|}.

Definition toy_env : Env := {|
  W := ToyWorld;
  Bus := nat;
  Limit := nat;
  Elems := list string;
  ContingencyData := list (string * (list string * list string));
  Num := Z;
  FS := ToyFS;
  os := ToyFS_ops;
  constants := toy_constants;
  PsseControl w := w;
  load_data_case := toy_load;
  define_bus_subsystem w := w;
  run_load_flow := toy_run_load_flow;
  str_of_bus := str_of_nat;
  construct _ _ w := w;
  check_compliance _ names _ w :=
    ({| columns := ["Compliant"];
        rows := map (fun n => (n, [CBool true])) names |}, w);
  getattr _ _ _ := {| columns := []; rows := [] |};
  ImportContingencies _ w := (toy_workbook, w);
  contingency_names wb := map fst wb;
  group_contingencies_by_name wb name :=
    let '(lines, shunts) := toy_group name wb in
    (lines, [], [], [], [], shunts);
  ExportResults _ _ _ w := w;
  voltage_control_contingency k :=
    match circuits k, switched_shunts k with
    | [], _ :: _ => true
    | _, _ => false
    end;
  setup_contingency _ w := w;
  test_contingency := toy_test;
  pd_concat frames _ _ :=
    {| columns := flat_map (@columns Z) frames; rows := flat_map (@rows Z) frames |};
  elapsed_text _ := "0.00"
|}.

Definition toy_fs : ToyFS :=
  {| toy_dirs := []; toy_files := []; toy_denied := [] |}.

(** A state of the script before anything has run: nothing loaded, and the
    given SAV cases broken on disk. *)
Definition toy_state (fs : ToyFS) (bad islands : list string) : MainPy.St toy_env :=
  MainPy.Build_St toy_env
    {| sav := None; out_of_service := []; diverging := bad;
       with_islands := islands |} fs [].

(** The plotting script over the same file system: every workbook that
    exists can be drawn, and saving adds the file. *)
Definition toy_plot_env : DataVisualisation.PlotEnv := {|
  DataVisualisation.FS := ToyFS;
  DataVisualisation.Figure := string;
  DataVisualisation.os := ToyFS_ops;
  DataVisualisation.windows := true;
  DataVisualisation.plot source_file _ := Ok ("violins of " ++ source_file);
  DataVisualisation.savefig fig_name _ fs :=
    {| toy_dirs := toy_dirs fs; toy_files := fig_name :: toy_files fs;
       toy_denied := toy_denied fs |}
|}.

End Toy.

(* ===================================================================== *)
(** ** optimisation/__init__.py : decorate_emit and what the handlers write *)
(* ===================================================================== *)

Module Emission.
Import LoggerModel.

(** A [logging.LogRecord], as far as the formatter and [decorate_emit] read
    and write it. *)
Record LogRecord : Type := {
  asctime : string;
  levelno : nat;
  levelname : string;
  msg : string
}.

Definition no_record : LogRecord :=
  {| asctime := ""; levelno := 0; levelname := ""; msg := "" |}.

(** [logging.getLevelName]. *)
Definition getLevelName (level : nat) : string :=
  if (level =? CRITICAL)%nat then "CRITICAL"
  else if (level =? ERROR)%nat then "ERROR"
  else if (level =? WARNING)%nat then "WARNING"
  else if (level =? INFO)%nat then "INFO"
  else if (level =? DEBUG)%nat then "DEBUG"
  else if (level =? 0)%nat then "NOTSET"
  else "Level " ++ str_of_nat level.

(** The escape character of ['\x1b']. *)
Definition esc : string := String (ascii_of_nat 27) EmptyString.

(** Lines 42-59: the colour for a level number. *)
Definition color (level_number : nat) : string :=
  if (CRITICAL <=? level_number)%nat then esc ++ "[31;1m"
  else if (ERROR <=? level_number)%nat then esc ++ "[31;1m"
  else if (WARNING <=? level_number)%nat then esc ++ "[33;1m"
  else if (INFO <=? level_number)%nat then esc ++ "[32;1m"
  else if (DEBUG <=? level_number)%nat then esc ++ "[35;1m"
  else esc ++ "[0m".

(** Lines 61-63: what [new] does to [args[0]] before it calls [fn]. The
    record is changed in place: every later reader of the same record sees
    the new [msg] and [levelname]. *)
Definition decorate (r : LogRecord) : LogRecord :=
  {| asctime := asctime r;
     levelno := levelno r;
     levelname := color (levelno r) ++ levelname r ++ esc ++ "[0m ";
     msg := color (levelno r) ++ msg r ++ esc ++ "[0m " |}.

(** The formatter of [setup_logging]:
    ['%(asctime)s - %(levelname)s - %(message)s']. *)
Definition format (r : LogRecord) : string :=
  asctime r ++ " - " ++ levelname r ++ " - " ++ msg r.

(** The records alive (a record is named by its place in [heap]), the
    buffer of each handler of the logger, in the order of
    [logger.handlers], and the lines written so far, each with the handler
    that wrote it. *)
Record Sinks : Type := {
  heap : list LogRecord;
  buffers : list (list nat);
  written : list (Handler * string)
}.

Definition handler_level (h : Handler) : nat :=
  match h with
  | FileHandler _ l => l
  | MemoryHandler _ _ _ l => l
  | StreamHandler l => l
  end.

Fixpoint set_record (id : nat) (r : LogRecord) (hp : list LogRecord)
  : list LogRecord :=
  match hp, id with
  | [], _ => []
  | _ :: hp', 0 => r :: hp'
  | x :: hp', S id' => x :: set_record id' r hp'
  end.

(** [h.emit(record)] for a handler that writes: a [FileHandler] formats
    the record as it is now; the [StreamHandler] of [setup_logging] has its
    [emit] replaced by [decorate_emit(emit)], which first recolours the
    record. (A [MemoryHandler] as a target is never built by the class.) *)
Definition emit_direct (h : Handler) (id : nat)
    (hw : list LogRecord * list (Handler * string))
  : list LogRecord * list (Handler * string) :=
  let '(hp, w) := hw in
  match h with
  | FileHandler _ _ => (hp, (w ++ [(h, format (nth id hp no_record))])%list)
  | StreamHandler _ =>
      let hp' := set_record id (decorate (nth id hp no_record)) hp in
      (hp', (w ++ [(h, format (nth id hp' no_record))])%list)
  | MemoryHandler _ _ _ _ => (hp, w)
  end.

(** [MemoryHandler.flush]: every buffered record goes to the target, then
    the buffer is emptied. *)
Definition flush_buffer (target : Handler) (b : list nat)
    (hw : list LogRecord * list (Handler * string))
  : list LogRecord * list (Handler * string) :=
  fold_left (fun hw i => emit_direct target i hw) b hw.

(** [h.handle(record)]: a [MemoryHandler] appends the record to its buffer
    and flushes when the buffer has reached the capacity or the record has
    the flush level; the other handlers emit. *)
Definition handle (h : Handler) (b : list nat) (id : nat)
    (hw : list LogRecord * list (Handler * string))
  : list nat * (list LogRecord * list (Handler * string)) :=
  match h with
  | MemoryHandler capacity flushLevel target _ =>
      let b' := (b ++ [id])%list in
      if (capacity <=? N.of_nat (List.length b'))%N
         || (flushLevel <=? levelno (nth id (fst hw) no_record))%nat
      then ([], flush_buffer target b' hw)
      else (b', hw)
  | _ => (b, emit_direct h id hw)
  end.

(** [Logger.callHandlers(record)]: the handlers in order, each one if the
    record has its level. *)
Fixpoint call_handlers (hs : list Handler) (bufs : list (list nat)) (id : nat)
    (hw : list LogRecord * list (Handler * string))
  : list (list nat) * (list LogRecord * list (Handler * string)) :=
  match hs, bufs with
  | h :: hs', b :: bufs' =>
      let '(b', hw') :=
        if (handler_level h <=? levelno (nth id (fst hw) no_record))%nat
        then handle h b id hw
        else (b, hw) in
      let '(bufs'', hw'') := call_handlers hs' bufs' id hw' in
      (b' :: bufs'', hw'')
  | _, _ => (bufs, hw)
  end.

(** [h.flush()] on the handler [h] of the logger, found by what it is. *)
Fixpoint flush_handler (h : Handler) (hs : list Handler) (bufs : list (list nat))
    (hw : list LogRecord * list (Handler * string))
  : list (list nat) * (list LogRecord * list (Handler * string)) :=
  match hs, bufs with
  | h' :: hs', b :: bufs' =>
      if Handler_eqb h h' then
        match h' with
        | MemoryHandler _ _ target _ => ([] :: bufs', flush_buffer target b hw)
        | _ => (bufs, hw)
        end
      else
        let '(bufs'', hw') := flush_handler h hs' bufs' hw in
        (b :: bufs'', hw')
  | _, _ => (bufs, hw)
  end.

(** What is done with an instance between [setup_logging] and
    [close_logging]: one of the five message methods, with the time that
    the record gets and its level, or [flush]. *)
Inductive action : Type :=
| Submit (time : string) (lvl : nat) (message : string)
| Flush.

Definition record_of (time : string) (lvl : nat) (message : string) : LogRecord :=
  {| asctime := time; levelno := lvl; levelname := getLevelName lvl;
     msg := message |}.

(** One action on the handlers of [L]. The logger has level DEBUG, so a
    record below DEBUG is not created. *)
Definition act (L : Logger) (a : action) (s : Sinks) : Sinks :=
  match a with
  | Submit time lvl message =>
      if (DEBUG <=? lvl)%nat then
        let id := List.length (heap s) in
        let hp := (heap s ++ [record_of time lvl message])%list in
        let '(bufs, hw) :=
          call_handlers (logger_handlers L) (buffers s) id (hp, written s) in
        {| heap := fst hw; buffers := bufs; written := snd hw |}
      else s
  | Flush =>
      let flush_attr o bufs_hw :=
        match o with
        | Some h => flush_handler h (logger_handlers L) (fst bufs_hw) (snd bufs_hw)
        | None => bufs_hw
        end in
      let r := flush_attr (handler_progress_log L) (buffers s, (heap s, written s)) in
      let r := flush_attr (handler_error_log L) r in
      {| heap := fst (snd r); buffers := fst r; written := snd (snd r) |}
  end.

Definition run (L : Logger) (acts : list action) (s : Sinks) : Sinks :=
  fold_left (fun s a => act L a s) acts s.

(** Right after [setup_logging]: no record, empty buffers, nothing
    written. *)
Definition fresh (L : Logger) : Sinks :=
  {| heap := []; buffers := map (fun _ => []) (logger_handlers L); written := [] |}.

(** The lines that handler [h] has written. *)
Definition lines_in (h : Handler) (w : list (Handler * string)) : list string :=
  map snd (filter (fun x => Handler_eqb (fst x) h) w).

Definition lines_of (h : Handler) (s : Sinks) : list string :=
  lines_in h (written s).

(** The actions behind the message methods of the class. *)
Definition records_of (acts : list action) : list LogRecord :=
  flat_map (fun a => match a with
                     | Submit t l m => if (DEBUG <=? l)%nat then [record_of t l m] else []
                     | Flush => []
                     end) acts.

(** What the file of the progress handler is expected to hold: the records
    from INFO up are kept back until one of them has level ERROR or is the
    tenth kept; then those kept earlier are written as the console handler
    left them and the last one as it was made. [pending] are the records
    kept back so far. *)
Fixpoint progress_lines (acts : list action) (pending : list LogRecord)
  : list string :=
  match acts with
  | [] => []
  | Flush :: acts' =>
      (map (fun r => format (decorate r)) pending ++ progress_lines acts' [])%list
  | Submit t l m :: acts' =>
      if (INFO <=? l)%nat then
        if (10 <=? List.length pending + 1)%nat || (ERROR <=? l)%nat then
          (map (fun r => format (decorate r)) pending
           ++ format (record_of t l m) :: progress_lines acts' [])%list
        else progress_lines acts' (pending ++ [record_of t l m])
      else progress_lines acts' pending
  end.

End Emission.

(* ===================================================================== *)
(** ** Vocabulary for the further properties *)
(* ===================================================================== *)

Module Counting.
Import Collaborators MainPy.

(** How many records a method of [Logger] hands to the logger (read off
    the bodies: three INFO and one DEBUG in [initial_log_messages], one
    INFO and one DEBUG in the final report). *)
Definition records_added (k : LoggerModel.call) : nat :=
  match k with
  | LoggerModel.Call_initial_log_messages => 4
  | LoggerModel.Call_debug _ | LoggerModel.Call_info _
  | LoggerModel.Call_warning _ | LoggerModel.Call_error _
  | LoggerModel.Call_critical _ _ => 1
  | LoggerModel.Call_logging_final_report_and_closure
  | LoggerModel.Call___del__ | LoggerModel.Call___exit__ => 2
  | _ => 0
  end.

Section WithEnv.
Variable E : Env.

(** The kinds of calls that main makes, for counting them in a trace. *)
Definition is_load (ev : event E) : bool :=
  match ev with ELoadDataCase _ _ => true | _ => false end.

Definition is_solve (ev : event E) : bool :=
  match ev with ERunLoadFlow _ => true | _ => false end.

Definition is_construct (ev : event E) : bool :=
  match ev with EConstruct _ _ _ => true | _ => false end.

Definition is_import (ev : event E) : bool :=
  match ev with EImportContingencies _ _ => true | _ => false end.

Definition is_setup (ev : event E) : bool :=
  match ev with ESetupContingency _ _ => true | _ => false end.

Definition is_test (ev : event E) : bool :=
  match ev with ETestContingency _ _ _ _ => true | _ => false end.

Definition is_check (ev : event E) : bool :=
  match ev with ECheckCompliance _ _ _ _ => true | _ => false end.

Definition is_export (ev : event E) : bool :=
  match ev with EExportResults _ _ _ _ => true | _ => false end.

Definition is_engine_call (ev : event E) : bool :=
  match ev with Log _ _ _ => false | _ => true end.

Definition count (f : event E -> bool) (tr : list (event E)) : nat :=
  List.length (filter f tr).

End WithEnv.

End Counting.

Module ToyMore.
Import Toy.

(** A plotting environment in which the workbook named [bad] cannot be
    drawn: reading it raises. *)
Definition broken_plot_env (bad : string) : DataVisualisation.PlotEnv := {|
  DataVisualisation.FS := ToyFS;
  DataVisualisation.Figure := string;
  DataVisualisation.os := ToyFS_ops;
  DataVisualisation.windows := true;
  DataVisualisation.plot source_file _ :=
    if String.eqb source_file bad
    then Raise (ValueError "Worksheet named 'V Steady' not found")
    else Ok ("violins of " ++ source_file);
  DataVisualisation.savefig fig_name _ fs :=
    {| toy_dirs := toy_dirs fs; toy_files := fig_name :: toy_files fs;
       toy_denied := toy_denied fs |}
|}.

(** A workbook in which a contingency bears the name of the base case. *)
Definition workbook_with_bc : list (string * (list string * list string)) :=
  [("C1", (["line A"], []));
   ("BC", (["line A"; "line B"], []))].

(** An instance before [setup_logging], with its three paths. *)
Definition bare_logger (debug_mode : bool) : LoggerModel.Logger :=
  {| LoggerModel.log_constants := Collaborators.Logging_constants toy_constants;
     LoggerModel.handler_progress_log := None;
     LoggerModel.handler_debug_log := None;
     LoggerModel.handler_error_log := None;
     LoggerModel.handler_stream_log := None;
     LoggerModel.warning_count := 0;
     LoggerModel.error_count := 0;
     LoggerModel.critical_count := 0;
     LoggerModel.pth_logs := "/run/Logs";
     LoggerModel.pth_debug_log := Some "/run/Logs/DEBUG_1.log";
     LoggerModel.pth_progress_log := Some "/run/Logs/INFO_1.log";
     LoggerModel.pth_error_log := Some "/run/Logs/ERROR_1.log";
     LoggerModel.app := None;
     LoggerModel.debug_mode := debug_mode;
     LoggerModel.file_handlers := [];
     LoggerModel.logger_handlers := [];
     LoggerModel.records := [];
     LoggerModel.shutdown := false |}.

End ToyMore.

(* ===================================================================== *)
(** * Properties *)
(* ===================================================================== *)

(** ** check_directory *)

Section CheckDirectoryFacts.
Context {FS : Type} `{FileSystem FS}.
Variable script_pth : string.

Lemma check_directory_existing (p d : string) (fs : FS) :
  isdir fs p = true -> check_directory script_pth p d fs = (Ok p, fs).
Proof.
  intros Hdir. unfold check_directory. now rewrite Hdir.
Qed.

(** C8. [check_directory] returns a path only when that path is an
    existing directory in the file system it leaves behind; the path is
    the given one when it exists already (and then nothing changes) or
    [os.makedirs] creates it, and otherwise the default folder joined to
    the package directory; OSError is raised exactly when the given path
    cannot be created and the default folder neither exists nor can be
    created. *)
Theorem check_directory_gives_existing_directory :
  makedirs_creates FS ->
  forall (p d : string) (fs : FS),
    let fallback := path_join (FS := FS) script_pth d in
    let fs1 := snd (makedirs p fs) in
    let r := check_directory script_pth p d fs in
    (isdir fs p = true -> r = (Ok p, fs))
    /\ (forall q, fst r = Ok q -> isdir (snd r) q = true)
    /\ (isdir fs p = true \/ fst (makedirs p fs) = true -> fst r = Ok p)
    /\ (isdir fs p = false -> fst (makedirs p fs) = false ->
        isdir fs1 fallback = true \/ fst (makedirs fallback fs1) = true ->
        fst r = Ok fallback)
    /\ (forall e, fst r = Raise e ->
          exists msg, e = OSError msg)
    /\ (is_raise (fst r) = true <->
          isdir fs p = false /\ fst (makedirs p fs) = false
          /\ isdir fs1 fallback = false
          /\ fst (makedirs fallback fs1) = false).
Proof.
  intros Hmk p d fs fallback fs1 r.
  subst r fs1 fallback. unfold check_directory.
  destruct (isdir fs p) eqn:Hp; simpl;
    [| destruct (makedirs p fs) as [[|] fs1] eqn:Hm1; simpl;
       [| destruct (isdir fs1 (path_join script_pth d)) eqn:Hq1; simpl;
          [| destruct (makedirs (path_join script_pth d) fs1)
               as [[|] fs2] eqn:Hm2; simpl ] ] ];
    repeat match goal with |- _ /\ _ => split end;
    try (split; intros);
    intros;
    repeat match goal with
           | Hx : _ /\ _ |- _ => destruct Hx
           | Hx : _ \/ _ |- _ => destruct Hx
           | Hx : Ok _ = Ok _ |- _ => inversion Hx; subst; clear Hx
           | Hx : Raise _ = Raise _ |- _ => inversion Hx; subst; clear Hx
           end;
    try discriminate; try reflexivity; try assumption; eauto.
Qed.

End CheckDirectoryFacts.

Lemma toy_makedirs_creates : @makedirs_creates Toy.ToyFS Toy.ToyFS_ops.
Proof.
  intros fs fs' p. simpl.
  destruct (mem_string p (Toy.toy_denied fs) || mem_string p (Toy.toy_dirs fs));
    intros Heq; inversion Heq; subst; simpl.
  unfold mem_string. simpl. now rewrite String.eqb_refl.
Qed.

(** The fallback at work: the given directory is refused, the default
    folder under the package directory is created and returned. *)
Lemma check_directory_gives_existing_directory_witness :
  @makedirs_creates Toy.ToyFS Toy.ToyFS_ops
  /\ let fs := {| Toy.toy_dirs := ["/pkg"]; Toy.toy_files := [];
                  Toy.toy_denied := ["/srv/logs"] |} in
     let r := check_directory (H := Toy.ToyFS_ops) "/pkg" "/srv/logs" "Logs" fs in
     fst r = Ok "/pkg/Logs" /\ isdir (FileSystem := Toy.ToyFS_ops) (snd r) "/pkg/Logs" = true.
Proof.
  split; [exact toy_makedirs_creates |].
  intros fs r.
  destruct (check_directory_gives_existing_directory (H := Toy.ToyFS_ops) "/pkg"
              toy_makedirs_creates "/srv/logs" "Logs" fs)
    as (_ & Hdir & _ & Hfb & _).
  split.
  - apply Hfb; [reflexivity | reflexivity | right; reflexivity].
  - apply Hdir. reflexivity.
Defined.

(** ** Logger *)

Module LoggerFacts.
Import LoggerModel.

Section WithOs.
Context {FS : Type} `{FileSystem FS}.
Variable script_pth : string.
Variable parent_pth : string.

Lemma emit_counts lvl msg L : counts (emit lvl msg L) = counts L.
Proof. reflexivity. Qed.

Lemma get_file_handlers_counts pth lvl b fl cap L :
  counts (snd (get_file_handlers pth lvl b fl cap L)) = counts L.
Proof. unfold get_file_handlers. now destruct b. Qed.

Lemma setup_logging_counts L : counts (setup_logging L) = counts L.
Proof. reflexivity. Qed.

Lemma initial_log_messages_counts L : counts (initial_log_messages L) = counts L.
Proof. reflexivity. Qed.

Lemma check_file_paths_counts now L :
  counts (check_file_paths (FS := FS) parent_pth now L) = counts L.
Proof.
  unfold check_file_paths.
  repeat match goal with
         | |- context [match ?x with Some _ => _ | None => _ end] =>
             destruct x; cbn
         end; reflexivity.
Qed.

Lemma close_logging_counts L : counts (close_logging L) = counts L.
Proof. unfold close_logging, flush. now destruct (handler_debug_log L). Qed.

Lemma final_report_counts L :
  counts (logging_final_report_and_closure L) = counts L.
Proof.
  unfold logging_final_report_and_closure.
  now destruct (1 <? sum [warning_count L; error_count L; critical_count L])%nat.
Qed.

Lemma critical_counts caller msg L :
  counts (critical caller msg L)
  = (warning_count L, error_count L, critical_count L + 1).
Proof. reflexivity. Qed.

(** Every method but [critical] leaves the three counters alone, and
    [critical] adds one to the third. *)
Lemma run_call_counts (k : call) (L : Logger) :
  counts (run_call (FS := FS) parent_pth k L)
  = (warning_count L, error_count L,
     critical_count L + (if is_critical k then 1 else 0)).
Proof.
  assert (Hsame : forall L', counts L' = counts L ->
            counts L' = (warning_count L, error_count L, critical_count L + 0)).
  { intros L' ->. unfold counts. now rewrite Nat.add_0_r. }
  destruct k; simpl run_call; simpl is_critical;
    try (apply Hsame);
    auto using check_file_paths_counts, setup_logging_counts,
      initial_log_messages_counts, close_logging_counts,
      get_file_handlers_counts, emit_counts, final_report_counts,
      critical_counts.
Qed.

Lemma run_calls_counts (ks : list call) : forall L : Logger,
  counts (run_calls (FS := FS) parent_pth ks L)
  = (warning_count L, error_count L,
     critical_count L + List.length (filter is_critical ks)).
Proof.
  induction ks as [| k ks IH]; intros L; simpl.
  - unfold counts. now rewrite Nat.add_0_r.
  - unfold run_calls in *. simpl. rewrite IH.
    pose proof (run_call_counts k L) as Hk. unfold counts in Hk.
    inversion Hk as [[Hw He Hc]]. rewrite Hw, He, Hc.
    destruct (is_critical k); simpl; f_equal; lia.
Qed.

Lemma init_counts consts pth uid a dbg now (fs fs' : FS) L :
  __init__ script_pth parent_pth consts pth uid a dbg now fs = (Ok L, fs') ->
  counts L = (0, 0, 0).
Proof.
  unfold __init__.
  destruct (check_directory script_pth pth "Logs" fs) as [[checked | e] fs1];
    intros Heq; inversion Heq; subst; clear Heq.
  rewrite initial_log_messages_counts, setup_logging_counts,
    check_file_paths_counts.
  reflexivity.
Qed.

(** C9. From its construction on and whatever methods are called on it,
    a Logger has [warning_count] and [error_count] at 0 and
    [critical_count] at the number of calls of [critical] made so far;
    one call of [critical] adds exactly one and a call of any other
    method changes none of the three counters. *)
Theorem logger_counters_lifetime consts pth uid a dbg now (fs fs' : FS)
    (L : Logger) (ks : list call) :
  __init__ script_pth parent_pth consts pth uid a dbg now fs = (Ok L, fs') ->
  let L' := run_calls (FS := FS) parent_pth ks L in
  warning_count L' = 0
  /\ error_count L' = 0
  /\ critical_count L' = List.length (filter is_critical ks)
  /\ (forall caller msg,
        critical_count (critical caller msg L') = critical_count L' + 1
        /\ warning_count (critical caller msg L') = 0
        /\ error_count (critical caller msg L') = 0)
  /\ (forall k, is_critical k = false ->
        counts (run_call (FS := FS) parent_pth k L') = counts L').
Proof.
  intros Hinit L'.
  pose proof (init_counts _ _ _ _ _ _ _ _ _ Hinit) as H0.
  pose proof (run_calls_counts ks L) as Hks.
  unfold counts in H0, Hks.
  injection H0 as Hw He Hc. rewrite Hw, He, Hc in Hks.
  injection Hks as Hw' He' Hc'. simpl in Hc'. subst L'.
  split; [exact Hw' |]. split; [exact He' |]. split; [exact Hc' |].
  split.
  - intros caller msg. cbn. now rewrite Hw', He'.
  - intros k Hk. rewrite run_call_counts, Hk. unfold counts.
    now rewrite Nat.add_0_r.
Qed.

End WithOs.

(** The message of the final report, by the sum of the three counters. *)
Lemma final_report_message_eq (L : Logger) :
  final_report_message L
  = Some (if (1 <? warning_count L + error_count L + critical_count L)%nat
          then counts_message (warning_count L) (error_count L) (critical_count L)
          else "Log file closing, there were 0 important messages").
Proof.
  unfold final_report_message, logging_final_report_and_closure, sum.
  cbn [fold_left]. rewrite Nat.add_0_l.
  destruct (1 <? warning_count L + error_count L + critical_count L)%nat;
    cbn [records set_shutdown debug_ info emit set_records];
    rewrite !rev_app_distr; reflexivity.
Qed.

Lemma counts_message_not_zero_message (w e k : nat) :
  counts_message w e k <> "Log file closing, there were 0 important messages".
Proof.
  unfold counts_message. cbn [append]. intros Heq.
  repeat match type of Heq with
         | String _ _ = String _ _ => injection Heq as _ Heq
         end; discriminate.
Qed.

(** C10. The final report gives the three counts exactly when their sum
    is greater than 1; when the sum is exactly 1 the message says that
    there were 0 important messages. *)
Theorem final_report_needs_more_than_one (L : Logger) :
  (final_report_message L
   = Some (counts_message (warning_count L) (error_count L) (critical_count L))
   <-> 1 < warning_count L + error_count L + critical_count L)
  /\ (warning_count L + error_count L + critical_count L = 1 ->
      final_report_message L
      = Some "Log file closing, there were 0 important messages").
Proof.
  rewrite final_report_message_eq.
  destruct (1 <? warning_count L + error_count L + critical_count L)%nat eqn:Hlt.
  - apply Nat.ltb_lt in Hlt. split.
    + split; intros; [assumption | reflexivity].
    + intros Hone. lia.
  - apply Nat.ltb_ge in Hlt. split.
    + split; intros Heq; [| lia].
      pose proof (counts_message_not_zero_message (warning_count L)
                    (error_count L) (critical_count L)) as Hne.
      congruence.
    + intros _. reflexivity.
Qed.

End LoggerFacts.

(** One critical message and nothing else: the report says 0. *)
Lemma final_report_needs_more_than_one_witness :
  let L0 := {| LoggerModel.log_constants := Collaborators.Logging_constants Toy.toy_constants;
               LoggerModel.handler_progress_log := None;
               LoggerModel.handler_debug_log := None;
               LoggerModel.handler_error_log := None;
               LoggerModel.handler_stream_log := None;
               LoggerModel.warning_count := 0;
               LoggerModel.error_count := 0;
               LoggerModel.critical_count := 0;
               LoggerModel.pth_logs := "Logs";
               LoggerModel.pth_debug_log := None;
               LoggerModel.pth_progress_log := None;
               LoggerModel.pth_error_log := None;
               LoggerModel.app := None;
               LoggerModel.debug_mode := false;
               LoggerModel.file_handlers := [];
               LoggerModel.logger_handlers := [];
               LoggerModel.records := [];
               LoggerModel.shutdown := false |} in
  let L := LoggerModel.critical "main" "The base PSSE SAV case is non-convergent" L0 in
  LoggerModel.warning_count L + LoggerModel.error_count L
  + LoggerModel.critical_count L = 1
  /\ LoggerModel.final_report_message L
     = Some "Log file closing, there were 0 important messages".
Proof.
  intros L0 L. split; [reflexivity |].
  apply (proj2 (LoggerFacts.final_report_needs_more_than_one L)).
  reflexivity.
Defined.

(** A logger built over the small file system, then used. *)
Lemma logger_counters_lifetime_witness :
  exists L fs',
    LoggerModel.__init__ (H := Toy.ToyFS_ops) "/pkg" "/"
      (Collaborators.Logging_constants Toy.toy_constants) "/run/Logs"
      "Contingencies_1" None false "20200101_000000" Toy.toy_fs = (Ok L, fs')
    /\ let L' := LoggerModel.run_calls (H := Toy.ToyFS_ops) "/"
                   [LoggerModel.Call_warning "w"; LoggerModel.Call_critical "main" "c";
                    LoggerModel.Call_error "e"; LoggerModel.Call_critical "main" "d";
                    LoggerModel.Call_flush] L in
       LoggerModel.warning_count L' = 0 /\ LoggerModel.error_count L' = 0
       /\ LoggerModel.critical_count L' = 2.
Proof.
  eexists. eexists. split; [reflexivity |].
  intros L'.
  destruct (LoggerFacts.logger_counters_lifetime (H := Toy.ToyFS_ops) "/pkg" "/"
              (Collaborators.Logging_constants Toy.toy_constants) "/run/Logs"
              "Contingencies_1" None false "20200101_000000" Toy.toy_fs _ _
              [LoggerModel.Call_warning "w"; LoggerModel.Call_critical "main" "c";
               LoggerModel.Call_error "e"; LoggerModel.Call_critical "main" "d";
               LoggerModel.Call_flush] eq_refl)
    as (Hw & He & Hc & _).
  split; [exact Hw |]. split; [exact He |]. exact Hc.
Defined.

(** ** main: how the statements run *)

Module MainFacts.
Import Pandas Collaborators MainPy Runs.

Section WithEnv.
Variable E : Env.

#[local] Abbreviation c := (constants E).

Lemma bind_ok {A B} (m : M E A) (k : A -> M E B) st a st' :
  m st = (Ok a, st') -> bind m k st = k a st'.
Proof. intros Hm. unfold bind. now rewrite Hm. Qed.

Lemma bind_raise {A B} (m : M E A) (k : A -> M E B) st e st' :
  m st = (Raise e, st') -> bind m k st = (Raise e, st').
Proof. intros Hm. unfold bind. now rewrite Hm. Qed.

Lemma step_step w1 e1 w2 e2 (st : St E) :
  step E w2 e2 (step E w1 e1 st) = step E w2 (e1 ++ e2) st.
Proof. unfold step. simpl. now rewrite app_assoc. Qed.

Lemma step_nil (st : St E) : step E (world st) [] st = st.
Proof. destruct st. unfold step. simpl. now rewrite app_nil_r. Qed.

Lemma log_run lvl msg (st : St E) :
  log E lvl msg st = (Ok tt, step E (world st) [Log E lvl msg] st).
Proof. reflexivity. Qed.

Lemma call__run ev op (st : St E) :
  call_ ev op st = (Ok tt, step E (op (world st)) [ev] st).
Proof. reflexivity. Qed.

Lemma call_run {A} (ev : A -> event E) op (st : St E) :
  call ev op st
  = (Ok (fst (op (world st))), step E (snd (op (world st))) [ev (fst (op (world st)))] st).
Proof. unfold call. now destruct (op (world st)). Qed.

(** *** The import of the workbook *)

Lemma setitem_keys {V} (k : string) (v : V) (d : OrderedDict.t V) :
  OrderedDict.keys (OrderedDict.setitem k v d)
  = if mem_string k (OrderedDict.keys d) then OrderedDict.keys d
    else (OrderedDict.keys d ++ [k])%list.
Proof.
  induction d as [| [k' v'] d IH]; simpl; [reflexivity |].
  rewrite (String.eqb_sym k k').
  destruct (String.eqb k' k) eqn:Hk; simpl; [reflexivity |].
  rewrite IH. unfold mem_string.
  now destruct (existsb (String.eqb k) (OrderedDict.keys d)).
Qed.

Lemma details_keys_from data (names : list string) :
  forall d : OrderedDict.t (Contingency (Elems E)),
    OrderedDict.keys
      (fold_left (fun d n => OrderedDict.setitem n (contingency_of E data n) d)
                 names d)
    = fold_left (fun seen n => if mem_string n seen then seen
                               else (seen ++ [n])%list)
                names (OrderedDict.keys d).
Proof.
  induction names as [| n names IH]; intros d; simpl; [reflexivity |].
  now rewrite IH, setitem_keys.
Qed.

Lemma details_keys data names :
  OrderedDict.keys (details_of E data names) = first_occurrences names.
Proof. apply details_keys_from. Qed.

Lemma mem_string_In s l : mem_string s l = true <-> In s l.
Proof.
  unfold mem_string. rewrite existsb_exists. split.
  - intros (x & Hin & Heq). apply String.eqb_eq in Heq. now subst.
  - intros Hin. exists s. split; [assumption | apply String.eqb_refl].
Qed.

Lemma mem_string_false s l : mem_string s l = false <-> ~ In s l.
Proof.
  rewrite <- mem_string_In. now destruct (mem_string s l).
Qed.

Lemma first_occurrences_from (names : list string) :
  forall seen, NoDup seen ->
    let r := fold_left (fun seen n => if mem_string n seen then seen
                                      else (seen ++ [n])%list) names seen in
    NoDup r /\ (forall n, In n r <-> In n seen \/ In n names)
    /\ exists added, r = (seen ++ added)%list.
Proof.
  induction names as [| n names IH]; intros seen Hnd; simpl.
  - split; [assumption |]. split; [tauto |]. exists []. now rewrite app_nil_r.
  - destruct (mem_string n seen) eqn:Hmem.
    + destruct (IH seen Hnd) as (H1 & H2 & H3).
      split; [assumption |]. split; [| assumption].
      intros m. rewrite H2. apply mem_string_In in Hmem.
      split; [tauto |]. intros [Hm | [Hm | Hm]]; subst; tauto.
    + apply mem_string_false in Hmem.
      assert (Hnd' : NoDup (seen ++ [n])).
      { apply NoDup_app; [assumption | repeat constructor; simpl; tauto |].
        intros x Hx [Hx' | []]. subst. tauto. }
      destruct (IH _ Hnd') as (H1 & H2 & (added & H3)).
      split; [assumption |]. split.
      * intros m. rewrite H2, in_app_iff. simpl. tauto.
      * exists (n :: added). rewrite H3, <- app_assoc. reflexivity.
Qed.

Lemma first_occurrences_NoDup names : NoDup (first_occurrences names).
Proof. apply (first_occurrences_from names []). constructor. Qed.

Lemma first_occurrences_In names n :
  In n (first_occurrences names) <-> In n names.
Proof.
  destruct (first_occurrences_from names [] (NoDup_nil _)) as (_ & H2 & _).
  unfold first_occurrences. rewrite H2. simpl. tauto.
Qed.

Lemma first_occurrences_id_from (names : list string) :
  forall seen, NoDup (seen ++ names) ->
    fold_left (fun seen n => if mem_string n seen then seen
                             else (seen ++ [n])%list) names seen
    = (seen ++ names)%list.
Proof.
  induction names as [| n names IH]; intros seen Hnd; simpl.
  - now rewrite app_nil_r.
  - assert (Hn : mem_string n seen = false).
    { apply mem_string_false. intros Hin.
      apply NoDup_remove_2 in Hnd. apply Hnd. apply in_app_iff. tauto. }
    rewrite Hn, IH; rewrite <- app_assoc; [reflexivity | assumption].
Qed.

Lemma first_occurrences_id names :
  NoDup names -> first_occurrences names = names.
Proof. intros Hnd. now apply (first_occurrences_id_from names []). Qed.

(** *** The phases of main *)

Lemma import_names_run data (names : list string) :
  forall (d : OrderedDict.t (Contingency (Elems E))) (st : St E),
    for_each names
      (fun cont_name contingency_circuits_details =>
         log E DEBUG ("Processing contingency: " ++ cont_name) ;;
         let '(circuits, tx2, tx3, busbars, fixed_shunts, switched_shunts) :=
           group_contingencies_by_name E data cont_name in
         let contingency :=
           {| circuits := circuits; tx2 := tx2; tx3 := tx3;
              busbars := busbars; fixed_shunts := fixed_shunts;
              switched_shunts := switched_shunts; name := cont_name |} in
         ret (OrderedDict.setitem cont_name contingency
                contingency_circuits_details))
      d st
    = (Ok (fold_left (fun d n => OrderedDict.setitem n (contingency_of E data n) d)
                     names d),
       step E (world st)
         (map (fun n => Log E DEBUG ("Processing contingency: " ++ n)) names) st).
Proof.
  induction names as [| n names IH]; intros d st; simpl.
  - unfold ret. now rewrite step_nil.
  - unfold bind at 1. unfold bind at 1. rewrite log_run.
    unfold contingency_of.
    destruct (group_contingencies_by_name E data n)
      as [[[[[g1 g2] g3] g4] g5] g6].
    unfold ret at 1. rewrite IH. now rewrite step_step.
Qed.

Lemma import_run cont_workbook (st : St E) :
  let data := fst (ImportContingencies E cont_workbook (world st)) in
  import_contingencies E cont_workbook st
  = (Ok (details_of E data (contingency_names E data)),
     step E (snd (ImportContingencies E cont_workbook (world st)))
       (import_events E cont_workbook (contingency_names E data)) st).
Proof.
  intros data. unfold import_contingencies.
  unfold bind at 1. rewrite log_run.
  unfold bind at 1. rewrite call_run. fold data.
  unfold bind at 1. rewrite import_names_run.
  unfold bind at 1. rewrite log_run. unfold ret.
  rewrite !step_step. unfold details_of, import_events. simpl.
  reflexivity.
Qed.

Lemma construct_run (st : St E) :
  construct_data_sets E st
  = (Ok tt, step E (constructed E (world st)) (construct_events E) st).
Proof.
  unfold construct_data_sets.
  repeat (unfold bind at 1; rewrite call__run).
  rewrite call__run, !step_step. reflexivity.
Qed.

Lemma check_base_case_ok psse_sav_case (st : St E) w' :
  run_load_flow E (world st) = ((true, []), w') ->
  check_base_case E psse_sav_case st
  = (Ok tt, step E w' [ERunLoadFlow E;
                       Log E INFO "Initial load flow study convergent"] st).
Proof.
  intros Hrun. unfold check_base_case.
  unfold bind at 1. rewrite call_run, Hrun. simpl.
  rewrite log_run, step_step. reflexivity.
Qed.

Lemma check_base_case_fails psse_sav_case (st : St E) success islanded w' :
  run_load_flow E (world st) = ((success, islanded), w') ->
  success = false \/ islanded <> [] ->
  check_base_case E psse_sav_case st
  = (Raise (ValueError (snd (base_case_failure E psse_sav_case islanded))),
     step E w' [ERunLoadFlow E;
                Log E CRITICAL (fst (base_case_failure E psse_sav_case islanded))]
          st).
Proof.
  intros Hrun Hbad. unfold check_base_case.
  unfold bind at 1. rewrite call_run, Hrun. simpl.
  destruct islanded as [| b bs]; simpl.
  - destruct Hbad as [-> | Hne]; [| congruence]. simpl.
    unfold bind at 1. unfold ret at 1.
    unfold bind at 1. rewrite log_run. unfold raise.
    rewrite step_step. reflexivity.
  - rewrite orb_true_r.
    unfold bind at 1. unfold bind at 1. rewrite log_run. unfold raise.
    rewrite step_step. reflexivity.
Qed.

Lemma test_one_run name k v (st : St E) :
  let r := test_contingency E k (setup_contingency E k (world st)) in
  let o := (name, fst (fst r), snd (fst r)) in
  test_one E (name, k) v st
  = (Ok (after_pass E k o v),
     step E (load_data_case E None (snd r)) (pass_events E o) st).
Proof.
  intros r o. subst o r.
  cbv [test_one bind log emit call_ call ret step
       after_pass record_outcome pass_events].
  cbn [world files trace].
  destruct (test_contingency E k (setup_contingency E k (world st)))
    as [[message convergent] w2].
  destruct (voltage_control_contingency E k);
    cbn [fst snd world files trace
         circuit_switching shunt_switching contingency_convergence];
    rewrite <- !app_assoc; reflexivity.
Qed.

Lemma test_loop_run (items : OrderedDict.t (Contingency (Elems E))) :
  forall v (st : St E),
    for_each items (test_one E) v st
    = (Ok {| circuit_switching :=
               (circuit_switching v ++ circuit_names E items)%list;
             shunt_switching :=
               (shunt_switching v ++ shunt_names E items)%list;
             contingency_convergence :=
               fold_left (record_outcome E) (outcomes E items (world st))
                         (contingency_convergence v) |},
       step E (world_after E items (world st))
         (flat_map (pass_events E) (outcomes E items (world st))) st).
Proof.
  induction items as [| [name k] items IH]; intros v st.
  - simpl. unfold ret. rewrite step_nil, !app_nil_r. now destruct v.
  - cbn [for_each]. unfold bind. rewrite test_one_run.
    rewrite IH. rewrite step_step. cbn [world step outcomes world_after].
    destruct (test_contingency E k (setup_contingency E k (world st)))
      as [[message convergent] w2] eqn:Ht.
    cbn [fst snd flat_map fold_left].
    unfold circuit_names, shunt_names, after_pass. cbn [filter snd fst].
    destruct (voltage_control_contingency E k); cbn [negb map fst];
      cbn [circuit_switching shunt_switching contingency_convergence];
      rewrite <- ?app_assoc; reflexivity.
Qed.

Lemma test_contingencies_run (items : OrderedDict.t (Contingency (Elems E)))
    (st : St E) :
  test_contingencies E items st
  = (Ok (loop_result E items (world st)),
     step E (world_after E items (world st))
       (flat_map (pass_events E) (outcomes E items (world st))) st).
Proof.
  unfold test_contingencies. rewrite test_loop_run. reflexivity.
Qed.

Lemma answers_run (qs : list (DataSet * list string * option (Limit E))) :
  forall (acc : list (DataFrame (Num E))) (st : St E),
    for_each qs
      (fun q compliance =>
         df <- compliance_call E (fst (fst q)) (snd (fst q)) (snd q) ;;
         ret (compliance ++ [df])%list)
      acc st
    = (Ok (acc ++ fst (answers E qs (world st)))%list,
       step E (snd (answers E qs (world st))) (map (compliance_event E) qs) st).
Proof.
  induction qs as [| q qs IH]; intros acc st.
  - simpl. unfold ret. now rewrite step_nil, app_nil_r.
  - cbn [for_each]. unfold bind at 1. unfold bind at 1.
    unfold compliance_call. rewrite call_run. unfold ret at 1.
    rewrite IH, step_step. cbn [world step answers map].
    destruct (check_compliance E (fst (fst q)) (snd (fst q)) (snd q) (world st))
      as [f w1].
    cbn [fst snd].
    destruct (answers E qs w1) as [fs w2]. cbn [fst snd].
    rewrite <- app_assoc. reflexivity.
Qed.

Lemma check_all_compliance_run v (st : St E) :
  check_all_compliance E v st
  = (Ok (summary_of E (contingency_convergence v)
           (fst (answers E (compliance_requests E v) (world st)))),
     step E (snd (answers E (compliance_requests E v) (world st)))
       (map (compliance_event E) (compliance_requests E v)) st).
Proof.
  unfold check_all_compliance, compliance_requests.
  unfold bind at 1. unfold compliance_call at 1. rewrite call_run.
  unfold bind at 1. unfold compliance_call at 1. rewrite call_run.
  cbn [world step].
  pose proof (answers_run
                [(bus_data, all_cont_names E v, None);
                 (circuit_data, all_cont_names E v, None);
                 (tx2_data, all_cont_names E v, None);
                 (tx3_wind_data, all_cont_names E v, None)]) as Hrest.
  cbn [for_each fst snd] in Hrest.
  unfold bind at 1. cbn [for_each]. rewrite Hrest. clear Hrest.
  unfold ret. rewrite !step_step. cbn [world step answers map fst snd].
  repeat match goal with
         | |- context [check_compliance E ?d ?n ?l ?w] =>
             destruct (check_compliance E d n l w); cbn [fst snd]
         end.
  reflexivity.
Qed.

Lemma export_run target summary (st : St E) :
  export_results E target summary st
  = (Ok tt, step E (ExportResults E target (results_data E (world st)) summary
                      (world st))
              [EExportResults E target (results_data E (world st)) summary] st).
Proof. reflexivity. Qed.

Lemma prepare_fails cont_workbook psse_sav_case (st : St E) success islanded w1 :
  run_load_flow E (opened E psse_sav_case (world st)) = ((success, islanded), w1) ->
  success = false \/ islanded <> [] ->
  prepare E cont_workbook psse_sav_case st
  = (Raise (ValueError (snd (base_case_failure E psse_sav_case islanded))),
     step E w1
       (opening_events E psse_sav_case
        ++ [Log E CRITICAL (fst (base_case_failure E psse_sav_case islanded))])
       st).
Proof.
  intros Hrun Hbad. unfold prepare.
  unfold bind at 1. rewrite log_run.
  unfold bind at 1. rewrite call__run.
  unfold bind at 1. rewrite call__run.
  unfold bind at 1. rewrite call__run.
  rewrite !step_step. cbn [world step app].
  unfold bind at 1.
  rewrite (check_base_case_fails psse_sav_case
             (step E (opened E psse_sav_case (world st)) _ st) _ _ _ Hrun Hbad).
  rewrite step_step. reflexivity.
Qed.

Lemma prepare_ok cont_workbook psse_sav_case (st : St E) w1 :
  run_load_flow E (opened E psse_sav_case (world st)) = ((true, []), w1) ->
  let imp := ImportContingencies E cont_workbook (constructed E w1) in
  prepare E cont_workbook psse_sav_case st
  = (Ok (details_of E (fst imp) (contingency_names E (fst imp))),
     step E (snd imp)
       (opening_events E psse_sav_case
        ++ [Log E INFO "Initial load flow study convergent"]
        ++ construct_events E
        ++ import_events E cont_workbook (contingency_names E (fst imp)))
       st).
Proof.
  intros Hrun imp. unfold prepare.
  unfold bind at 1. rewrite log_run.
  unfold bind at 1. rewrite call__run.
  unfold bind at 1. rewrite call__run.
  unfold bind at 1. rewrite call__run.
  rewrite !step_step. cbn [world step app].
  unfold bind at 1.
  rewrite (check_base_case_ok psse_sav_case
             (step E (opened E psse_sav_case (world st)) _ st) _ Hrun).
  unfold bind at 1. rewrite construct_run.
  rewrite import_run. rewrite !step_step. cbn [world step].
  fold imp. rewrite <- !app_assoc. reflexivity.
Qed.

Lemma main_fails cont_workbook psse_sav_case target_workbook (st : St E)
    success islanded w1 :
  run_load_flow E (opened E psse_sav_case (world st)) = ((success, islanded), w1) ->
  success = false \/ islanded <> [] ->
  main E cont_workbook psse_sav_case target_workbook st
  = (Raise (ValueError (snd (base_case_failure E psse_sav_case islanded))),
     step E w1
       (opening_events E psse_sav_case
        ++ [Log E CRITICAL (fst (base_case_failure E psse_sav_case islanded))])
       st).
Proof.
  intros Hrun Hbad. unfold main.
  apply bind_raise. eapply prepare_fails; eassumption.
Qed.

Lemma main_ok cont_workbook psse_sav_case target_workbook (st : St E) w1 :
  run_load_flow E (opened E psse_sav_case (world st)) = ((true, []), w1) ->
  let imp := ImportContingencies E cont_workbook (constructed E w1) in
  let items := details_of E (fst imp) (contingency_names E (fst imp)) in
  let v := loop_result E items (snd imp) in
  let ans := answers E (compliance_requests E v)
               (world_after E items (snd imp)) in
  let summary := summary_of E (contingency_convergence v) (fst ans) in
  main E cont_workbook psse_sav_case target_workbook st
  = (Ok target_workbook,
     step E (ExportResults E target_workbook (results_data E (snd ans)) summary
               (snd ans))
       (opening_events E psse_sav_case
        ++ [Log E INFO "Initial load flow study convergent"]
        ++ construct_events E
        ++ import_events E cont_workbook (contingency_names E (fst imp))
        ++ flat_map (pass_events E) (outcomes E items (snd imp))
        ++ map (compliance_event E) (compliance_requests E v)
        ++ [EExportResults E target_workbook (results_data E (snd ans)) summary])
       st).
Proof.
  intros Hrun imp items v ans summary. unfold main.
  unfold bind at 1. rewrite (prepare_ok cont_workbook psse_sav_case st _ Hrun).
  fold imp. fold items.
  unfold bind at 1. rewrite test_contingencies_run. cbn [world step].
  fold v.
  unfold bind at 1. rewrite check_all_compliance_run.
  rewrite !step_step. cbn [world step]. fold ans. fold summary.
  unfold bind at 1. rewrite export_run. unfold ret.
  rewrite !step_step. cbn [world step].
  rewrite <- !app_assoc. reflexivity.
Qed.

End WithEnv.

End MainFacts.

(** ** The frame operations *)

Module PandasFacts.
Import Pandas.

Section Frames.
Variable Num : Type.

#[local] Abbreviation rowlist := (list (string * list (cell Num))).

Lemma mem_In s l : mem_string s l = true <-> In s l.
Proof.
  unfold mem_string. rewrite existsb_exists. split.
  - intros (x & Hin & Heq). apply String.eqb_eq in Heq. now subst.
  - intros Hin. exists s. split; [assumption | apply String.eqb_refl].
Qed.

Lemma mem_not_In s l : mem_string s l = false <-> ~ In s l.
Proof. rewrite <- mem_In. now destruct (mem_string s l). Qed.

Lemma position_mem k' cols n :
  position k' cols = Some n -> mem_string k' cols = true.
Proof.
  revert n. induction cols as [| x cols IH]; intros n; simpl; [discriminate |].
  rewrite (String.eqb_sym k' x).
  destruct (String.eqb x k'); simpl; [reflexivity |].
  destruct (position k' cols); simpl; [| discriminate].
  intros _. now apply (IH n0).
Qed.

Lemma find_row_none r (rs : rowlist) :
  find_row r rs = None <-> ~ In r (map fst rs).
Proof.
  induction rs as [| [i cs] rs IH]; simpl; [tauto |].
  destruct (String.eqb i r) eqn:Hi.
  - apply String.eqb_eq in Hi. subst. split; [discriminate | tauto].
  - apply String.eqb_neq in Hi. rewrite IH. tauto.
Qed.

Lemma find_row_some_In r (rs : rowlist) cs :
  find_row r rs = Some cs -> In r (map fst rs).
Proof.
  intros Hf. destruct (in_dec string_dec r (map fst rs)) as [Hin | Hout];
    [assumption |].
  apply find_row_none in Hout. congruence.
Qed.

Lemma find_row_update r r' f (rs : rowlist) :
  find_row r'
    (map (fun row => if String.eqb (fst row) r then (fst row, f (snd row))
                     else row) rs)
  = if String.eqb r r' then option_map f (find_row r' rs) else find_row r' rs.
Proof.
  induction rs as [| [i cs] rs IH]; simpl.
  - now destruct (String.eqb r r').
  - destruct (String.eqb i r) eqn:Hir; simpl.
    + apply String.eqb_eq in Hir. subst i.
      destruct (String.eqb r r') eqn:Hrr; simpl; [reflexivity |].
      exact IH.
    + destruct (String.eqb i r') eqn:Hir'.
      * apply String.eqb_eq in Hir'. subst i.
        rewrite (String.eqb_sym r r'), Hir. reflexivity.
      * apply IH.
Qed.

Lemma find_row_append r r' cs (rs : rowlist) :
  find_row r' (rs ++ [(r, cs)])
  = match find_row r' rs with
    | Some x => Some x
    | None => if String.eqb r r' then Some cs else None
    end.
Proof.
  induction rs as [| [i x] rs IH]; simpl; [reflexivity |].
  destruct (String.eqb i r'); [reflexivity | apply IH].
Qed.

Lemma set_nth_length {A} n (v : A) l :
  List.length (set_nth n v l) = List.length l.
Proof.
  revert n. induction l as [| x l IH]; intros [| n]; simpl; auto.
Qed.

Lemma nth_error_set_nth {A} n (v : A) l :
  n < List.length l -> nth_error (set_nth n v l) n = Some v.
Proof.
  revert n. induction l as [| x l IH]; intros [| n]; simpl; intros Hlt;
    try lia; [reflexivity | apply IH; lia].
Qed.

Lemma nth_error_set_nth_other {A} n m (v : A) l :
  n <> m -> nth_error (set_nth n v l) m = nth_error l m.
Proof.
  revert n m. induction l as [| x l IH]; intros [| n] [| m] Hne; simpl;
    try reflexivity; try congruence.
  apply IH. congruence.
Qed.

(** *** [df.loc[r, c] = v] on a column that exists *)

Section LocSet.
Variables (r k' : string) (v : cell Num) (df : DataFrame Num) (n : nat).
Hypothesis Hcol : position k' (columns df) = Some n.

Lemma loc_set_columns : columns (loc_set r k' v df) = columns df.
Proof.
  unfold loc_set, add_column. rewrite (position_mem _ _ _ Hcol), Hcol.
  now destruct (mem_string r (df_index df)).
Qed.

Lemma loc_set_row_same :
  loc_row r (loc_set r k' v df)
  = Some (set_nth n v
            match loc_row r df with
            | Some cs => cs
            | None => map (fun _ => NaN) (columns df)
            end).
Proof.
  unfold loc_row, loc_set, add_column.
  rewrite (position_mem _ _ _ Hcol), Hcol. unfold df_index.
  destruct (mem_string r (map fst (rows df))) eqn:Hmem; simpl.
  - rewrite find_row_update, String.eqb_refl.
    apply mem_In in Hmem.
    destruct (find_row r (rows df)) eqn:Hf; [reflexivity |].
    apply find_row_none in Hf. contradiction.
  - rewrite find_row_append, String.eqb_refl.
    apply mem_not_In in Hmem. apply find_row_none in Hmem.
    now rewrite Hmem.
Qed.

Lemma loc_set_row_other r' :
  r' <> r -> loc_row r' (loc_set r k' v df) = loc_row r' df.
Proof.
  intros Hne. unfold loc_row, loc_set, add_column.
  rewrite (position_mem _ _ _ Hcol), Hcol.
  assert (Hneb : String.eqb r r' = false) by (apply String.eqb_neq; congruence).
  destruct (mem_string r (df_index df)); simpl.
  - now rewrite find_row_update, Hneb.
  - rewrite find_row_append, Hneb. now destruct (find_row r' (rows df)).
Qed.

Lemma loc_set_aligned : aligned df -> aligned (loc_set r k' v df).
Proof.
  unfold aligned, loc_set, add_column.
  rewrite (position_mem _ _ _ Hcol), Hcol. intros Hal.
  destruct (mem_string r (df_index df)); simpl.
  - apply Forall_map. eapply Forall_impl; [| exact Hal].
    intros [i cs] Hlen. simpl in *.
    destruct (String.eqb i r); simpl; [now rewrite set_nth_length | assumption].
  - apply Forall_app. split; [assumption |].
    constructor; [| constructor]. simpl.
    now rewrite set_nth_length, length_map.
Qed.

Lemma loc_set_index r' :
  In r' (df_index (loc_set r k' v df)) <-> r' = r \/ In r' (df_index df).
Proof.
  unfold loc_set, add_column, df_index.
  rewrite (position_mem _ _ _ Hcol), Hcol.
  destruct (mem_string r (map fst (rows df))) eqn:Hmem; simpl.
  - rewrite map_map.
    assert (Hsame : map (fun x => fst (if String.eqb (fst x) r
                                       then (fst x, set_nth n v (snd x))
                                       else x)) (rows df)
                    = map fst (rows df)).
    { apply map_ext. intros [i cs]. simpl. now destruct (String.eqb i r). }
    rewrite Hsame. apply mem_In in Hmem.
    split; [tauto |]. intros [-> | Hin]; assumption.
  - rewrite map_app, in_app_iff. simpl. intuition congruence.
Qed.

End LocSet.

(** *** [df.loc[r] = v] *)

Lemma loc_set_row_gives r v (df : DataFrame Num) :
  exists cells,
    loc_row r (loc_set_row r v df) = Some cells /\ Forall (eq v) cells.
Proof.
  unfold loc_row, loc_set_row, df_index.
  destruct (mem_string r (map fst (rows df))) eqn:Hmem; simpl.
  - rewrite find_row_update, String.eqb_refl.
    apply mem_In in Hmem.
    destruct (find_row r (rows df)) as [cs |] eqn:Hf.
    + exists (map (fun _ => v) cs). split; [reflexivity |].
      apply Forall_map. now apply Forall_forall.
    + apply find_row_none in Hf. contradiction.
  - rewrite find_row_append, String.eqb_refl.
    apply mem_not_In in Hmem. apply find_row_none in Hmem. rewrite Hmem.
    exists (map (fun _ => v) (columns df)). split; [reflexivity |].
    apply Forall_map. now apply Forall_forall.
Qed.

Lemma new_frame_aligned idx cols : aligned (new_frame Num idx cols).
Proof.
  unfold aligned, new_frame. simpl. apply Forall_map, Forall_forall.
  intros i _. simpl. apply length_map.
Qed.

End Frames.

Arguments loc_set_columns {Num r k' v df n} Hcol.
Arguments loc_set_row_same {Num r k' v df n} Hcol.
Arguments loc_set_row_other {Num r k' v df n} Hcol {r'} _.
Arguments loc_set_aligned {Num r k' v df n} Hcol _.
Arguments loc_set_index {Num r k' v df n} Hcol r'.

End PandasFacts.

(** ** main: the claims about the test loop *)

Module LoopFacts.
Import Pandas Collaborators MainPy Runs PandasFacts MainFacts.

Section WithEnv.
Variable E : Env.

#[local] Abbreviation c := (constants E).
#[local] Abbreviation Frame := (DataFrame (Num E)).
#[local] Abbreviation name_of := (fun o : string * string * bool => fst (fst o)).

Lemma outcomes_names (items : OrderedDict.t (Contingency (Elems E))) :
  forall w, map name_of (outcomes E items w) = OrderedDict.keys items.
Proof.
  induction items as [| [n k] items IH]; intros w; simpl; [reflexivity |].
  destruct (test_contingency E k (setup_contingency E k w)) as [r w2].
  simpl. now rewrite IH.
Qed.

Lemma outcomes_length (items : OrderedDict.t (Contingency (Elems E))) w :
  List.length (outcomes E items w) = List.length items.
Proof.
  rewrite <- (length_map name_of), outcomes_names.
  unfold OrderedDict.keys. apply length_map.
Qed.

Section ConvergenceFrame.
Hypothesis Hcols : Excel_message c <> Excel_convergence c.

Lemma position_message :
  position (Excel_message c) [Excel_message c; Excel_convergence c] = Some 0.
Proof. simpl. now rewrite String.eqb_refl. Qed.

Lemma position_convergence :
  position (Excel_convergence c) [Excel_message c; Excel_convergence c] = Some 1.
Proof.
  simpl. apply String.eqb_neq in Hcols. now rewrite Hcols, String.eqb_refl.
Qed.

Lemma loc_row_aligned r (df : Frame) cs :
  aligned df -> loc_row r df = Some cs ->
  List.length cs = List.length (columns df).
Proof.
  unfold aligned, loc_row. intros Hal.
  induction (rows df) as [| [i x] rs IH]; simpl; [discriminate |].
  inversion Hal as [| ? ? Hx Hrs]; subst.
  destruct (String.eqb i r); [| now apply IH].
  intros Heq. inversion Heq; subst. exact Hx.
Qed.

(** One pass writes its two cells in its own row and touches no other
    row. *)
Lemma record_outcome_spec (df : Frame) n message convergent :
  columns df = [Excel_message c; Excel_convergence c] -> aligned df ->
  let df' := record_outcome E df (n, message, convergent) in
  columns df' = [Excel_message c; Excel_convergence c]
  /\ aligned df'
  /\ loc_row n df' = Some [CStr message; CBool convergent]
  /\ (forall n', n' <> n -> loc_row n' df' = loc_row n' df)
  /\ (forall n', In n' (df_index df') <-> n' = n \/ In n' (df_index df)).
Proof.
  intros Hc Hal. unfold record_outcome.
  set (df1 := loc_set n (Excel_message c) (CStr message) df).
  assert (Hp0 : position (Excel_message c) (columns df) = Some 0)
    by (rewrite Hc; apply position_message).
  assert (Hc1 : columns df1 = [Excel_message c; Excel_convergence c])
    by (unfold df1; now rewrite (loc_set_columns Hp0)).
  assert (Hal1 : aligned df1) by (now apply (loc_set_aligned Hp0)).
  assert (Hp1 : position (Excel_convergence c) (columns df1) = Some 1)
    by (rewrite Hc1; apply position_convergence).
  cbv zeta.
  split; [now rewrite (loc_set_columns Hp1) |].
  split; [now apply (loc_set_aligned Hp1) |].
  split; [| split].
  - rewrite (loc_set_row_same Hp1). unfold df1.
    rewrite (loc_set_row_same Hp0).
    destruct (loc_row n df) as [cs |] eqn:Hrow.
    + apply (loc_row_aligned _ _ _ Hal) in Hrow. rewrite Hc in Hrow.
      destruct cs as [| a [| b [| ? ?]]]; simpl in Hrow; try discriminate.
      reflexivity.
    + rewrite Hc. reflexivity.
  - intros n' Hne. rewrite (loc_set_row_other Hp1 Hne). unfold df1.
    now rewrite (loc_set_row_other Hp0 Hne).
  - intros n'. rewrite (loc_set_index Hp1). unfold df1.
    rewrite (loc_set_index Hp0). tauto.
Qed.

Lemma initial_convergence_spec names :
  let df := initial_convergence E names in
  columns df = [Excel_message c; Excel_convergence c]
  /\ aligned df
  /\ (forall n, In n names -> In n (df_index df)).
Proof.
  unfold initial_convergence.
  pose proof (new_frame_aligned (Num E) names
                [Excel_message c; Excel_convergence c]) as Hal0.
  set (df0 := new_frame (Num E) names [Excel_message c; Excel_convergence c])
    in *.
  assert (Hp0 : position (Excel_message c) (columns df0) = Some 0)
    by apply position_message.
  set (df1 := loc_set (Contingency_bc c) (Excel_message c)
                (CStr (Contingency_convergent c)) df0).
  assert (Hc1 : columns df1 = [Excel_message c; Excel_convergence c])
    by (unfold df1; now rewrite (loc_set_columns Hp0)).
  assert (Hp1 : position (Excel_convergence c) (columns df1) = Some 1)
    by (rewrite Hc1; apply position_convergence).
  cbv zeta.
  split; [now rewrite (loc_set_columns Hp1) |].
  split.
  - apply (loc_set_aligned Hp1). now apply (loc_set_aligned Hp0).
  - intros n Hin. apply (loc_set_index Hp1). right.
    apply (loc_set_index Hp0). right.
    unfold df0, df_index, new_frame. simpl. rewrite map_map. simpl.
    now rewrite map_id.
Qed.

(** The passes together: with distinct names, the row of each name
    holds what its own pass obtained. *)
Lemma recorded_outcomes (os : list (string * string * bool)) :
  NoDup (map name_of os) ->
  forall df : Frame,
    columns df = [Excel_message c; Excel_convergence c] -> aligned df ->
    let df' := fold_left (record_outcome E) os df in
    columns df' = [Excel_message c; Excel_convergence c]
    /\ aligned df'
    /\ (forall n m k, In (n, m, k) os ->
          loc_row n df' = Some [CStr m; CBool k])
    /\ (forall n, ~ In n (map name_of os) -> loc_row n df' = loc_row n df)
    /\ (forall n, In n (df_index df) -> In n (df_index df')).
Proof.
  induction os as [| [[n m] k] os IH]; intros Hnd df Hc Hal; simpl.
  - repeat split; auto. intros ? ? ? [].
  - inversion Hnd as [| ? ? Hout Hnd']; subst.
    destruct (record_outcome_spec df n m k Hc Hal)
      as (Hc1 & Hal1 & Hrow & Hother & Hidx).
    destruct (IH Hnd' _ Hc1 Hal1) as (Hc2 & Hal2 & Hrows & Hkeep & Hidx2).
    split; [assumption |]. split; [assumption |].
    split; [| split].
    + intros n' m' k' [Heq | Hin].
      * inversion Heq; subst.
        etransitivity; [apply Hkeep; exact Hout | exact Hrow].
      * now apply Hrows.
    + intros n' Hn'. simpl in Hn'.
      etransitivity; [apply Hkeep; tauto |].
      apply Hother. intros ->. tauto.
    + intros n' Hin. apply Hidx2, Hidx. now right.
Qed.

End ConvergenceFrame.

Lemma In_pass_events n m k (os : list (string * string * bool)) :
  In (n, m, k) os ->
  In (ETestContingency E n m k) (flat_map (pass_events E) os).
Proof.
  intros Hin. apply in_flat_map. exists (n, m, k). split; [assumption |].
  simpl. tauto.
Qed.

(** C2. Whatever the convergent flags turn out to be, the test loop
    returns normally after one pass per contingency name, and the
    convergence frame ends with a row for every name whose two cells are
    the convergence message and the convergent flag that the test of
    that contingency produced. *)
Theorem every_contingency_is_recorded
    (items : OrderedDict.t (Contingency (Elems E))) (st : St E) :
  NoDup (OrderedDict.keys items) ->
  Excel_message c <> Excel_convergence c ->
  let os := outcomes E items (world st) in
  exists v st',
    test_contingencies E items st = (Ok v, st')
    /\ map (fun o => fst (fst o)) os = OrderedDict.keys items
    /\ trace st' = (trace st ++ flat_map (pass_events E) os)%list
    /\ (forall n m k, In (n, m, k) os ->
          In (ETestContingency E n m k) (trace st')
          /\ loc n (Excel_message c) (contingency_convergence v) = Some (CStr m)
          /\ loc n (Excel_convergence c) (contingency_convergence v)
             = Some (CBool k))
    /\ (forall n, In n (OrderedDict.keys items) ->
          In n (df_index (contingency_convergence v))).
Proof.
  intros Hnd Hcols os.
  rewrite test_contingencies_run. eexists. eexists. split; [reflexivity |].
  split; [apply outcomes_names |].
  split; [reflexivity |].
  destruct (initial_convergence_spec Hcols (OrderedDict.keys items))
    as (Hc0 & Hal0 & Hidx0).
  assert (Hnd' : NoDup (map name_of os))
    by (unfold os; now rewrite outcomes_names).
  destruct (recorded_outcomes Hcols os Hnd' _ Hc0 Hal0)
    as (Hc1 & Hal1 & Hrows & _ & Hidx1).
  split.
  - intros n m k Hin. split.
    + cbn [trace step]. apply in_app_iff. right. now apply In_pass_events.
    + unfold loc. cbn [contingency_convergence loop_result].
      fold os. rewrite (Hrows _ _ _ Hin), Hc1.
      rewrite (position_message), (position_convergence Hcols).
      split; reflexivity.
  - intros n Hin. cbn [contingency_convergence loop_result]. fold os.
    apply Hidx1, Hidx0, Hin.
Qed.


Lemma names_partition (items : OrderedDict.t (Contingency (Elems E))) :
  Permutation (circuit_names E items ++ shunt_names E items)
              (OrderedDict.keys items).
Proof.
  unfold circuit_names, shunt_names, OrderedDict.keys.
  induction items as [| [n k] items IH]; simpl; [constructor |].
  destruct (voltage_control_contingency E k); simpl.
  - apply Permutation_sym.
    apply Permutation_cons_app. now apply Permutation_sym.
  - now constructor.
Qed.


End WithEnv.

End LoopFacts.

(** ** main: every pass starts from the case on file *)

Module ReloadFacts.
Import Pandas Collaborators MainPy Runs MainFacts LoopFacts.

Section WithContract.
Variable E : Env.
Variable Net : Type.
Variables switched on_file : W E -> Net.
Hypothesis contract : engine_contract E Net switched on_file.

Lemma constructed_switches_nothing (w : W E) :
  switched (constructed E w) = switched w
  /\ on_file (constructed E w) = on_file w.
Proof.
  unfold constructed. generalize (data_set_ctors).
  intros l. revert w. induction l as [| [d k] l IH]; intros w; simpl.
  - split; reflexivity.
  - destruct (IH (construct E d k w)) as (Hs & Hf).
    destruct (construct_switches_nothing contract d k w) as (Hs' & Hf').
    split; congruence.
Qed.

(** The world in which the first pass starts holds the case as it is on
    file. *)
Lemma prepared_from_file cont_workbook psse_sav_case (st : St E) items st1 :
  prepare E cont_workbook psse_sav_case st = (Ok items, st1) ->
  switched (world st1) = on_file (world st1).
Proof.
  intros Hprep.
  destruct (run_load_flow E (opened E psse_sav_case (world st)))
    as [[success islanded] w1] eqn:Hrun.
  assert (Hcases : (success = true /\ islanded = [])
                   \/ (success = false \/ islanded <> [])).
  { destruct success; [| tauto]. destruct islanded; [tauto |].
    right. right. discriminate. }
  destruct Hcases as [(-> & ->) | Hbad].
  - rewrite (prepare_ok E cont_workbook psse_sav_case st w1 Hrun) in Hprep.
    inversion Hprep; subst. cbn [world step].
    destruct (import_switches_nothing contract cont_workbook (constructed E w1))
      as (Hs1 & Hf1).
    destruct (constructed_switches_nothing w1) as (Hs2 & Hf2).
    pose proof (solve_switches_nothing contract (opened E psse_sav_case (world st)))
      as (Hs3 & Hf3).
    rewrite Hrun in Hs3, Hf3. cbn [snd] in Hs3, Hf3.
    unfold opened in Hs3, Hf3.
    destruct (define_switches_nothing contract
                (load_data_case E (Some psse_sav_case) (PsseControl E (world st))))
      as (Hs4 & Hf4).
    pose proof (load_restores contract (Some psse_sav_case)
                  (PsseControl E (world st))) as Hload.
    congruence.
  - rewrite (prepare_fails E cont_workbook psse_sav_case st _ _ _ Hrun Hbad) in Hprep.
    discriminate.
Qed.

Lemma pass_keeps_file k (w : W E) :
  let w' := load_data_case E None
              (snd (test_contingency E k (setup_contingency E k w))) in
  switched w' = on_file w /\ on_file w' = on_file w.
Proof.
  cbv zeta.
  rewrite (load_restores contract), (reload_same_file contract),
    (test_same_file contract), (setup_same_file contract).
  split; reflexivity.
Qed.

Lemma pass_starts_from_file (items : OrderedDict.t (Contingency (Elems E))) :
  forall v (st : St E),
    switched (world st) = on_file (world st) ->
    let starts := pass_starts items (test_one E) v st in
    List.length starts = List.length items
    /\ Forall (fun s => switched (world s) = switched (world st)) starts.
Proof.
  induction items as [| [n k] items IH]; intros v st Hst; cbn [pass_starts].
  - split; [reflexivity | constructor].
  - rewrite test_one_run.
    destruct (pass_keeps_file k (world st)) as (Hs & Hf).
    match goal with
    | |- context [pass_starts items (test_one E) ?v1 ?s1] =>
        destruct (IH v1 s1) as (Hlen & Hall)
    end.
    { cbn [world step]. congruence. }
    split; [cbn [List.length]; f_equal; exact Hlen |].
    constructor; [reflexivity |].
    eapply Forall_impl; [| exact Hall].
    intros s Hsw. cbn [world step] in Hsw. congruence.
Qed.

(** C3. Each pass of the test loop ends by reloading the case, right
    after the test and before the next pass sets up its contingency; all
    passes take place and, for an engine in which a load puts the network
    at the switching state stored on file, every one of them starts with
    the network in the switching state of the first pass, which is the
    one on file: outages made by one pass are gone before the next. *)
Theorem every_pass_starts_from_the_saved_case
    cont_workbook psse_sav_case (st : St E) items st1 v :
  prepare E cont_workbook psse_sav_case st = (Ok items, st1) ->
  let starts := pass_starts items (test_one E) v st1 in
  List.length starts = List.length items
  /\ Forall (fun s => switched (world s) = switched (world st1)
                      /\ switched (world s) = on_file (world st1)) starts
  /\ (forall n k (s : St E),
        snd (test_one E (n, k) v s)
        = step E (load_data_case E None
                    (snd (test_contingency E k (setup_contingency E k (world s)))))
            [Log E INFO ("Testing contingency " ++ n);
             ESetupContingency E n;
             ETestContingency E n
               (fst (fst (test_contingency E k (setup_contingency E k (world s)))))
               (snd (fst (test_contingency E k (setup_contingency E k (world s)))));
             ELoadDataCase E None] s)
  /\ trace (snd (test_contingencies E items st1))
     = (trace st1
        ++ flat_map (pass_events E) (outcomes E items (world st1)))%list.
Proof.
  intros Hprep starts.
  pose proof (prepared_from_file _ _ _ _ _ Hprep) as Hfile.
  destruct (pass_starts_from_file items v st1 Hfile) as (Hlen & Hall).
  split; [exact Hlen |].
  split.
  - eapply Forall_impl; [| exact Hall].
    intros s Hs. split; congruence.
  - split.
    + intros n k s. rewrite test_one_run. reflexivity.
    + rewrite test_contingencies_run. reflexivity.
Qed.

End WithContract.

End ReloadFacts.

(** ** Main.py: the top-level loop and the export *)

Module ScriptFacts.
Import Pandas Collaborators MainPy Runs MainFacts.

Section WithEnv.
Variable E : Env.

#[local] Abbreviation c := (constants E).

Lemma opening_applies_nothing psse_sav_case msg :
  existsb (applies_contingency E)
    (opening_events E psse_sav_case ++ [Log E CRITICAL msg]) = false.
Proof. reflexivity. Qed.

(** C1. When the load flow of the base case does not converge or leaves
    islanded busbars, main raises ValueError (the one about islanded
    busbars whenever there are any) after a critical record and before
    any contingency is set up or tested; the top-level loop catches it,
    gives the logger an error record that names the SAV case and goes on
    with the rest of the selection. *)
Theorem base_case_failure_is_caught
    (i : Z) (rest : list Z) (st : St E) (pth_sav pth_res : string)
    (success : bool) (islanded : list (Bus E)) (w1 : W E) :
  index (pth_EirGrid_SAV E) i = Some pth_sav ->
  index (pth_results E) i = Some pth_res ->
  run_load_flow E (opened E pth_sav (world st)) = ((success, islanded), w1) ->
  success = false \/ islanded <> [] ->
  let st0 := step E (world st) [Log E INFO ("Processing SAV case " ++ pth_sav)] st in
  let error := match islanded with
               | [] => "Check PSSE SAV Case - Non-Convergent"
               | _ :: _ => "Check PSSE SAV Case - Islanded busbars"
               end in
  exists critical_message,
    let events := (opening_events E pth_sav
                   ++ [Log E CRITICAL critical_message])%list in
    let caught :=
      step E w1
        [Log E ERROR ("Contingency analysis for the SAV case " ++ pth_sav
                      ++ " could not be completed")]
        (step E w1 events st0) in
    main E (pth_Contingencies E) pth_sav pth_res st0
    = (Raise (ValueError error), step E w1 events st0)
    /\ existsb (applies_contingency E) events = false
    /\ run_selected E i st = (Ok tt, caught)
    /\ run_selection E (i :: rest) st = run_selection E rest caught.
Proof.
  intros Hsav Hres Hrun Hbad st0 error.
  exists (fst (base_case_failure E pth_sav islanded)).
  cbv zeta.
  assert (Hmain : main E (pth_Contingencies E) pth_sav pth_res st0
                  = (Raise (ValueError error),
                     step E w1
                       (opening_events E pth_sav
                        ++ [Log E CRITICAL
                              (fst (base_case_failure E pth_sav islanded))])
                       st0)).
  { rewrite (main_fails E (pth_Contingencies E) pth_sav pth_res st0
               success islanded w1 Hrun Hbad).
    unfold error. now destruct islanded. }
  assert (Hone : run_selected E i st
                 = (Ok tt,
                    step E w1
                      [Log E ERROR ("Contingency analysis for the SAV case "
                                    ++ pth_sav ++ " could not be completed")]
                      (step E w1
                         (opening_events E pth_sav
                          ++ [Log E CRITICAL
                                (fst (base_case_failure E pth_sav islanded))])
                         st0))).
  { unfold run_selected. rewrite Hsav, Hres.
    unfold bind at 1. rewrite log_run. fold st0. rewrite Hmain.
    rewrite log_run. reflexivity. }
  split; [exact Hmain |].
  split; [apply opening_applies_nothing |].
  split; [exact Hone |].
  unfold run_selection. cbn [for_each]. unfold bind at 1. now rewrite Hone.
Qed.

(** *** The sheets *)

Lemma setitem_fresh {V} (k : string) (v : V) (d : OrderedDict.t V) :
  ~ In k (OrderedDict.keys d) -> OrderedDict.setitem k v d = (d ++ [(k, v)])%list.
Proof.
  induction d as [| [k' v'] d IH]; simpl; [reflexivity |].
  intros Hout. destruct (String.eqb k' k) eqn:Hk.
  - apply String.eqb_eq in Hk. subst. tauto.
  - rewrite IH by tauto. reflexivity.
Qed.

Lemma setitems_fresh {V} (kvs : list (string * V)) :
  forall d : OrderedDict.t V,
    NoDup (OrderedDict.keys d ++ map fst kvs) ->
    fold_left (fun d kv => OrderedDict.setitem (fst kv) (snd kv) d) kvs d
    = (d ++ kvs)%list.
Proof.
  induction kvs as [| [k v] kvs IH]; intros d Hnd; simpl.
  - now rewrite app_nil_r.
  - simpl in Hnd.
    rewrite setitem_fresh.
    + rewrite IH.
      * now rewrite <- app_assoc.
      * unfold OrderedDict.keys in *. rewrite map_app, <- app_assoc. exact Hnd.
    + apply NoDup_remove_2 in Hnd. intros Hin. apply Hnd.
      apply in_app_iff. now left.
Qed.

Lemma results_data_sheets (w : W E) :
  NoDup (sheet_names E) ->
  results_data E w
  = combine (sheet_names E)
            (map (fun da => getattr E (fst da) (snd da) w) sheet_sources).
Proof.
  intros Hnd.
  change (results_data E w)
    with (fold_left (fun d kv => OrderedDict.setitem (fst kv) (snd kv) d)
            (combine (sheet_names E)
               (map (fun da => getattr E (fst da) (snd da) w) sheet_sources))
            []).
  rewrite setitems_fresh; [reflexivity |].
  exact Hnd.
Qed.


End WithEnv.

End ScriptFacts.

(** ** os.path.splitext and the plotting script *)

Module VisualisationFacts.
Import DataVisualisation.

Lemma substring_split (p : string) :
  forall n, n <= String.length p ->
    substring 0 n p ++ substring n (String.length p - n) p = p.
Proof.
  induction p as [| a p IH]; intros [| n] Hn; simpl in *; try lia.
  - reflexivity.
  - f_equal. clear IH Hn. induction p as [| b p IHp]; simpl; [reflexivity |].
    now rewrite IHp.
  - f_equal. apply IH. lia.
Qed.

Lemma rfind_from_bounds ch (s : string) :
  forall i last, (last < i)%Z ->
    (last <= OsPath.rfind_from ch s i last
     < i + Z.of_nat (String.length s))%Z
    \/ (OsPath.rfind_from ch s i last = last).
Proof.
  induction s as [| a s IH]; intros i last Hlt; simpl; [now right |].
  destruct (Ascii.eqb a ch).
  - destruct (IH (i + 1)%Z i ltac:(lia)) as [Hb | ->]; left; lia.
  - destruct (IH (i + 1)%Z last ltac:(lia)) as [Hb | ->]; [left; lia | now right].
Qed.

Lemma rfind_bounds ch (p : string) :
  (-1 <= OsPath.rfind ch p < Z.of_nat (String.length p))%Z.
Proof.
  unfold OsPath.rfind.
  destruct (rfind_from_bounds ch p 0 (-1) ltac:(lia)) as [Hb | ->]; lia.
Qed.

(** Stem and extension put together give the path back. *)
Lemma _splitext_concat p sep altsep extsep :
  fst (OsPath._splitext p sep altsep extsep)
  ++ snd (OsPath._splitext p sep altsep extsep) = p.
Proof.
  unfold OsPath._splitext.
  match goal with
  | |- context [if ?b then _ else _] => destruct b eqn:Hb
  end; simpl.
  - apply andb_true_iff in Hb. destruct Hb as (Hlt & _).
    apply Z.ltb_lt in Hlt.
    pose proof (rfind_bounds extsep p) as Hdot.
    apply substring_split. lia.
  - clear Hb. induction p as [| a p IH]; simpl; [reflexivity | now rewrite IH].
Qed.

Section WithEnv.
Variable P : PlotEnv.

Lemma splitext_concat p : fst (splitext P p) ++ snd (splitext P p) = p.
Proof.
  unfold splitext, OsPath.ntpath_splitext, OsPath.posixpath_splitext.
  destruct (windows P); apply _splitext_concat.
Qed.

Lemma fig_name_of_stem source_file :
  fig_name_of P source_file = fst (splitext P source_file) ++ "_Voltage.png".
Proof. unfold fig_name_of. now destruct (splitext P source_file). Qed.


End WithEnv.

(** The stem of a results file of the script, on both kinds of path. *)
Example splitext_results_file :
  OsPath.ntpath_splitext "C:\Users\david\Phase B\Results_SVHW(CP966)2.xlsx"
  = ("C:\Users\david\Phase B\Results_SVHW(CP966)2", ".xlsx")
  /\ OsPath.posixpath_splitext "/home/david/Phase B/Results_SVHW(CP966)2.xlsx"
     = ("/home/david/Phase B/Results_SVHW(CP966)2", ".xlsx")
  /\ OsPath.posixpath_splitext "/home/david/.config" = ("/home/david/.config", "")
  /\ OsPath.ntpath_splitext "C:\logs.d\results" = ("C:\logs.d\results", "").
Proof. repeat split. Qed.

End VisualisationFacts.

(** ** The theorems at work on the small engine *)

Module ToyRuns.
Import Pandas Collaborators MainPy Runs Toy.

Lemma toy_contract :
  engine_contract toy_env (list string) out_of_service (fun _ => []).
Proof.
  constructor; intros; try reflexivity; try (split; reflexivity).
Qed.

Lemma toy_sheet_names_distinct : NoDup (sheet_names toy_env).
Proof.
  unfold sheet_names. simpl.
  repeat (constructor; [simpl; intuition discriminate |]).
  constructor.
Qed.

Lemma toy_names_distinct : NoDup (map fst toy_workbook).
Proof.
  simpl. repeat (constructor; [simpl; intuition discriminate |]). constructor.
Qed.

(** The sixth SAV case has islanded busbars and does not converge either:
    the error is the one about islands, and the script carries on. *)
Lemma base_case_failure_is_caught_witness :
  let sav := nth 5 (pth_EirGrid_SAV toy_env) "" in
  let res := nth 5 (pth_results toy_env) "" in
  let st := toy_state toy_fs [sav] [sav] in
  let st0 := step toy_env (world st) [Log toy_env INFO ("Processing SAV case " ++ sav)] st in
  (index (pth_EirGrid_SAV toy_env) 5 = Some sav
   /\ index (pth_results toy_env) 5 = Some res
   /\ run_load_flow toy_env (opened toy_env sav (world st))
      = ((false, [101; 102]), opened toy_env sav (world st))
   /\ (false = false \/ [101; 102] <> []))
  /\ fst (main toy_env (pth_Contingencies toy_env) sav res st0)
     = Raise (ValueError "Check PSSE SAV Case - Islanded busbars")
  /\ fst (run_selected toy_env 5 st) = Ok tt.
Proof.
  intros sav res st st0.
  assert (H1 : index (pth_EirGrid_SAV toy_env) 5 = Some sav) by reflexivity.
  assert (H2 : index (pth_results toy_env) 5 = Some res) by reflexivity.
  assert (H3 : run_load_flow toy_env (opened toy_env sav (world st))
               = ((false, [101; 102]), opened toy_env sav (world st)))
    by (vm_compute; reflexivity).
  assert (H4 : false = false \/ [101; 102] <> []) by (left; reflexivity).
  split; [repeat split; assumption |].
  destruct (ScriptFacts.base_case_failure_is_caught toy_env 5 [] st sav res
              false [101; 102] (opened toy_env sav (world st)) H1 H2 H3 H4)
    as (msg & Hmain & _ & Hone & _).
  fold st0 in Hmain. rewrite Hmain, Hone. split; reflexivity.
Defined.

(** The second contingency of the workbook does not converge; its row
    says so and the third one is tested and recorded all the same. *)
Lemma every_contingency_is_recorded_witness :
  let items := details_of toy_env toy_workbook (map fst toy_workbook) in
  let st := toy_state toy_fs [] [] in
  (NoDup (OrderedDict.keys items)
   /\ Excel_message (constants toy_env) <> Excel_convergence (constants toy_env))
  /\ exists v st',
       test_contingencies toy_env items st = (Ok v, st')
       /\ loc "C2" "Convergent" (contingency_convergence v) = Some (CBool false)
       /\ loc "R1" "Convergent" (contingency_convergence v) = Some (CBool true)
       /\ In (ETestContingency toy_env "R1" "Convergent" true) (trace st').
Proof.
  intros items st.
  assert (H1 : NoDup (OrderedDict.keys items)) by exact toy_names_distinct.
  assert (H2 : Excel_message (constants toy_env)
               <> Excel_convergence (constants toy_env)) by discriminate.
  split; [split; assumption |].
  destruct (LoopFacts.every_contingency_is_recorded toy_env items st H1 H2)
    as (v & st' & Hrun & _ & _ & Hrows & _).
  exists v, st'. split; [exact Hrun |].
  destruct (Hrows "C2" "Non-convergent" false) as (_ & _ & Hc2);
    [right; left; reflexivity |].
  destruct (Hrows "R1" "Convergent" true) as (Hev & _ & Hr1);
    [right; right; left; reflexivity |].
  repeat split; assumption.
Defined.

(** Three passes, each starting with nothing out of service, although the
    second one switches two lines out. *)
Lemma every_pass_starts_from_the_saved_case_witness :
  let st := toy_state toy_fs [] [] in
  engine_contract toy_env (list string) out_of_service (fun _ => [])
  /\ exists items st1,
       prepare toy_env "Contingencies.xlsx" "case.sav" st = (Ok items, st1)
       /\ let starts := pass_starts items (test_one toy_env)
                          {| circuit_switching := []; shunt_switching := [];
                             contingency_convergence :=
                               initial_convergence toy_env (OrderedDict.keys items) |}
                          st1 in
          List.length starts = 3
          /\ Forall (fun s : St toy_env => out_of_service (world s) = []) starts.
Proof.
  intros st. split; [exact toy_contract |].
  destruct (prepare toy_env "Contingencies.xlsx" "case.sav" st)
    as [[items | e] st1] eqn:Hprep; [| vm_compute in Hprep; discriminate Hprep].
  exists items, st1. split; [reflexivity |].
  intros starts.
  destruct (ReloadFacts.every_pass_starts_from_the_saved_case toy_env
              (list string) out_of_service (fun _ => []) toy_contract
              "Contingencies.xlsx" "case.sav" st items st1
              {| circuit_switching := []; shunt_switching := [];
                 contingency_convergence :=
                   initial_convergence toy_env (OrderedDict.keys items) |}
              Hprep)
    as (Hlen & Hall & _).
  split.
  - fold starts in Hlen. rewrite Hlen.
    vm_compute in Hprep. injection Hprep as <- _. reflexivity.
  - eapply Forall_impl; [| exact Hall].
    intros s (_ & Hs). exact Hs.
Defined.




(** Neither the given directory nor the default folder can be made. *)
Example check_directory_raises :
  fst (check_directory (H := ToyFS_ops) "/pkg" "/srv/logs" "Logs"
         {| toy_dirs := []; toy_files := [];
            toy_denied := ["/srv/logs"; "/pkg/Logs"] |})
  = Raise (OSError "Unable to create directory </pkg/Logs> to store log files in").
Proof. reflexivity. Qed.

(** Two critical messages are reported, with the name of the caller in
    each record. *)
Example two_criticals_are_reported :
  exists L fs,
    LoggerModel.__init__ (H := ToyFS_ops) "/pkg" "/" (Logging_constants toy_constants)
      "/run/Logs" "Contingencies_1" None false "20200101_000000" toy_fs = (Ok L, fs)
    /\ let L' := LoggerModel.critical "main" "second"
                   (LoggerModel.critical "main" "first" L) in
       LoggerModel.final_report_message L'
       = Some (LoggerModel.counts_message 0 0 2)
       /\ In (CRITICAL, "function <main> reported second") (LoggerModel.records L').
Proof.
  eexists. eexists. split; [reflexivity |].
  split; [reflexivity |]. vm_compute. tauto.
Qed.

(** The test loop on the workbook: the lines go to the circuit list and the
    reactor to the shunt list, and the frame keeps the base case after the
    three names. *)
Example toy_test_loop :
  let items := details_of toy_env toy_workbook (map fst toy_workbook) in
  let v := loop_result toy_env items (world (toy_state toy_fs [] [])) in
  circuit_switching v = ["C1"; "C2"]
  /\ shunt_switching v = ["R1"]
  /\ all_cont_names toy_env v = ["BC"; "C1"; "C2"; "R1"]
  /\ rows (contingency_convergence v)
     = [("C1", [CStr "Convergent"; CBool true]);
        ("C2", [CStr "Non-convergent"; CBool false]);
        ("R1", [CStr "Convergent"; CBool true]);
        ("BC", [CStr "Convergent"; CBool true])].
Proof. vm_compute. repeat split. Qed.

End ToyRuns.

(* ===================================================================== *)
(** * Further properties *)
(* ===================================================================== *)

(** ** check_directory and the construction of a Logger *)

Section MoreCheckDirectory.
Context {FS : Type} `{FileSystem FS}.
Variable script_pth : string.

Lemma check_directory_isdir :
  makedirs_creates FS ->
  forall (p d : string) (fs : FS) q fs',
    check_directory script_pth p d fs = (Ok q, fs') -> isdir fs' q = true.
Proof.
  intros Hmk p d fs q fs'. unfold check_directory.
  destruct (isdir fs p) eqn:Hp; simpl.
  - intros Heq. inversion Heq; subst. exact Hp.
  - destruct (makedirs p fs) as [[|] fs1] eqn:Hm1.
    + intros Heq. inversion Heq; subst. eapply Hmk; eauto.
    + destruct (isdir fs1 (path_join script_pth d)) eqn:Hq; simpl.
      * intros Heq. inversion Heq; subst. exact Hq.
      * destruct (makedirs (path_join script_pth d) fs1) as [[|] fs2] eqn:Hm2;
          intros Heq; inversion Heq; subst. eapply Hmk; eauto.
Qed.

(** X1. The directory that [check_directory] returns is settled: checking
    it again, with any default folder name, returns it once more and leaves
    the file system as it is. *)
Theorem check_directory_settles :
  makedirs_creates FS ->
  forall (p d d' : string) (fs : FS) q fs',
    check_directory script_pth p d fs = (Ok q, fs') ->
    check_directory script_pth q d' fs' = (Ok q, fs').
Proof.
  intros Hmk p d d' fs q fs' Hfirst.
  apply check_directory_existing.
  eapply check_directory_isdir; eassumption.
Qed.

End MoreCheckDirectory.

Lemma check_directory_settles_witness :
  @makedirs_creates Toy.ToyFS Toy.ToyFS_ops
  /\ let fs := {| Toy.toy_dirs := []; Toy.toy_files := [];
                  Toy.toy_denied := ["/srv/logs"] |} in
     let fs' := {| Toy.toy_dirs := ["/pkg/Logs"]; Toy.toy_files := [];
                   Toy.toy_denied := ["/srv/logs"] |} in
     check_directory (H := Toy.ToyFS_ops) "/pkg" "/srv/logs" "Logs" fs
     = (Ok "/pkg/Logs", fs')
     /\ check_directory (H := Toy.ToyFS_ops) "/pkg" "/pkg/Logs" "Other" fs'
        = (Ok "/pkg/Logs", fs').
Proof.
  split; [exact toy_makedirs_creates |].
  intros fs fs'.
  assert (Hfirst : check_directory (H := Toy.ToyFS_ops) "/pkg" "/srv/logs" "Logs" fs
                   = (Ok "/pkg/Logs", fs')) by reflexivity.
  split; [exact Hfirst |].
  exact (check_directory_settles (H := Toy.ToyFS_ops) "/pkg" toy_makedirs_creates
           "/srv/logs" "Logs" "Other" fs "/pkg/Logs" fs' Hfirst).
Defined.

Module MoreLoggerFacts.
Import LoggerModel.

Lemma Handler_eqb_refl (h : Handler) : Handler_eqb h h = true.
Proof.
  induction h as [f l | cap fl t IH l | l]; simpl.
  - destruct f as [x |]; [rewrite String.eqb_refl |]; simpl; apply Nat.eqb_refl.
  - now rewrite N.eqb_refl, !Nat.eqb_refl, IH.
  - apply Nat.eqb_refl.
Qed.

Section WithOs.
Context {FS : Type} `{FileSystem FS}.
Variable script_pth : string.
Variable parent_pth : string.


(** X3. [check_file_paths] never assigns [pth_error_log]; after it the
    debug and progress paths are set; an instance with all three paths set
    is left as it is (so it does nothing inside [__init__]); and an
    instance without an error path gets the default error file name as its
    progress path. *)
Theorem check_file_paths_effect (now : string) (L : Logger) :
  let L' := check_file_paths (FS := FS) parent_pth now L in
  let c := log_constants L in
  pth_error_log L' = pth_error_log L
  /\ pth_debug_log L' <> None
  /\ pth_progress_log L' <> None
  /\ (pth_debug_log L <> None -> pth_progress_log L <> None ->
      pth_error_log L <> None -> L' = L)
  /\ (pth_error_log L = None ->
      pth_progress_log L'
      = Some (path_join (FS := FS) parent_pth
                (error c ++ "_" ++ now ++ extension c))).
Proof.
  unfold check_file_paths.
  destruct (pth_debug_log L) as [d |] eqn:Hd;
    destruct (pth_progress_log L) as [p |] eqn:Hp;
    destruct (pth_error_log L) as [e |] eqn:He;
    cbn; rewrite ?Hd, ?Hp, ?He; cbn; rewrite ?Hd, ?Hp, ?He; cbn;
    repeat split; try congruence; try discriminate; intros; try congruence.
Qed.

(** What [setup_logging] builds, from the paths and the debug flag. *)
Lemma setup_logging_handlers (L : Logger) :
  let hp := MemoryHandler 10 ERROR (FileHandler (pth_progress_log L) 0) INFO in
  let hd := MemoryHandler 100000 CRITICAL (FileHandler (pth_debug_log L) 0) DEBUG in
  let he := FileHandler (pth_error_log L) ERROR in
  let hs := StreamHandler (if debug_mode L then DEBUG else INFO) in
  logger_handlers (setup_logging L) = [hp; hd; he; hs]
  /\ handler_progress_log (setup_logging L) = Some hp
  /\ handler_debug_log (setup_logging L) = Some hd
  /\ handler_error_log (setup_logging L) = Some he
  /\ handler_stream_log (setup_logging L) = Some hs
  /\ file_handlers (setup_logging L)
     = (file_handlers L
        ++ [FileHandler (pth_progress_log L) 0; FileHandler (pth_debug_log L) 0;
            FileHandler (pth_error_log L) ERROR])%list.
Proof.
  cbv zeta. unfold setup_logging. cbn.
  rewrite <- !app_assoc. repeat split; reflexivity.
Qed.

Lemma setup_logging_keeps (L : Logger) :
  pth_progress_log (setup_logging L) = pth_progress_log L
  /\ pth_debug_log (setup_logging L) = pth_debug_log L
  /\ pth_error_log (setup_logging L) = pth_error_log L
  /\ debug_mode (setup_logging L) = debug_mode L
  /\ records (setup_logging L) = records L.
Proof. repeat split; reflexivity. Qed.

(** X4. Setting the logging up again does not pile handlers on the logger:
    after any number of calls (one at least) it has the same four
    handlers; the list [file_handlers] of the instance, on the other hand,
    grows by three file handlers with every call. *)
Theorem setup_logging_again (n : nat) (L : Logger) :
  logger_handlers (Nat.iter (S n) setup_logging L)
  = logger_handlers (setup_logging L)
  /\ List.length (logger_handlers (Nat.iter (S n) setup_logging L)) = 4
  /\ List.length (file_handlers (Nat.iter n setup_logging L))
     = List.length (file_handlers L) + 3 * n.
Proof.
  assert (Hkeep : forall m,
             pth_progress_log (Nat.iter m setup_logging L) = pth_progress_log L
             /\ pth_debug_log (Nat.iter m setup_logging L) = pth_debug_log L
             /\ pth_error_log (Nat.iter m setup_logging L) = pth_error_log L
             /\ debug_mode (Nat.iter m setup_logging L) = debug_mode L).
  { induction m as [| m IH]; [repeat split |].
    rewrite Nat.iter_succ.
    destruct (setup_logging_keeps (Nat.iter m setup_logging L))
      as (H1 & H2 & H3 & H4 & _).
    destruct IH as (I1 & I2 & I3 & I4).
    repeat split; congruence. }
  split; [| split].
  - rewrite Nat.iter_succ.
    destruct (setup_logging_handlers (Nat.iter n setup_logging L)) as (Hl & _).
    destruct (setup_logging_handlers L) as (Hl0 & _).
    destruct (Hkeep n) as (I1 & I2 & I3 & I4).
    rewrite Hl, Hl0, I1, I2, I3, I4. reflexivity.
  - rewrite Nat.iter_succ.
    destruct (setup_logging_handlers (Nat.iter n setup_logging L)) as (Hl & _).
    now rewrite Hl.
  - induction n as [| n IH]; [cbn; lia |].
    rewrite Nat.iter_succ.
    destruct (setup_logging_handlers (Nat.iter n setup_logging L))
      as (_ & _ & _ & _ & _ & Hf).
    rewrite Hf, length_app, IH. cbn [List.length]. lia.
Qed.

(** X5. After [setup_logging], [close_logging] takes the debug handler off
    the logger and leaves the progress, error and stream handlers in their
    order; it changes neither the records nor the counters, and a second
    call changes nothing. *)
Theorem close_logging_removes_debug_handler (L0 : Logger) :
  let L := setup_logging L0 in
  exists hp hd he hs,
    logger_handlers L = [hp; hd; he; hs]
    /\ handler_debug_log L = Some hd
    /\ logger_handlers (close_logging L) = [hp; he; hs]
    /\ ~ In hd (logger_handlers (close_logging L))
    /\ records (close_logging L) = records L
    /\ counts (close_logging L) = counts L
    /\ close_logging (close_logging L) = close_logging L.
Proof.
  intros L.
  destruct (setup_logging_handlers L0) as (Hl & Hp & Hd & He & Hs & _).
  fold L in Hl, Hp, Hd, He, Hs.
  do 4 eexists. split; [exact Hl |]. split; [exact Hd |].
  assert (Hclose : logger_handlers (close_logging L)
                   = [MemoryHandler 10 ERROR (FileHandler (pth_progress_log L0) 0) INFO;
                      FileHandler (pth_error_log L0) ERROR;
                      StreamHandler (if debug_mode L0 then DEBUG else INFO)]).
  { unfold close_logging, flush. rewrite Hd. cbn [logger_handlers set_logger_handlers].
    rewrite Hl. cbn [removeHandler].
    replace (Handler_eqb
               (MemoryHandler 100000 CRITICAL (FileHandler (pth_debug_log L0) 0) DEBUG)
               (MemoryHandler 10 ERROR (FileHandler (pth_progress_log L0) 0) INFO))
      with false by reflexivity.
    now rewrite Handler_eqb_refl. }
  split; [exact Hclose |].
  split.
  { rewrite Hclose. intros [Hin | [Hin | [Hin | []]]]; discriminate. }
  split; [unfold close_logging, flush; now rewrite Hd |].
  split; [unfold close_logging, flush; now rewrite Hd |].
  unfold close_logging at 1. unfold flush.
  assert (Hd' : handler_debug_log (close_logging L) = handler_debug_log L)
    by (unfold close_logging, flush; now rewrite Hd).
  rewrite Hd', Hd, Hclose. cbn [removeHandler].
  replace (Handler_eqb
             (MemoryHandler 100000 CRITICAL (FileHandler (pth_debug_log L0) 0) DEBUG)
             (MemoryHandler 10 ERROR (FileHandler (pth_progress_log L0) 0) INFO))
    with false by reflexivity.
  cbn [Handler_eqb].
  unfold close_logging, flush. rewrite Hd, Hl. cbn [removeHandler].
  replace (Handler_eqb
             (MemoryHandler 100000 CRITICAL (FileHandler (pth_debug_log L0) 0) DEBUG)
             (MemoryHandler 10 ERROR (FileHandler (pth_progress_log L0) 0) INFO))
    with false by reflexivity.
  rewrite Handler_eqb_refl. reflexivity.
Qed.

Lemma run_call_records (k : call) (L : Logger) :
  exists added,
    records (run_call (FS := FS) parent_pth k L) = (records L ++ added)%list
    /\ List.length added = Counting.records_added k.
Proof.
  destruct k; cbn [run_call Counting.records_added];
    try (exists []; rewrite app_nil_r; split; [| reflexivity]).
  - unfold check_file_paths.
    repeat match goal with
           | |- context [match ?x with Some _ => _ | None => _ end] =>
               destruct x; cbn
           end; reflexivity.
  - reflexivity.
  - unfold initial_log_messages, flush, info, debug_, emit. cbn [records set_records].
    eexists. rewrite <- !app_assoc. split; reflexivity.
  - unfold close_logging, flush. now destruct (handler_debug_log L).
  - unfold get_file_handlers. now destruct _buffer.
  - eexists. split; reflexivity.
  - eexists. split; reflexivity.
  - eexists. split; reflexivity.
  - eexists. split; reflexivity.
  - eexists. split; reflexivity.
  - reflexivity.
  - unfold logging_final_report_and_closure.
    destruct (1 <? sum [warning_count L; error_count L; critical_count L])%nat;
      cbn [records set_shutdown debug_ info emit set_records];
      eexists; rewrite <- !app_assoc; split; reflexivity.
  - unfold logging_final_report_and_closure.
    destruct (1 <? sum [warning_count L; error_count L; critical_count L])%nat;
      cbn [records set_shutdown debug_ info emit set_records];
      eexists; rewrite <- !app_assoc; split; reflexivity.
  - unfold logging_final_report_and_closure.
    destruct (1 <? sum [warning_count L; error_count L; critical_count L])%nat;
      cbn [records set_shutdown debug_ info emit set_records];
      eexists; rewrite <- !app_assoc; split; reflexivity.
Qed.

(** X6. The records given to the logger only ever grow at the end: after
    any calls of methods the earlier records are still there, in their
    order and unchanged, followed by as many new ones as the methods called
    hand over (one per message method, four for the initial messages, two
    for a final report). *)
Theorem records_only_grow (ks : list call) (L : Logger) :
  exists added,
    records (run_calls (FS := FS) parent_pth ks L) = (records L ++ added)%list
    /\ List.length added = list_sum (map Counting.records_added ks).
Proof.
  revert L. induction ks as [| k ks IH]; intros L.
  - exists []. cbn. now rewrite app_nil_r.
  - destruct (run_call_records k L) as (a1 & Hr1 & Hl1).
    destruct (IH (run_call (FS := FS) parent_pth k L)) as (a2 & Hr2 & Hl2).
    exists (a1 ++ a2)%list. unfold run_calls in *. cbn [fold_left map list_sum].
    rewrite Hr2, Hr1, <- app_assoc, length_app, Hl1, Hl2. split; reflexivity.
Qed.

(** X7. Over a whole lifetime that starts with the construction, the final
    report gives the counts exactly when [critical] has been called at
    least twice, and then with 0 warnings and 0 errors: calls of [warning]
    and [error], however many, never show in it, and a single critical
    message is reported as 0 important messages. *)
Theorem final_report_of_a_lifetime consts pth uid a dbg now (fs fs' : FS)
    (L : Logger) (ks : list call) :
  __init__ script_pth parent_pth consts pth uid a dbg now fs = (Ok L, fs') ->
  let n := List.length (filter is_critical ks) in
  final_report_message (run_calls (FS := FS) parent_pth ks L)
  = Some (if (2 <=? n)%nat then counts_message 0 0 n
          else "Log file closing, there were 0 important messages").
Proof.
  intros Hinit n.
  rewrite LoggerFacts.final_report_message_eq.
  pose proof (LoggerFacts.init_counts _ _ _ _ _ _ _ _ _ _ _ Hinit) as H0.
  pose proof (LoggerFacts.run_calls_counts parent_pth ks L) as Hks.
  unfold counts in H0, Hks.
  injection H0 as Hw He Hc. rewrite Hw, He, Hc in Hks.
  injection Hks as Hw' He' Hc'. rewrite Hw', He', Hc'. cbn [Nat.add]. fold n.
  destruct n as [| [| n']]; reflexivity.
Qed.

End WithOs.

End MoreLoggerFacts.

Lemma final_report_of_a_lifetime_witness :
  exists L fs',
    LoggerModel.__init__ (H := Toy.ToyFS_ops) "/pkg" "/"
      (Collaborators.Logging_constants Toy.toy_constants) "/run/Logs"
      "Contingencies_1" None false "20200101_000000" Toy.toy_fs = (Ok L, fs')
    /\ LoggerModel.final_report_message
         (LoggerModel.run_calls (H := Toy.ToyFS_ops) "/"
            [LoggerModel.Call_warning "w1"; LoggerModel.Call_error "e1";
             LoggerModel.Call_error "e2"; LoggerModel.Call_critical "main" "c1";
             LoggerModel.Call_warning "w2"] L)
       = Some "Log file closing, there were 0 important messages".
Proof.
  eexists. eexists. split; [reflexivity |].
  exact (MoreLoggerFacts.final_report_of_a_lifetime (H := Toy.ToyFS_ops) "/pkg" "/"
           (Collaborators.Logging_constants Toy.toy_constants) "/run/Logs"
           "Contingencies_1" None false "20200101_000000" Toy.toy_fs _ _
           [LoggerModel.Call_warning "w1"; LoggerModel.Call_error "e1";
            LoggerModel.Call_error "e2"; LoggerModel.Call_critical "main" "c1";
            LoggerModel.Call_warning "w2"] eq_refl).
Defined.

(** ** main and the top-level loop: returning runs, counts, bounds *)

Module MoreMainFacts.
Import Pandas Collaborators MainPy Runs Counting PandasFacts MainFacts LoopFacts.

Lemma index_out_of_range {A} (xs : list A) (i : Z) :
  (i < - Z.of_nat (List.length xs) \/ Z.of_nat (List.length xs) <= i)%Z ->
  index xs i = None.
Proof.
  intros Hi. unfold index.
  destruct (0 <=? i)%Z eqn:H0.
  - apply Z.leb_le in H0. apply nth_error_None. lia.
  - apply Z.leb_gt in H0.
    destruct (0 <=? Z.of_nat (List.length xs) + i)%Z eqn:H1; [| reflexivity].
    apply Z.leb_le in H1. lia.
Qed.

Lemma index_in_range {A} (xs : list A) (i : Z) :
  (- Z.of_nat (List.length xs) <= i < Z.of_nat (List.length xs))%Z ->
  exists x, index xs i = Some x.
Proof.
  intros Hi. unfold index.
  assert (Hsome : forall n, n < List.length xs -> exists x, nth_error xs n = Some x).
  { intros n Hn. destruct (nth_error xs n) eqn:Hx; [eauto |].
    apply nth_error_None in Hx. lia. }
  destruct (0 <=? i)%Z eqn:H0.
  - apply Z.leb_le in H0. apply Hsome. lia.
  - apply Z.leb_gt in H0.
    destruct (0 <=? Z.of_nat (List.length xs) + i)%Z eqn:H1.
    + apply Hsome. lia.
    + apply Z.leb_gt in H1. lia.
Qed.

Lemma first_occurrences_length (l : list string) :
  List.length (first_occurrences l) <= List.length l
  /\ (List.length (first_occurrences l) = List.length l <-> NoDup l).
Proof.
  pose proof (first_occurrences_NoDup l) as Hnd.
  assert (Hincl : incl (first_occurrences l) l)
    by (intros x Hx; now apply first_occurrences_In).
  split; [now apply NoDup_incl_length |].
  split.
  - intros Hlen. apply (NoDup_incl_NoDup Hnd); [lia | exact Hincl].
  - intros Hl. now rewrite first_occurrences_id.
Qed.

Section WithEnv.
Variable E : Env.

#[local] Abbreviation c := (constants E).

Lemma base_case_cases (success : bool) (islanded : list (Bus E)) :
  (success = true /\ islanded = []) \/ (success = false \/ islanded <> []).
Proof.
  destruct success; [| tauto]. destruct islanded; [tauto |].
  right. right. discriminate.
Qed.


Lemma count_app (f : event E -> bool) (a b : list (event E)) :
  count E f (a ++ b) = count E f a + count E f b.
Proof. unfold count. now rewrite filter_app, length_app. Qed.

Lemma count_map_none {A} (f : event E -> bool) (g : A -> event E) (l : list A) :
  (forall x, f (g x) = false) -> count E f (map g l) = 0.
Proof.
  intros Hf. unfold count. induction l as [| x l IH]; simpl; [reflexivity |].
  now rewrite Hf.
Qed.

Lemma count_map_all {A} (f : event E -> bool) (g : A -> event E) (l : list A) :
  (forall x, f (g x) = true) -> count E f (map g l) = List.length l.
Proof.
  intros Hf. unfold count. induction l as [| x l IH]; simpl; [reflexivity |].
  rewrite Hf. simpl. now rewrite IH.
Qed.

Lemma count_passes (f : event E -> bool) (k : nat)
    (os : list (string * string * bool)) :
  (forall o, count E f (pass_events E o) = k) ->
  count E f (flat_map (pass_events E) os) = k * List.length os.
Proof.
  intros Hk. induction os as [| o os IH]; cbn [flat_map List.length]; [cbn; lia |].
  rewrite count_app, Hk, IH. lia.
Qed.

Lemma count_import (f : event E -> bool) cont_workbook names :
  (forall l m, f (Log E l m) = false) ->
  count E f (import_events E cont_workbook names)
  = if f (EImportContingencies E cont_workbook) then 1 else 0.
Proof.
  intros Hlog. unfold import_events.
  rewrite !count_app, (count_map_none f _ names) by (intros; apply Hlog).
  unfold count. cbn [filter app]. rewrite !Hlog.
  destruct (f (EImportContingencies E cont_workbook)); reflexivity.
Qed.

(** X9. In a run of main that returns, the case is loaded once with its
    path and once more after each contingency; each of the [n]
    contingencies (one per distinct name of the workbook) is set up once
    and tested once; main itself runs one load flow, builds the eight data
    sets, imports the workbook once, asks for compliance six times and
    exports once. *)
Theorem calls_of_a_returning_run
    cont_workbook psse_sav_case target_workbook (st st' : St E) r :
  main E cont_workbook psse_sav_case target_workbook st = (Ok r, st') ->
  let w1 := snd (run_load_flow E (opened E psse_sav_case (world st))) in
  let data := fst (ImportContingencies E cont_workbook (constructed E w1)) in
  let n := List.length (first_occurrences (contingency_names E data)) in
  exists evs,
    trace st' = (trace st ++ evs)%list
    /\ count E (is_load E) evs = 1 + n
    /\ count E (is_setup E) evs = n
    /\ count E (is_test E) evs = n
    /\ count E (is_solve E) evs = 1
    /\ count E (is_construct E) evs = 8
    /\ count E (is_import E) evs = 1
    /\ count E (is_check E) evs = 6
    /\ count E (is_export E) evs = 1.
Proof.
  intros Hmain.
  destruct (run_load_flow E (opened E psse_sav_case (world st)))
    as [[success islanded] w1'] eqn:Hrun.
  cbn [snd].
  destruct (base_case_cases success islanded) as [(-> & ->) | Hbad];
    [| rewrite (main_fails E cont_workbook psse_sav_case target_workbook st
                  success islanded w1' Hrun Hbad) in Hmain; discriminate].
  pose proof (main_ok E cont_workbook psse_sav_case target_workbook st w1' Hrun)
    as Hok.
  cbv zeta in Hok.
  set (imp := ImportContingencies E cont_workbook (constructed E w1')) in *.
  set (items := details_of E (fst imp) (contingency_names E (fst imp))) in *.
  set (v := loop_result E items (snd imp)) in *.
  set (ans := answers E (compliance_requests E v)
                (world_after E items (snd imp))) in *.
  rewrite Hok in Hmain. clear Hok.
  pose proof (f_equal snd Hmain) as Hst. cbn [snd] in Hst. clear Hmain.
  assert (Hn : List.length (outcomes E items (snd imp))
               = List.length (first_occurrences (contingency_names E (fst imp)))).
  { rewrite outcomes_length. unfold items.
    rewrite <- (details_keys E (fst imp)). unfold OrderedDict.keys.
    now rewrite length_map. }
  eexists. split; [rewrite <- Hst; cbn [trace step]; reflexivity |].
  rewrite !count_app.
  repeat split.
  - rewrite (count_import (is_load E)) by reflexivity.
    rewrite (count_passes (is_load E) 1) by (intros [[? ?] ?]; reflexivity).
    rewrite (count_map_none (is_load E)) by reflexivity.
    rewrite Hn. cbn. lia.
  - rewrite (count_import (is_setup E)) by reflexivity.
    rewrite (count_passes (is_setup E) 1) by (intros [[? ?] ?]; reflexivity).
    rewrite (count_map_none (is_setup E)) by reflexivity.
    rewrite Hn. cbn. lia.
  - rewrite (count_import (is_test E)) by reflexivity.
    rewrite (count_passes (is_test E) 1) by (intros [[? ?] ?]; reflexivity).
    rewrite (count_map_none (is_test E)) by reflexivity.
    rewrite Hn. cbn. lia.
  - rewrite (count_import (is_solve E)) by reflexivity.
    rewrite (count_passes (is_solve E) 0) by (intros [[? ?] ?]; reflexivity).
    rewrite (count_map_none (is_solve E)) by reflexivity.
    cbn. lia.
  - rewrite (count_import (is_construct E)) by reflexivity.
    rewrite (count_passes (is_construct E) 0) by (intros [[? ?] ?]; reflexivity).
    rewrite (count_map_none (is_construct E)) by reflexivity.
    cbn. lia.
  - rewrite (count_import (is_import E)) by reflexivity.
    rewrite (count_passes (is_import E) 0) by (intros [[? ?] ?]; reflexivity).
    rewrite (count_map_none (is_import E)) by reflexivity.
    cbn. lia.
  - rewrite (count_import (is_check E)) by reflexivity.
    rewrite (count_passes (is_check E) 0) by (intros [[? ?] ?]; reflexivity).
    rewrite (count_map_all (is_check E)) by reflexivity.
    cbn. lia.
  - rewrite (count_import (is_export E)) by reflexivity.
    rewrite (count_passes (is_export E) 0) by (intros [[? ?] ?]; reflexivity).
    rewrite (count_map_none (is_export E)) by reflexivity.
    cbn. lia.
Qed.

(** *** The convergence frame and the names *)

Lemma loc_set_index_list (r k' : string) (v : cell (Num E))
    (df : DataFrame (Num E)) (n : nat) :
  position k' (columns df) = Some n ->
  df_index (loc_set r k' v df)
  = if mem_string r (df_index df) then df_index df
    else (df_index df ++ [r])%list.
Proof.
  intros Hcol. unfold loc_set, add_column, df_index.
  rewrite (position_mem _ _ _ Hcol), Hcol.
  destruct (mem_string r (map fst (rows df))); simpl.
  - rewrite map_map. apply map_ext. intros [i cs]. simpl.
    now destruct (String.eqb i r).
  - now rewrite map_app.
Qed.

Section ConvergenceFrame.
Hypothesis Hcols : Excel_message c <> Excel_convergence c.

Lemma record_outcome_index (df : DataFrame (Num E)) n m k :
  columns df = [Excel_message c; Excel_convergence c] ->
  In n (df_index df) ->
  df_index (record_outcome E df (n, m, k)) = df_index df.
Proof.
  intros Hc Hin. unfold record_outcome.
  assert (Hp0 : position (Excel_message c) (columns df) = Some 0)
    by (rewrite Hc; apply position_message).
  assert (Hc1 : columns (loc_set n (Excel_message c) (CStr m) df)
                = [Excel_message c; Excel_convergence c])
    by (now rewrite (loc_set_columns Hp0)).
  assert (Hp1 : position (Excel_convergence c)
                  (columns (loc_set n (Excel_message c) (CStr m) df)) = Some 1)
    by (rewrite Hc1; now apply position_convergence).
  rewrite (loc_set_index_list _ _ _ _ _ Hp1), (loc_set_index_list _ _ _ _ _ Hp0).
  apply PandasFacts.mem_In in Hin. now rewrite Hin, Hin.
Qed.

Lemma recorded_index (os : list (string * string * bool)) :
  forall df : DataFrame (Num E),
    columns df = [Excel_message c; Excel_convergence c] -> aligned df ->
    (forall o, In o os -> In (fst (fst o)) (df_index df)) ->
    df_index (fold_left (record_outcome E) os df) = df_index df.
Proof.
  induction os as [| [[n m] k] os IH]; intros df Hc Hal Hin; [reflexivity |].
  cbn [fold_left].
  destruct (record_outcome_spec E Hcols df n m k Hc Hal) as (Hc1 & Hal1 & _).
  assert (Hidx : df_index (record_outcome E df (n, m, k)) = df_index df)
    by (apply record_outcome_index; [assumption | apply (Hin (n, m, k)); now left]).
  rewrite IH; [exact Hidx | assumption | assumption |].
  intros o Ho. rewrite Hidx. apply Hin. now right.
Qed.

Lemma initial_convergence_index names :
  df_index (initial_convergence E names)
  = if mem_string (Contingency_bc c) names then names
    else (names ++ [Contingency_bc c])%list.
Proof.
  unfold initial_convergence.
  set (df0 := new_frame (Num E) names [Excel_message c; Excel_convergence c]).
  assert (Hi0 : df_index df0 = names).
  { unfold df0, df_index, new_frame. simpl. rewrite map_map. simpl. apply map_id. }
  assert (Hp0 : position (Excel_message c) (columns df0) = Some 0)
    by apply position_message.
  assert (Hc1 : columns (loc_set (Contingency_bc c) (Excel_message c)
                           (CStr (Contingency_convergent c)) df0)
                = [Excel_message c; Excel_convergence c])
    by (now rewrite (loc_set_columns Hp0)).
  assert (Hp1 : position (Excel_convergence c)
                  (columns (loc_set (Contingency_bc c) (Excel_message c)
                              (CStr (Contingency_convergent c)) df0)) = Some 1)
    by (rewrite Hc1; now apply position_convergence).
  rewrite (loc_set_index_list _ _ _ _ _ Hp1), (loc_set_index_list _ _ _ _ _ Hp0), Hi0.
  destruct (mem_string (Contingency_bc c) names) eqn:Hmem.
  - now rewrite Hmem.
  - replace (mem_string (Contingency_bc c) (names ++ [Contingency_bc c])) with true;
      [reflexivity |].
    symmetry. apply PandasFacts.mem_In, in_app_iff. right. now left.
Qed.

Lemma initial_convergence_bc_row names :
  loc_row (Contingency_bc c) (initial_convergence E names)
  = Some [CStr (Contingency_convergent c); CBool true].
Proof.
  unfold initial_convergence.
  pose proof (new_frame_aligned (Num E) names
                [Excel_message c; Excel_convergence c]) as Hal0.
  set (df0 := new_frame (Num E) names [Excel_message c; Excel_convergence c]) in *.
  assert (Hp0 : position (Excel_message c) (columns df0) = Some 0)
    by apply position_message.
  assert (Hc1 : columns (loc_set (Contingency_bc c) (Excel_message c)
                           (CStr (Contingency_convergent c)) df0)
                = [Excel_message c; Excel_convergence c])
    by (now rewrite (loc_set_columns Hp0)).
  assert (Hp1 : position (Excel_convergence c)
                  (columns (loc_set (Contingency_bc c) (Excel_message c)
                              (CStr (Contingency_convergent c)) df0)) = Some 1)
    by (rewrite Hc1; now apply position_convergence).
  rewrite (loc_set_row_same Hp1), (loc_set_row_same Hp0).
  destruct (loc_row (Contingency_bc c) df0) as [cs |] eqn:Hrow.
  - apply (loc_row_aligned E _ _ _ Hal0) in Hrow.
    destruct cs as [| a [| b [| ? ?]]]; simpl in Hrow; try discriminate.
    reflexivity.
  - reflexivity.
Qed.

(** X10. When no contingency bears the name of the base case, the
    convergence frame with which the loop ends has one row per contingency
    name, in the order of the names, followed by the row of the base case,
    and that row still holds the convergent message and True. *)
Theorem base_case_row_is_kept
    (items : OrderedDict.t (Contingency (Elems E))) (w : W E) :
  NoDup (OrderedDict.keys items) ->
  ~ In (Contingency_bc c) (OrderedDict.keys items) ->
  let df := contingency_convergence (loop_result E items w) in
  df_index df = (OrderedDict.keys items ++ [Contingency_bc c])%list
  /\ columns df = [Excel_message c; Excel_convergence c]
  /\ aligned df
  /\ loc (Contingency_bc c) (Excel_message c) df
     = Some (CStr (Contingency_convergent c))
  /\ loc (Contingency_bc c) (Excel_convergence c) df = Some (CBool true).
Proof.
  intros Hnd Hbc. cbn [contingency_convergence loop_result].
  set (os := outcomes E items w).
  set (df0 := initial_convergence E (OrderedDict.keys items)).
  destruct (initial_convergence_spec E Hcols (OrderedDict.keys items))
    as (Hc0 & Hal0 & Hidx0). fold df0 in Hc0, Hal0, Hidx0.
  assert (Hnames : map (fun o : string * string * bool => fst (fst o)) os
                   = OrderedDict.keys items) by apply outcomes_names.
  assert (Hnd' : NoDup (map (fun o : string * string * bool => fst (fst o)) os))
    by (now rewrite Hnames).
  destruct (recorded_outcomes E Hcols os Hnd' df0 Hc0 Hal0)
    as (Hc1 & Hal1 & _ & Hkeep & _).
  cbv zeta.
  assert (Hrow : loc_row (Contingency_bc c) (fold_left (record_outcome E) os df0)
                 = Some [CStr (Contingency_convergent c); CBool true]).
  { rewrite Hkeep by (now rewrite Hnames). apply initial_convergence_bc_row. }
  split.
  - rewrite recorded_index; try assumption.
    + unfold df0. rewrite initial_convergence_index.
      apply PandasFacts.mem_not_In in Hbc. now rewrite Hbc.
    + intros o Ho. apply Hidx0. rewrite <- Hnames.
      now apply (in_map (fun o : string * string * bool => fst (fst o))).

  - split; [assumption |]. split; [assumption |].
    unfold loc. rewrite Hrow, Hc1, position_message, (position_convergence E Hcols).
    split; reflexivity.
Qed.

(** X11. When a contingency does bear the name of the base case, the
    frame gets no row of its own for the base case: it has exactly the
    rows of the names, and the row under that name holds the message and
    the flag of the contingency, not the marks of the base case. *)
Theorem base_case_row_is_overwritten
    (items : OrderedDict.t (Contingency (Elems E))) (w : W E) :
  NoDup (OrderedDict.keys items) ->
  In (Contingency_bc c) (OrderedDict.keys items) ->
  let df := contingency_convergence (loop_result E items w) in
  df_index df = OrderedDict.keys items
  /\ exists m k,
       In (Contingency_bc c, m, k) (outcomes E items w)
       /\ loc (Contingency_bc c) (Excel_message c) df = Some (CStr m)
       /\ loc (Contingency_bc c) (Excel_convergence c) df = Some (CBool k).
Proof.
  intros Hnd Hbc. cbn [contingency_convergence loop_result].
  set (os := outcomes E items w).
  set (df0 := initial_convergence E (OrderedDict.keys items)).
  destruct (initial_convergence_spec E Hcols (OrderedDict.keys items))
    as (Hc0 & Hal0 & Hidx0). fold df0 in Hc0, Hal0, Hidx0.
  assert (Hnames : map (fun o : string * string * bool => fst (fst o)) os
                   = OrderedDict.keys items) by apply outcomes_names.
  assert (Hnd' : NoDup (map (fun o : string * string * bool => fst (fst o)) os))
    by (now rewrite Hnames).
  destruct (recorded_outcomes E Hcols os Hnd' df0 Hc0 Hal0)
    as (Hc1 & Hal1 & Hrows & _ & _).
  cbv zeta. split.
  - rewrite recorded_index; try assumption.
    + unfold df0. rewrite initial_convergence_index.
      apply PandasFacts.mem_In in Hbc. now rewrite Hbc.
    + intros o Ho. apply Hidx0. rewrite <- Hnames.
      now apply (in_map (fun o : string * string * bool => fst (fst o))).

  - rewrite <- Hnames in Hbc. apply in_map_iff in Hbc.
    destruct Hbc as ([[n m] k] & Hn & Hin). cbn in Hn. subst n.
    exists m, k. split; [exact Hin |].
    unfold loc. rewrite (Hrows _ _ _ Hin), Hc1, position_message,
      (position_convergence E Hcols).
    split; reflexivity.
Qed.

End ConvergenceFrame.

(** X12. With distinct contingency names none of which is the name of the
    base case, no name is checked twice: the list of names given to the
    compliance checks has no repetition, and no name is both in the
    circuit list and in the shunt list. *)
Theorem all_cont_names_distinct
    (items : OrderedDict.t (Contingency (Elems E))) (w : W E) :
  NoDup (OrderedDict.keys items) ->
  ~ In (Contingency_bc c) (OrderedDict.keys items) ->
  let v := loop_result E items w in
  NoDup (all_cont_names E v)
  /\ (forall n, In n (circuit_switching v) -> ~ In n (shunt_switching v))
  /\ List.length (all_cont_names E v) = 1 + List.length items.
Proof.
  intros Hnd Hbc v.
  pose proof (names_partition E items) as Hperm.
  assert (Hnd2 : NoDup (circuit_names E items ++ shunt_names E items))
    by (eapply Permutation_NoDup; [apply Permutation_sym; exact Hperm | exact Hnd]).
  split; [| split].
  - unfold all_cont_names. cbn [circuit_switching shunt_switching v loop_result].
    constructor; [| exact Hnd2].
    intros Hin. apply Hbc. eapply Permutation_in; eassumption.
  - cbn [circuit_switching shunt_switching v loop_result].
    intros n H1 H2. apply NoDup_app_remove_l in Hnd2 as Hs.
    clear Hs. revert H1 H2. generalize (circuit_names E items) (shunt_names E items) Hnd2.
    intros l1 l2 Hn H1 H2.
    induction l1 as [| a l1 IH]; [contradiction |].
    inversion Hn as [| ? ? Hout Hn']; subst.
    destruct H1 as [-> | H1]; [apply Hout, in_app_iff; now right | now apply IH].
  - unfold all_cont_names. cbn [circuit_switching shunt_switching v loop_result List.length].
    rewrite (Permutation_length Hperm). unfold OrderedDict.keys.
    now rewrite length_map.
Qed.

(** *** The import *)

Lemma setitem_values {V} (P : string -> V -> Prop) (k : string) (v : V)
    (d : OrderedDict.t V) :
  P k v -> (forall n x, In (n, x) d -> P n x) ->
  forall n x, In (n, x) (OrderedDict.setitem k v d) -> P n x.
Proof.
  intros Hk. induction d as [| [k' v'] d IH]; intros Hd n x; simpl.
  - intros [Heq | []]. now inversion Heq; subst.
  - destruct (String.eqb k' k) eqn:Hkk.
    + apply String.eqb_eq in Hkk. subst k'.
      intros [Heq | Hin]; [inversion Heq; subst; exact Hk |].
      apply Hd. now right.
    + intros [Heq | Hin]; [apply Hd; now left |].
      apply IH; [| exact Hin]. intros n' x' Hin'. apply Hd. now right.
Qed.

Lemma contingency_of_name data n : name (contingency_of E data n) = n.
Proof.
  unfold contingency_of.
  now destruct (group_contingencies_by_name E data n) as [[[[[? ?] ?] ?] ?] ?].
Qed.

(** X13. After the import every entry of the dictionary holds, under its
    key, the contingency built from the groups of that very name, whose
    [name] is the key; and the logger has been given one DEBUG record per
    name listed in the workbook, repeated names included. *)
Theorem imported_contingencies_carry_their_key cont_workbook (st : St E) :
  let data := fst (ImportContingencies E cont_workbook (world st)) in
  let names := contingency_names E data in
  exists items st1,
    import_contingencies E cont_workbook st = (Ok items, st1)
    /\ (forall n k, In (n, k) items ->
          k = contingency_of E data n /\ name k = n /\ In n names)
    /\ List.length items <= List.length names
    /\ exists evs,
         trace st1 = (trace st ++ evs)%list
         /\ List.length (filter (fun ev => match ev with
                                           | Log _ lvl _ => Nat.eqb lvl DEBUG
                                           | _ => false
                                           end) evs)
            = List.length names
         /\ count E (is_engine_call E) evs = 1.
Proof.
  intros data names. rewrite import_run. fold data. fold names.
  eexists. eexists. split; [reflexivity |].
  split; [| split].
  - unfold details_of.
    assert (Hgen : forall l d,
               (forall n k, In (n, k) d ->
                  k = contingency_of E data n /\ name k = n /\ In n names) ->
               incl l names ->
               forall n k,
                 In (n, k) (fold_left
                              (fun d n => OrderedDict.setitem n (contingency_of E data n) d)
                              l d) ->
                 k = contingency_of E data n /\ name k = n /\ In n names).
    { induction l as [| a l IH]; intros d Hd Hincl; [exact Hd |].
      cbn [fold_left]. apply IH.
      - apply (setitem_values
                 (fun n k => k = contingency_of E data n /\ name k = n /\ In n names)).
        + split; [reflexivity |]. split; [apply contingency_of_name |].
          apply Hincl. now left.
        + exact Hd.
      - intros x Hx. apply Hincl. now right. }
    apply (Hgen names []); [intros ? ? [] | apply incl_refl].
  - pose proof (details_keys E data names) as Hk.
    pose proof (first_occurrences_length names) as (Hle & _).
    rewrite <- Hk in Hle. unfold OrderedDict.keys in Hle.
    now rewrite length_map in Hle.
  - eexists. split; [cbn [trace step]; reflexivity |].
    unfold import_events. split.
    + rewrite !filter_app, !length_app. cbn [filter List.length Nat.eqb INFO DEBUG].
      assert (Hall : forall l : list string,
                 List.length
                   (filter (fun ev : event E => match ev with
                                                | Log _ lvl _ => Nat.eqb lvl DEBUG
                                                | _ => false
                                                end)
                      (map (fun n => Log E DEBUG ("Processing contingency: " ++ n)) l))
                 = List.length l).
      { induction l as [| a l IH]; [reflexivity |].
        cbn [map filter]. rewrite Nat.eqb_refl. cbn [List.length]. now rewrite IH. }
      rewrite Hall. cbn. lia.
    + rewrite !count_app, (count_map_none (is_engine_call E)) by reflexivity.
      reflexivity.
Qed.

(** *** The sheets when names coincide *)

Lemma setitems_keys {V} (kvs : list (string * V)) :
  forall d : OrderedDict.t V,
    OrderedDict.keys
      (fold_left (fun d kv => OrderedDict.setitem (fst kv) (snd kv) d) kvs d)
    = fold_left (fun seen n => if mem_string n seen then seen
                               else (seen ++ [n])%list)
                (map fst kvs) (OrderedDict.keys d).
Proof.
  induction kvs as [| [k v] kvs IH]; intros d; [reflexivity |].
  cbn [fold_left map fst snd]. now rewrite IH, setitem_keys.
Qed.

(** X14. Whatever the thirteen sheet names are, the results handed over
    have one sheet per distinct name, in the order in which the names first
    come up; there are never more than thirteen sheets, and there are
    thirteen exactly when the names are pairwise distinct: two categories
    under one name leave a single sheet. *)
Theorem sheets_follow_distinct_names (w : W E) :
  OrderedDict.keys (results_data E w) = first_occurrences (sheet_names E)
  /\ NoDup (OrderedDict.keys (results_data E w))
  /\ List.length (results_data E w) <= 13
  /\ (List.length (results_data E w) = 13 <-> NoDup (sheet_names E)).
Proof.
  assert (Hkeys : OrderedDict.keys (results_data E w)
                  = first_occurrences (sheet_names E)).
  { change (results_data E w)
      with (fold_left (fun d kv => OrderedDict.setitem (fst kv) (snd kv) d)
              (combine (sheet_names E)
                 (map (fun da => getattr E (fst da) (snd da) w) sheet_sources))
              []).
    rewrite setitems_keys. reflexivity. }
  assert (Hlen : List.length (results_data E w)
                 = List.length (first_occurrences (sheet_names E))).
  { rewrite <- Hkeys. unfold OrderedDict.keys. now rewrite length_map. }
  destruct (first_occurrences_length (sheet_names E)) as (Hle & Hiff).
  split; [exact Hkeys |].
  split; [rewrite Hkeys; apply first_occurrences_NoDup |].
  rewrite Hlen. split; [exact Hle | exact Hiff].
Qed.

(** *** The top-level loop *)

(** X15. An entry of the selection outside the six cases (below -6 or
    from 6 up) raises IndexError before anything is logged or loaded, and
    the loop, which catches ValueError only, lets it through: the entries
    after it are not run. *)
Theorem selection_out_of_range_stops_the_loop (i : Z) (rest : list Z) (st : St E) :
  (i < -6 \/ 6 <= i)%Z ->
  run_selection E (i :: rest) st
  = (Raise (IndexError "list index out of range"), st).
Proof.
  intros Hi. unfold run_selection. cbn [for_each]. unfold bind, run_selected.
  rewrite (index_out_of_range (pth_EirGrid_SAV E) i) by (cbn; lia).
  reflexivity.
Qed.

Lemma run_selected_in_range (i : Z) (st : St E) :
  (-6 <= i < 6)%Z ->
  exists evs w,
    run_selected E i st = (Ok tt, step E w evs st)
    /\ count E (is_solve E) evs = 1.
Proof.
  intros Hi.
  destruct (index_in_range (pth_EirGrid_SAV E) i) as (pth_sav & Hsav); [cbn; lia |].
  destruct (index_in_range (pth_results E) i) as (pth_res & Hres); [cbn; lia |].
  unfold run_selected. rewrite Hsav, Hres.
  unfold bind at 1. rewrite log_run.
  set (st0 := step E (world st) [Log E INFO ("Processing SAV case " ++ pth_sav)] st).
  destruct (run_load_flow E (opened E pth_sav (world st0)))
    as [[success islanded] w1] eqn:Hrun.
  destruct (base_case_cases success islanded) as [(-> & ->) | Hbad].
  - pose proof (main_ok E (pth_Contingencies E) pth_sav pth_res st0 w1 Hrun) as Hok.
    cbv zeta in Hok. rewrite Hok. clear Hok.
    unfold bind. unfold read. rewrite log_run.
    unfold st0. rewrite !step_step. cbn [world step].
    eexists. eexists. split; [reflexivity |].
    rewrite !count_app.
    rewrite (count_import (is_solve E)) by reflexivity.
    rewrite (count_passes (is_solve E) 0) by (intros [[? ?] ?]; reflexivity).
    rewrite (count_map_none (is_solve E)) by reflexivity.
    cbn. lia.
  - rewrite (main_fails E (pth_Contingencies E) pth_sav pth_res st0
               success islanded w1 Hrun Hbad).
    rewrite log_run. unfold st0. rewrite !step_step. cbn [world step].
    eexists. eexists. split; [reflexivity |].
    rewrite !count_app. reflexivity.
Qed.

(** X16. A selection whose entries all lie between -6 and 5 is run to its
    end whatever the base cases turn out to be: the loop returns, and it
    has had one base-case load flow run per entry, a failing base case
    included. *)
Theorem selection_in_range_runs_to_the_end (sel : list Z) :
  Forall (fun i => (-6 <= i < 6)%Z) sel ->
  forall st : St E,
    exists evs w,
      run_selection E sel st = (Ok tt, step E w evs st)
      /\ count E (is_solve E) evs = List.length sel.
Proof.
  induction 1 as [| i sel Hi Hsel IH]; intros st.
  - exists [], (world st). unfold run_selection. cbn [for_each]. unfold ret.
    rewrite step_nil. split; reflexivity.
  - destruct (run_selected_in_range i st Hi) as (e1 & w1 & Hone & Hc1).
    destruct (IH (step E w1 e1 st)) as (e2 & w2 & Hrest & Hc2).
    exists (e1 ++ e2)%list, w2.
    unfold run_selection in *. cbn [for_each]. unfold bind at 1.
    rewrite Hone, Hrest, step_step, count_app, Hc1, Hc2.
    split; reflexivity.
Qed.

Section Script.
Variable script_path : string.
Variable package_pth : string.
Variable package_parent_pth : string.


End Script.

End WithEnv.

End MoreMainFacts.

(** ** The plotting script: names of the figures, errors *)

Module MoreVisualisationFacts.
Import DataVisualisation.

Lemma rfind_from_get ch (s : string) :
  forall i last,
    OsPath.rfind_from ch s i last = last
    \/ ((i <= OsPath.rfind_from ch s i last)%Z
        /\ String.get (Z.to_nat (OsPath.rfind_from ch s i last - i)) s = Some ch).
Proof.
  induction s as [| a s IH]; intros i last; simpl; [now left |].
  destruct (Ascii.eqb a ch) eqn:Ha.
  - apply Ascii.eqb_eq in Ha. subst a.
    destruct (IH (i + 1)%Z i) as [Heq | (Hle & Hget)].
    + right. rewrite Heq. split; [lia |]. now rewrite Z.sub_diag.
    + right. split; [lia |].
      replace (Z.to_nat (OsPath.rfind_from ch s (i + 1) i - i))
        with (S (Z.to_nat (OsPath.rfind_from ch s (i + 1) i - (i + 1)))) by lia.
      exact Hget.
  - destruct (IH (i + 1)%Z last) as [Heq | (Hle & Hget)]; [now left |].
    right. split; [lia |].
    replace (Z.to_nat (OsPath.rfind_from ch s (i + 1) last - i))
      with (S (Z.to_nat (OsPath.rfind_from ch s (i + 1) last - (i + 1)))) by lia.
    exact Hget.
Qed.

Lemma rfind_get ch (p : string) :
  (0 <= OsPath.rfind ch p)%Z ->
  String.get (Z.to_nat (OsPath.rfind ch p)) p = Some ch.
Proof.
  unfold OsPath.rfind. intros Hpos.
  destruct (rfind_from_get ch p 0 (-1)) as [Heq | (_ & Hget)]; [lia |].
  now rewrite Z.sub_0_r in Hget.
Qed.

Lemma substring_from_get (p : string) :
  forall n ch, String.get n p = Some ch ->
    exists rest, substring n (String.length p - n) p = String ch rest.
Proof.
  induction p as [| a p IH]; intros [| n] ch; simpl; try discriminate.
  - intros Heq. inversion Heq; subst. eauto.
  - intros Hget. apply IH. exact Hget.
Qed.

Lemma append_cancel (a b c' : string) : a ++ b = a ++ c' -> b = c'.
Proof.
  induction a as [| x a IH]; simpl; [tauto |].
  intros Heq. inversion Heq. now apply IH.
Qed.

(** The extension that [_splitext] gives is empty or starts with the
    separator of extensions. *)
Lemma _splitext_extension p sep altsep extsep :
  snd (OsPath._splitext p sep altsep extsep) = EmptyString
  \/ exists rest, snd (OsPath._splitext p sep altsep extsep) = String extsep rest.
Proof.
  unfold OsPath._splitext.
  match goal with
  | |- context [if ?b then _ else _] => destruct b eqn:Hb
  end; simpl; [| now left].
  right. apply andb_true_iff in Hb. destruct Hb as (Hlt & _).
  apply Z.ltb_lt in Hlt.
  apply substring_from_get, rfind_get.
  assert (Hsep : (-1 <= OsPath.rfind sep p)%Z)
    by apply VisualisationFacts.rfind_bounds.
  destruct altsep as [alt |]; lia.
Qed.

Section WithEnv.
Variable P : PlotEnv.

(** X18. The name under which a figure is saved is the path of the
    workbook with its extension (nothing, or the part from the last dot of
    the file name on) replaced by [_Voltage.png]; it is never the path of
    the workbook itself, so saving the figure cannot overwrite the results
    it was drawn from. *)
Theorem figure_never_overwrites_its_source (source_file : string) :
  exists stem ext,
    source_file = stem ++ ext
    /\ fig_name_of P source_file = stem ++ "_Voltage.png"
    /\ (ext = EmptyString \/ exists rest, ext = String "." rest)
    /\ fig_name_of P source_file <> source_file.
Proof.
  exists (fst (splitext P source_file)), (snd (splitext P source_file)).
  assert (Hext : snd (splitext P source_file) = EmptyString
                 \/ exists rest, snd (splitext P source_file) = String "." rest).
  { unfold splitext, OsPath.ntpath_splitext, OsPath.posixpath_splitext.
    destruct (windows P); apply _splitext_extension. }
  pose proof (VisualisationFacts.splitext_concat P source_file) as Hcat.
  split; [now symmetry |].
  split; [apply VisualisationFacts.fig_name_of_stem |].
  split; [exact Hext |].
  rewrite VisualisationFacts.fig_name_of_stem. intros Heq.
  rewrite <- Hcat in Heq at 2. apply append_cancel in Heq.
  destruct Hext as [He | (rest & He)]; rewrite He in Heq; discriminate.
Qed.

Lemma visualise_raise i (st st' : St P) e :
  visualise P i st = (Raise e, st') ->
  st' = st
  /\ ((index (source_files P) i = None
       /\ e = IndexError "list index out of range")
      \/ exists f, index (source_files P) i = Some f
           /\ isfile (FileSystem := os P) (files st) f = true
           /\ plot P f (files st) = Raise e).
Proof.
  unfold visualise.
  destruct (index (source_files P) i) as [f |] eqn:Hi.
  - destruct (isfile (FileSystem := os P) (files st) f) eqn:Hf.
    + unfold produce_plots_voltage.
      destruct (plot P f (files st)) as [fig | e'] eqn:Hp;
        intros Heq; inversion Heq; subst.
      split; [reflexivity |]. right. exists f. auto.
    + unfold print. intros Heq. discriminate.
  - intros Heq. inversion Heq; subst. split; [reflexivity |]. now left.
Qed.

(** X19. When the script fails, it fails at one selected entry, for one of
    two reasons: the entry is outside the list of files, or the workbook
    exists and reading or drawing it raises. The entries before it have
    been dealt with, the failing entry has saved and printed nothing, and
    the entries after it are not looked at. *)
Theorem visualisation_stops_at_first_error (sel : list Z) :
  forall (st st' : St P) e,
    visualise_all P sel st = (Raise e, st') ->
    exists done i rest,
      sel = (done ++ i :: rest)%list
      /\ visualise_all P done st = (Ok tt, st')
      /\ visualise P i st' = (Raise e, st')
      /\ ((index (source_files P) i = None
           /\ e = IndexError "list index out of range")
          \/ exists f, index (source_files P) i = Some f
               /\ isfile (FileSystem := os P) (files st') f = true
               /\ plot P f (files st') = Raise e).
Proof.
  induction sel as [| i sel IH]; intros st st' e; cbn [visualise_all];
    [discriminate |].
  destruct (visualise P i st) as [[[] | e1] st1] eqn:Hone.
  - intros Hrest. destruct (IH st1 st' e Hrest) as (done & j & rest & -> & Hd & Hj & Hwhy).
    exists (i :: done), j, rest. split; [reflexivity |].
    split; [cbn [visualise_all]; now rewrite Hone |].
    split; assumption.
  - intros Heq. inversion Heq; subst.
    destruct (visualise_raise _ _ _ _ Hone) as (-> & Hwhy).
    exists [], i, sel. repeat split; assumption.
Qed.

End WithEnv.

End MoreVisualisationFacts.

(** ** The further properties on the small concrete engine *)

Module ToyMoreRuns.
Import Pandas Collaborators MainPy Runs Counting Toy ToyMore.

Lemma toy_columns_differ :
  Excel_message (constants toy_env) <> Excel_convergence (constants toy_env).
Proof. discriminate. Qed.

Lemma toy_bc_is_no_contingency :
  ~ In (Contingency_bc (constants toy_env))
       (OrderedDict.keys (details_of toy_env toy_workbook (map fst toy_workbook))).
Proof. vm_compute. intuition discriminate. Qed.

Lemma workbook_with_bc_distinct :
  NoDup (OrderedDict.keys
           (details_of toy_env workbook_with_bc (map fst workbook_with_bc))).
Proof.
  vm_compute. repeat (constructor; [simpl; intuition discriminate |]). constructor.
Qed.

(** The toy workbook has three contingencies: four loads, three tests. *)
Lemma calls_of_a_returning_run_witness :
  let st := toy_state toy_fs [] [] in
  exists r st',
    main toy_env "Contingencies.xlsx" "case.sav" "Results.xlsx" st = (Ok r, st')
    /\ exists evs,
         trace st' = (trace st ++ evs)%list
         /\ count toy_env (is_load toy_env) evs = 4
         /\ count toy_env (is_test toy_env) evs = 3
         /\ count toy_env (is_check toy_env) evs = 6.
Proof.
  intros st.
  destruct (main toy_env "Contingencies.xlsx" "case.sav" "Results.xlsx" st)
    as [[r | e] st'] eqn:Hmain; [| vm_compute in Hmain; discriminate Hmain].
  exists r, st'. split; [reflexivity |].
  destruct (MoreMainFacts.calls_of_a_returning_run toy_env
              "Contingencies.xlsx" "case.sav" "Results.xlsx" st st' r Hmain)
    as (evs & Htrace & Hload & _ & Htest & _ & _ & _ & Hcheck & _).
  exists evs. repeat split; assumption.
Defined.

Lemma base_case_row_is_kept_witness :
  let items := details_of toy_env toy_workbook (map fst toy_workbook) in
  let w := world (toy_state toy_fs [] []) in
  let df := contingency_convergence (loop_result toy_env items w) in
  df_index df = ["C1"; "C2"; "R1"; "BC"]
  /\ loc "BC" "Convergent" df = Some (CBool true).
Proof.
  intros items w df.
  destruct (MoreMainFacts.base_case_row_is_kept toy_env toy_columns_differ
              items w ToyRuns.toy_names_distinct toy_bc_is_no_contingency)
    as (Hidx & _ & _ & _ & Hconv).
  split; [exact Hidx | exact Hconv].
Defined.

Lemma base_case_row_is_overwritten_witness :
  let items := details_of toy_env workbook_with_bc (map fst workbook_with_bc) in
  let w := world (toy_state toy_fs [] []) in
  let df := contingency_convergence (loop_result toy_env items w) in
  In "BC" (OrderedDict.keys items)
  /\ df_index df = ["C1"; "BC"]
  /\ exists m k, loc "BC" "Message" df = Some (CStr m)
                 /\ loc "BC" "Convergent" df = Some (CBool k).
Proof.
  intros items w df.
  assert (Hin : In "BC" (OrderedDict.keys items)) by (right; left; reflexivity).
  split; [exact Hin |].
  destruct (MoreMainFacts.base_case_row_is_overwritten toy_env toy_columns_differ
              items w workbook_with_bc_distinct Hin)
    as (Hidx & m & k & _ & Hm & Hk).
  split; [exact Hidx |]. exists m, k. split; assumption.
Defined.

Lemma all_cont_names_distinct_witness :
  let items := details_of toy_env toy_workbook (map fst toy_workbook) in
  let w := world (toy_state toy_fs [] []) in
  NoDup (all_cont_names toy_env (loop_result toy_env items w))
  /\ List.length (all_cont_names toy_env (loop_result toy_env items w)) = 4.
Proof.
  intros items w.
  destruct (MoreMainFacts.all_cont_names_distinct toy_env items w
              ToyRuns.toy_names_distinct toy_bc_is_no_contingency)
    as (Hnd & _ & Hlen).
  split; [exact Hnd | exact Hlen].
Defined.

(** The list of cases has six entries: entry 6 does not exist, and entry 5
    after it is not run. *)
Lemma selection_out_of_range_stops_the_loop_witness :
  let st := toy_state toy_fs [] [] in
  run_selection toy_env [6; 5]%Z st
  = (Raise (IndexError "list index out of range"), st).
Proof.
  intros st.
  apply (MoreMainFacts.selection_out_of_range_stops_the_loop toy_env 6 [5%Z] st).
  right. lia.
Defined.

(** The last case counted from the front and from the back, the first time
    with a base case that does not converge. *)
Lemma selection_in_range_runs_to_the_end_witness :
  let sav := nth 5 (pth_EirGrid_SAV toy_env) "" in
  let st := toy_state toy_fs [sav] [] in
  exists evs w,
    run_selection toy_env [5; -1]%Z st = (Ok tt, step toy_env w evs st)
    /\ count toy_env (is_solve toy_env) evs = 2.
Proof.
  intros sav st.
  assert (Hsel : Forall (fun i => (-6 <= i < 6)%Z) [5; -1]%Z)
    by (repeat constructor; lia).
  destruct (MoreMainFacts.selection_in_range_runs_to_the_end toy_env [5; -1]%Z
              Hsel st) as (evs & w & Hrun & Hcount).
  exists evs, w. split; [exact Hrun | exact Hcount].
Defined.

(** The second workbook of the three selected cannot be read: the first
    figure is saved, the third workbook is not looked at. *)
Lemma visualisation_stops_at_first_error_witness :
  let P := ToyMore.broken_plot_env
             (nth 4 (DataVisualisation.source_files toy_plot_env) "") in
  let fs := {| toy_dirs := [];
               toy_files := [nth 3 (DataVisualisation.source_files toy_plot_env) "";
                             nth 4 (DataVisualisation.source_files toy_plot_env) "";
                             nth 5 (DataVisualisation.source_files toy_plot_env) ""];
               toy_denied := [] |} in
  let st := DataVisualisation.Build_St P fs [] in
  exists e st',
    DataVisualisation.visualise_all P DataVisualisation.selector st = (Raise e, st')
    /\ exists done i rest,
         DataVisualisation.selector = (done ++ i :: rest)%list
         /\ DataVisualisation.visualise_all P done st = (Ok tt, st')
         /\ DataVisualisation.visualise P i st' = (Raise e, st').
Proof.
  intros P fs st.
  destruct (DataVisualisation.visualise_all P DataVisualisation.selector st)
    as [[[] | e] st'] eqn:Hall; [vm_compute in Hall; discriminate Hall |].
  exists e, st'. split; [reflexivity |].
  destruct (MoreVisualisationFacts.visualisation_stops_at_first_error P
              DataVisualisation.selector st st' e Hall)
    as (done & i & rest & Hsel & Hdone & Hi & _).
  exists done, i, rest. repeat split; assumption.
Defined.

End ToyMoreRuns.

(** ** What the handlers write *)

Module EmissionFacts.
Import Py LoggerModel Emission.

Lemma flush_buffer_file f lv (b : list nat) :
  forall hp w,
    flush_buffer (FileHandler f lv) b (hp, w)
    = (hp, (w ++ map (fun i => (FileHandler f lv, format (nth i hp no_record))) b)%list).
Proof.
  unfold flush_buffer.
  induction b as [| i b IH]; intros hp w; cbn [fold_left map].
  - now rewrite app_nil_r.
  - cbn [emit_direct]. rewrite IH. now rewrite <- app_assoc.
Qed.

Lemma set_record_last (hp : list LogRecord) r x :
  set_record (List.length hp) x (hp ++ [r]) = (hp ++ [x])%list.
Proof. induction hp as [| y hp IH]; simpl; [reflexivity | now rewrite IH]. Qed.

Lemma lines_in_app h (w1 w2 : list (Handler * string)) :
  lines_in h (w1 ++ w2) = (lines_in h w1 ++ lines_in h w2)%list.
Proof. unfold lines_in. now rewrite filter_app, map_app. Qed.

Lemma lines_in_same {A} h (g : A -> string) (b : list A) :
  lines_in h (map (fun i => (h, g i)) b) = map g b.
Proof.
  unfold lines_in. induction b as [| i b IH]; cbn [map filter fst]; [reflexivity |].
  rewrite MoreLoggerFacts.Handler_eqb_refl. cbn [map snd]. now rewrite IH.
Qed.

Lemma lines_in_other {A} h h' (g : A -> string) (b : list A) :
  Handler_eqb h' h = false ->
  lines_in h (map (fun i => (h', g i)) b) = [].
Proof.
  intros Hne. unfold lines_in.
  induction b as [| i b IH]; cbn [map filter fst]; [reflexivity |].
  rewrite Hne. exact IH.
Qed.

Section Handlers.
Variable L : Logger.
Variables p d e : option string.
Variable sl : nat.

Let fp := FileHandler p 0.
Let fd := FileHandler d 0.
Let hp := MemoryHandler 10 ERROR fp INFO.
Let hd := MemoryHandler 100000 CRITICAL fd DEBUG.
Let he := FileHandler e ERROR.
Let hs := StreamHandler sl.

Hypothesis Hhandlers : logger_handlers L = [hp; hd; he; hs].
Hypothesis Hprogress : handler_progress_log L = Some hp.
Hypothesis Herror : handler_error_log L = Some he.

Lemma flush_fp b h w :
  flush_buffer fp b (h, w)
  = (h, (w ++ map (fun i => (fp, format (nth i h no_record))) b)%list).
Proof. apply flush_buffer_file. Qed.

Lemma flush_fd b h w :
  flush_buffer fd b (h, w)
  = (h, (w ++ map (fun i => (fd, format (nth i h no_record))) b)%list).
Proof. apply flush_buffer_file. Qed.

Lemma submit_step t l m (s : Sinks) pb db eb sb :
  (DEBUG <=? l)%nat = true ->
  buffers s = [pb; db; eb; sb] ->
  let r := record_of t l m in
  let id := List.length (heap s) in
  let h1 := (heap s ++ [r])%list in
  let flushp := ((10 <=? N.of_nat (List.length (pb ++ [id])))%N || (ERROR <=? l)%nat) in
  let flushd := ((100000 <=? N.of_nat (List.length (db ++ [id])))%N || (CRITICAL <=? l)%nat) in
  act L (Submit t l m) s
  = {| heap := (heap s ++ [if (sl <=? l)%nat then decorate r else r])%list;
       buffers := [ if (INFO <=? l)%nat
                    then (if flushp then [] else (pb ++ [id])%list) else pb;
                    if flushd then [] else (db ++ [id])%list; eb; sb ];
       written :=
         (written s
          ++ (if (INFO <=? l)%nat && flushp
              then map (fun i => (fp, format (nth i h1 no_record))) (pb ++ [id])
              else [])
          ++ (if flushd
              then map (fun i => (fd, format (nth i h1 no_record))) (db ++ [id])
              else [])
          ++ (if (ERROR <=? l)%nat then [(he, format r)] else [])
          ++ (if (sl <=? l)%nat then [(hs, format (decorate r))] else []))%list |}.
Proof.
  intros Hl Hb r id h1 flushp flushd.
  unfold act. rewrite Hl, Hhandlers, Hb.
  fold r. fold id. fold h1.
  assert (Hnth : nth id h1 no_record = r) by apply nth_middle.
  assert (Hlev : levelno r = l) by reflexivity.
  cbn [call_handlers hp hd he hs handler_level fst snd].
  rewrite Hnth, Hlev.
  destruct (INFO <=? l)%nat eqn:Hinfo; cbn [andb];
    cbn [handle hp fst snd]; rewrite ?Hnth, ?Hlev; fold flushp;
    try (destruct flushp eqn:Hfp; [rewrite flush_fp |]);
    cbn [fst snd]; rewrite ?Hnth, ?Hlev, Hl;
    cbn [handle hd fst snd]; rewrite ?Hnth, ?Hlev; fold flushd;
    (destruct flushd eqn:Hfd; [rewrite flush_fd |]);
    cbn [fst snd]; rewrite ?Hnth, ?Hlev;
    destruct (ERROR <=? l)%nat eqn:Herr; cbn [handle emit_direct he fst snd];
    rewrite ?Hnth, ?Hlev;
    destruct (sl <=? l)%nat eqn:Hsl; cbn [handle emit_direct hs fst snd];
    rewrite ?Hnth; unfold h1, id; rewrite ?set_record_last, ?nth_middle;
    cbn [fst snd Datatypes.app]; rewrite <- ?app_assoc, ?app_nil_r; try reflexivity.

Qed.

Lemma flush_step (s : Sinks) pb db eb sb :
  buffers s = [pb; db; eb; sb] ->
  act L Flush s
  = {| heap := heap s;
       buffers := [[]; db; eb; sb];
       written :=
         (written s
          ++ map (fun i => (fp, format (nth i (heap s) no_record))) pb)%list |}.
Proof.
  intros Hb. unfold act. rewrite Hprogress, Herror, Hhandlers, Hb.
  cbv beta zeta iota.
  assert (Hfirst : flush_handler hp [hp; hd; he; hs] [pb; db; eb; sb]
                     (heap s, written s)
                   = ([[]; db; eb; sb],
                      (heap s,
                       (written s
                        ++ map (fun i => (fp, format (nth i (heap s) no_record))) pb)%list))).
  { cbn [flush_handler]. rewrite MoreLoggerFacts.Handler_eqb_refl. unfold hp.
    now rewrite flush_fp. }
  cbn [fst snd]. rewrite Hfirst. cbn [fst snd].
  assert (Hsecond : forall hw,
             flush_handler he [hp; hd; he; hs] [[]; db; eb; sb] hw
             = ([[]; db; eb; sb], hw)).
  { intros hw. cbn [flush_handler].
    replace (Handler_eqb he hp) with false by reflexivity.
    replace (Handler_eqb he hd) with false by reflexivity.
    rewrite MoreLoggerFacts.Handler_eqb_refl. unfold he. reflexivity. }
  rewrite Hsecond. reflexivity.
Qed.

Lemma submit_below t l m (s : Sinks) :
  (DEBUG <=? l)%nat = false -> act L (Submit t l m) s = s.
Proof. intros Hl. unfold act. now rewrite Hl. Qed.

Lemma fp_is_not_he : Handler_eqb fp he = false.
Proof.
  unfold fp, he. cbn [Handler_eqb].
  replace (Nat.eqb 0 ERROR) with false by reflexivity. apply andb_false_r.
Qed.

Lemma fd_is_not_he : Handler_eqb fd he = false.
Proof.
  unfold fd, he. cbn [Handler_eqb].
  replace (Nat.eqb 0 ERROR) with false by reflexivity. apply andb_false_r.
Qed.

Lemma he_is_not_fp : Handler_eqb he fp = false.
Proof.
  unfold fp, he. cbn [Handler_eqb].
  replace (Nat.eqb ERROR 0) with false by reflexivity. apply andb_false_r.
Qed.

Lemma he_is_not_fd : Handler_eqb he fd = false.
Proof.
  unfold fd, he. cbn [Handler_eqb].
  replace (Nat.eqb ERROR 0) with false by reflexivity. apply andb_false_r.
Qed.

Lemma lines_in_if_other {A} h h' (cnd : bool) (g : A -> string) (b : list A) :
  Handler_eqb h' h = false ->
  lines_in h (if cnd then map (fun i => (h', g i)) b else []) = [].
Proof. intros Hne. destruct cnd; [now apply lines_in_other | reflexivity]. Qed.

Lemma lines_in_if_same {A} h (cnd : bool) (g : A -> string) (b : list A) :
  lines_in h (if cnd then map (fun i => (h, g i)) b else [])
  = if cnd then map g b else [].
Proof. destruct cnd; [apply lines_in_same | reflexivity]. Qed.

Lemma lines_in_one_other h h' (x : string) :
  Handler_eqb h' h = false -> lines_in h [(h', x)] = [].
Proof. intros Hne. unfold lines_in. cbn [filter fst]. now rewrite Hne. Qed.

Lemma lines_in_nil h : lines_in h [] = [].
Proof. reflexivity. Qed.

Lemma lines_in_if_one_other h h' (cnd : bool) (x : string) :
  Handler_eqb h' h = false ->
  lines_in h (if cnd then [(h', x)] else []) = [].
Proof.
  intros Hne. destruct cnd; [| reflexivity].
  unfold lines_in. cbn [filter fst]. now rewrite Hne.
Qed.

Lemma lines_in_if_one_same h (cnd : bool) (x : string) :
  lines_in h (if cnd then [(h, x)] else []) = if cnd then [x] else [].
Proof.
  destruct cnd; [| reflexivity].
  unfold lines_in. cbn [filter fst]. now rewrite MoreLoggerFacts.Handler_eqb_refl.
Qed.

Lemma records_of_cons a acts :
  records_of (a :: acts)
  = (match a with
     | Submit t l m => if (DEBUG <=? l)%nat then [record_of t l m] else []
     | Flush => []
     end ++ records_of acts)%list.
Proof. reflexivity. Qed.

(** The file of the error handler. *)
Lemma error_lines_from (acts : list action) :
  forall (s : Sinks) pb db eb sb,
    buffers s = [pb; db; eb; sb] ->
    lines_in he (written (run L acts s))
    = (lines_in he (written s)
       ++ map format (filter (fun r => (ERROR <=? levelno r)%nat) (records_of acts)))%list.
Proof.
  induction acts as [| a acts IH]; intros s pb db eb sb Hb.
  - cbn. now rewrite app_nil_r.
  - change (run L (a :: acts) s) with (run L acts (act L a s)).
    rewrite records_of_cons, filter_app, map_app.
    destruct a as [t l m |].
    + destruct (DEBUG <=? l)%nat eqn:Hl.
      * rewrite (submit_step t l m s pb db eb sb Hl Hb). cbv zeta.
        erewrite IH by reflexivity. cbn [written].
        rewrite !lines_in_app.
        rewrite (lines_in_if_other he fp) by exact fp_is_not_he.
        rewrite (lines_in_if_other he fd) by exact fd_is_not_he.
        rewrite lines_in_if_one_same.
        rewrite (lines_in_if_one_other he hs) by reflexivity.
        cbn [filter levelno record_of Datatypes.app].
        rewrite <- !app_assoc. f_equal.
        destruct (ERROR <=? l)%nat; reflexivity.
      * rewrite (submit_below t l m s Hl). now apply (IH s pb db eb sb).
    + rewrite (flush_step s pb db eb sb Hb).
      erewrite IH by reflexivity. cbn [written].
      rewrite lines_in_app, (lines_in_other he fp) by exact fp_is_not_he.
      now rewrite app_nil_r.
Qed.

(** The console. *)
Lemma stream_lines_from (acts : list action) :
  forall (s : Sinks) pb db eb sb,
    buffers s = [pb; db; eb; sb] ->
    lines_in hs (written (run L acts s))
    = (lines_in hs (written s)
       ++ map (fun r => format (decorate r))
            (filter (fun r => (sl <=? levelno r)%nat) (records_of acts)))%list.
Proof.
  induction acts as [| a acts IH]; intros s pb db eb sb Hb.
  - cbn. now rewrite app_nil_r.
  - change (run L (a :: acts) s) with (run L acts (act L a s)).
    rewrite records_of_cons, filter_app, map_app.
    destruct a as [t l m |].
    + destruct (DEBUG <=? l)%nat eqn:Hl.
      * rewrite (submit_step t l m s pb db eb sb Hl Hb). cbv zeta.
        erewrite IH by reflexivity. cbn [written].
        rewrite !lines_in_app.
        rewrite (lines_in_if_other hs fp) by reflexivity.
        rewrite (lines_in_if_other hs fd) by reflexivity.
        rewrite (lines_in_if_one_other hs he) by reflexivity.
        rewrite lines_in_if_one_same.
        cbn [filter levelno record_of Datatypes.app].
        rewrite <- !app_assoc. f_equal.
        destruct (sl <=? l)%nat; reflexivity.
      * rewrite (submit_below t l m s Hl). now apply (IH s pb db eb sb).
    + rewrite (flush_step s pb db eb sb Hb).
      erewrite IH by reflexivity. cbn [written].
      rewrite lines_in_app, (lines_in_other hs fp) by reflexivity.
      now rewrite app_nil_r.
Qed.

Section TwoFiles.
Hypothesis Hfiles : p <> d.

Lemma fd_is_not_fp : Handler_eqb fd fp = false.
Proof.
  unfold fd, fp. cbn [Handler_eqb]. apply andb_false_intro1.
  destruct d as [x |], p as [y |]; try reflexivity.
  - apply String.eqb_neq. intros ->. now apply Hfiles.
  - now contradiction Hfiles.
Qed.

Lemma fp_is_not_fd : Handler_eqb fp fd = false.
Proof.
  unfold fd, fp. cbn [Handler_eqb]. apply andb_false_intro1.
  destruct d as [x |], p as [y |]; try reflexivity.
  - apply String.eqb_neq. intros ->. now apply Hfiles.
  - now contradiction Hfiles.
Qed.

(** The file of the debug handler stays empty. *)
Lemma debug_lines_from (acts : list action) :
  forall (s : Sinks) pb db eb sb,
    buffers s = [pb; db; eb; sb] ->
    Forall (fun r => levelno r < CRITICAL) (records_of acts) ->
    (N.of_nat (List.length db) + N.of_nat (List.length (records_of acts)) < 100000)%N ->
    lines_in fd (written (run L acts s)) = lines_in fd (written s).
Proof.
  induction acts as [| a acts IH]; intros s pb db eb sb Hb Hlow Hfew;
    [reflexivity |].
  change (run L (a :: acts) s) with (run L acts (act L a s)).
  rewrite records_of_cons in Hlow, Hfew.
  apply Forall_app in Hlow. destruct Hlow as (Hlow1 & Hlow).
  rewrite length_app in Hfew.
  destruct a as [t l m |].
  - destruct (DEBUG <=? l)%nat eqn:Hl.
    + rewrite (submit_step t l m s pb db eb sb Hl Hb). cbv zeta.
      assert (Hcrit : (CRITICAL <=? l)%nat = false).
      { apply Nat.leb_gt. inversion Hlow1; subst. assumption. }
      assert (Hcap : (100000 <=? N.of_nat (List.length (db ++ [List.length (heap s)])))%N
                     = false).
      { apply N.leb_gt. rewrite length_app. cbn [List.length] in *. lia. }
      rewrite Hcap, Hcrit. cbn [orb].
      erewrite IH; [| reflexivity | exact Hlow
                    | rewrite length_app; cbn [List.length] in *; lia].
      cbn [written]. rewrite !lines_in_app.
      rewrite (lines_in_if_other fd fp) by exact fp_is_not_fd.
      rewrite (lines_in_if_one_other fd he) by exact he_is_not_fd.
      rewrite (lines_in_if_one_other fd hs) by reflexivity.
      now rewrite !app_nil_r.
    + rewrite (submit_below t l m s Hl). apply (IH s pb db eb sb Hb Hlow).
      cbn [List.length] in Hfew. lia.
  - rewrite (flush_step s pb db eb sb Hb).
    erewrite IH; [| reflexivity | exact Hlow | cbn [List.length] in Hfew; lia].
    cbn [written]. rewrite lines_in_app, (lines_in_other fd fp) by exact fp_is_not_fd.
    now rewrite app_nil_r.
Qed.

Lemma debug_buffer_from (acts : list action) :
  forall (s : Sinks) pb db eb sb,
    buffers s = [pb; db; eb; sb] ->
    Forall (fun r => levelno r < CRITICAL) (records_of acts) ->
    (N.of_nat (List.length db) + N.of_nat (List.length (records_of acts)) < 100000)%N ->
    exists pb' db',
      buffers (run L acts s) = [pb'; db'; eb; sb]
      /\ List.length db' = List.length db + List.length (records_of acts).
Proof.
  induction acts as [| a acts IH]; intros s pb db eb sb Hb Hlow Hfew.
  - exists pb, db. split; [exact Hb | cbn; lia].
  - change (run L (a :: acts) s) with (run L acts (act L a s)).
    rewrite records_of_cons in Hlow, Hfew |- *.
    apply Forall_app in Hlow. destruct Hlow as (Hlow1 & Hlow).
    rewrite length_app in Hfew |- *.
    destruct a as [t l m |].
    + destruct (DEBUG <=? l)%nat eqn:Hl.
      * rewrite (submit_step t l m s pb db eb sb Hl Hb). cbv zeta.
        assert (Hcrit : (CRITICAL <=? l)%nat = false).
        { apply Nat.leb_gt. inversion Hlow1; subst. assumption. }
        assert (Hcap : (100000 <=? N.of_nat (List.length (db ++ [List.length (heap s)])))%N
                       = false).
        { apply N.leb_gt. rewrite length_app. cbn [List.length] in *. lia. }
        rewrite Hcap, Hcrit. cbn [orb].
        match goal with
        | |- context [run L acts ?s'] =>
            destruct (IH s' _ _ _ _ eq_refl Hlow) as (pb' & db' & Hb' & Hlen');
              [rewrite length_app; cbn [List.length] in *; lia |]
        end.
        exists pb', db'. split; [exact Hb' |].
        rewrite Hlen', length_app. cbn [List.length]. lia.
      * rewrite (submit_below t l m s Hl).
        destruct (IH s pb db eb sb Hb Hlow) as (pb' & db' & Hb' & Hlen');
          [cbn [List.length] in Hfew; lia |].
        exists pb', db'. split; [exact Hb' | cbn [List.length]; lia].
    + rewrite (flush_step s pb db eb sb Hb).
      match goal with
      | |- context [run L acts ?s'] =>
          destruct (IH s' _ _ _ _ eq_refl Hlow) as (pb' & db' & Hb' & Hlen');
            [cbn [List.length] in Hfew; lia |]
      end.
      exists pb', db'. split; [exact Hb' | cbn [List.length]; lia].
Qed.

Lemma critical_flush t l m (s : Sinks) pb db eb sb :
  buffers s = [pb; db; eb; sb] ->
  CRITICAL <= l ->
  lines_in fd (written (act L (Submit t l m) s))
  = (lines_in fd (written s)
     ++ map (fun i => format (nth i (heap s ++ [record_of t l m]) no_record))
          (db ++ [List.length (heap s)]))%list.
Proof using Hhandlers Hprogress Herror Hfiles.
  intros Hb Hl.
  assert (Hdebug : (DEBUG <=? l)%nat = true)
    by (apply Nat.leb_le; unfold DEBUG, CRITICAL in *; lia).
  assert (Hcrit : (CRITICAL <=? l)%nat = true) by now apply Nat.leb_le.
  rewrite (submit_step t l m s pb db eb sb Hdebug Hb). cbv zeta.
  rewrite Hcrit, orb_true_r. cbn [written]. rewrite !lines_in_app.
  rewrite (lines_in_if_other fd fp) by exact fp_is_not_fd.
  rewrite lines_in_same.
  rewrite (lines_in_if_one_other fd he) by exact he_is_not_fd.
  rewrite (lines_in_if_one_other fd hs) by reflexivity.
  now rewrite !app_nil_r.
Qed.

Hypothesis Hstream : sl <= INFO.

Lemma kept_records_stay (h : list LogRecord) x (b : list nat) :
  Forall (fun i => i < List.length h) b ->
  map (fun i => nth i (h ++ [x]) no_record) b = map (fun i => nth i h no_record) b.
Proof.
  intros Hb. apply map_ext_in. intros i Hi. cbv beta in Hi |- *.
  rewrite Forall_forall in Hb. now apply app_nth1, Hb.
Qed.

(** The file of the progress handler. *)
Lemma progress_lines_from (acts : list action) :
  forall (s : Sinks) pb db eb sb pending,
    buffers s = [pb; db; eb; sb] ->
    map (fun i => nth i (heap s) no_record) pb = map decorate pending ->
    Forall (fun i => i < List.length (heap s)) pb ->
    lines_in fp (written (run L acts s))
    = (lines_in fp (written s) ++ progress_lines acts pending)%list.
Proof.
  induction acts as [| a acts IH]; intros s pb db eb sb pending Hb Hkept Hids.
  - cbn. now rewrite app_nil_r.
  - change (run L (a :: acts) s) with (run L acts (act L a s)).
    assert (Hlen : List.length pb = List.length pending).
    { apply (f_equal (@List.length _)) in Hkept. now rewrite !length_map in Hkept. }
    destruct a as [t l m |]; cbn [progress_lines].
    + destruct (DEBUG <=? l)%nat eqn:Hl.
      * rewrite (submit_step t l m s pb db eb sb Hl Hb). cbv zeta.
        replace (10 <=? N.of_nat (List.length (pb ++ [List.length (heap s)])))%N
          with (10 <=? List.length pending + 1)%nat
          by (rewrite length_app, Hlen; cbn [List.length];
              destruct (10 <=? List.length pending + 1)%nat eqn:Hc;
              [apply Nat.leb_le in Hc; symmetry; apply N.leb_le; lia
              | apply Nat.leb_gt in Hc; symmetry; apply N.leb_gt; lia]).
        destruct (INFO <=? l)%nat eqn:Hinfo; cbn [andb].
        -- assert (Hsl : (sl <=? l)%nat = true)
             by (apply Nat.leb_le; apply Nat.leb_le in Hinfo; lia).
           rewrite Hsl.
           destruct ((10 <=? List.length pending + 1)%nat || (ERROR <=? l)%nat)
             eqn:Hflush.
           ++ erewrite (IH _ [] _ _ _ []); [| reflexivity | reflexivity | constructor].
              cbn [written]. rewrite !lines_in_app.
              rewrite lines_in_same.
              rewrite (lines_in_if_other fp fd) by exact fd_is_not_fp.
              rewrite (lines_in_if_one_other fp he) by exact he_is_not_fp.
              rewrite (lines_in_one_other fp hs) by reflexivity.
              rewrite !app_nil_r, <- !app_assoc. f_equal.
              rewrite map_app. cbn [map]. rewrite nth_middle.
              change (fun i => format (nth i (heap s ++ [record_of t l m]) no_record))
                with (fun i => format ((fun i => nth i (heap s ++ [record_of t l m]) no_record) i)).
              rewrite <- (map_map _ format), kept_records_stay by exact Hids.
              rewrite Hkept, map_map, <- app_assoc. reflexivity.
           ++ erewrite (IH _ _ _ _ _ (pending ++ [record_of t l m])%list);
                [| reflexivity | |].
              ** cbn [written]. rewrite !lines_in_app.
                 rewrite lines_in_nil.
                 rewrite (lines_in_if_other fp fd) by exact fd_is_not_fp.
                 rewrite (lines_in_if_one_other fp he) by exact he_is_not_fp.
                 rewrite (lines_in_one_other fp hs) by reflexivity.
                 now rewrite !app_nil_r.
              ** cbn [heap]. rewrite !map_app. cbn [map]. rewrite nth_middle.
                 rewrite kept_records_stay by exact Hids. now rewrite Hkept.
              ** cbn [heap]. apply Forall_app. split.
                 --- eapply Forall_impl; [| exact Hids]. intros i Hi. cbv beta in Hi |- *.
                     rewrite length_app. cbn [List.length]. lia.
                 --- constructor; [| constructor].
                     rewrite length_app. cbn [List.length]. lia.
        -- erewrite (IH _ _ _ _ _ pending); [| reflexivity | |].
           ++ cbn [written]. rewrite !lines_in_app.
              rewrite lines_in_nil.
              rewrite (lines_in_if_other fp fd) by exact fd_is_not_fp.
              rewrite (lines_in_if_one_other fp he) by exact he_is_not_fp.
              rewrite (lines_in_if_one_other fp hs) by reflexivity.
              now rewrite !app_nil_r.
           ++ cbn [heap]. rewrite kept_records_stay by exact Hids. exact Hkept.
           ++ cbn [heap]. eapply Forall_impl; [| exact Hids]. intros i Hi. cbv beta in Hi |- *.
              rewrite length_app. cbn [List.length]. lia.
      * rewrite (submit_below t l m s Hl).
        assert (Hinfo : (INFO <=? l)%nat = false).
        { apply Nat.leb_gt. apply Nat.leb_gt in Hl. unfold INFO, DEBUG in *. lia. }
        rewrite Hinfo. now apply (IH s pb db eb sb).
    + rewrite (flush_step s pb db eb sb Hb).
      erewrite (IH _ [] _ _ _ []); [| reflexivity | reflexivity | constructor].
      cbn [written]. rewrite lines_in_app, lines_in_same.
      rewrite <- app_assoc. f_equal. f_equal.
      change (fun i => format (nth i (heap s) no_record))
        with (fun i => format ((fun i => nth i (heap s) no_record) i)).
      rewrite <- (map_map _ format), Hkept, map_map. reflexivity.
Qed.

End TwoFiles.

End Handlers.

Lemma run_app L (acts1 acts2 : list action) (s : Sinks) :
  run L (acts1 ++ acts2) s = run L acts2 (run L acts1 s).
Proof. apply fold_left_app. Qed.

Lemma progress_lines_after_flush (acts : list action) :
  forall pending,
    List.length (progress_lines (acts ++ [Flush]) pending)
    = List.length pending
      + List.length (filter (fun r => (INFO <=? levelno r)%nat) (records_of acts)).
Proof.
  induction acts as [| a acts IH]; intros pending.
  - cbn. rewrite app_nil_r, length_map. lia.
  - rewrite records_of_cons, filter_app, length_app.
    destruct a as [t l m |]; cbn [Datatypes.app progress_lines].
    + destruct (INFO <=? l)%nat eqn:Hinfo.
      * assert (Hl : (DEBUG <=? l)%nat = true)
          by (apply Nat.leb_le; apply Nat.leb_le in Hinfo;
              unfold INFO, DEBUG in *; lia).
        rewrite Hl. cbn [filter levelno record_of]. rewrite Hinfo.
        destruct ((10 <=? List.length pending + 1)%nat || (ERROR <=? l)%nat).
        -- rewrite length_app, length_map. cbn [List.length]. rewrite IH.
           cbn [List.length]. lia.
        -- rewrite IH, !length_app. cbn [List.length]. lia.
      * rewrite IH. destruct (DEBUG <=? l)%nat; cbn [filter levelno record_of];
          rewrite ?Hinfo; cbn [List.length]; lia.
    + rewrite length_app, length_map, IH. cbn [filter List.length]. lia.
Qed.

Lemma fresh_after_setup (L0 : Logger) :
  buffers (fresh (setup_logging L0)) = [[]; []; []; []].
Proof.
  unfold fresh. cbn [buffers].
  destruct (MoreLoggerFacts.setup_logging_handlers L0) as (Hh & _). now rewrite Hh.
Qed.

(** X20. After [setup_logging], the error handler writes one line for each
    record of level ERROR or above, in the order in which the records were
    made, each as it was made (no colour codes): the handler comes before
    the console handler, which is the one that colours records. Flushing
    adds nothing. *)
Theorem error_log_holds_the_errors (L0 : Logger) (acts : list action) :
  let L := setup_logging L0 in
  lines_of (FileHandler (pth_error_log L0) ERROR) (run L acts (fresh L))
  = map format (filter (fun r => (ERROR <=? levelno r)%nat) (records_of acts)).
Proof.
  intros L. destruct (MoreLoggerFacts.setup_logging_handlers L0) as (Hh & Hp & _ & He & _).
  unfold lines_of.
  rewrite (error_lines_from L _ _ _ _ Hh Hp He acts (fresh L) [] [] [] []
             (fresh_after_setup L0)).
  reflexivity.
Qed.

(** X21. After [setup_logging], the console shows every record at or above
    the level of the stream handler (DEBUG in debug mode, INFO otherwise),
    in order, with the level name and the message wrapped in the colour
    code of the level by [decorate_emit]. *)
Theorem console_shows_coloured_records (L0 : Logger) (acts : list action) :
  let L := setup_logging L0 in
  let level := if debug_mode L0 then DEBUG else INFO in
  lines_of (StreamHandler level) (run L acts (fresh L))
  = map (fun r => format (decorate r))
      (filter (fun r => (level <=? levelno r)%nat) (records_of acts)).
Proof.
  intros L level. subst level. destruct (MoreLoggerFacts.setup_logging_handlers L0) as (Hh & Hp & _ & He & _).
  unfold lines_of.
  rewrite (stream_lines_from L _ _ _ _ Hh Hp He acts (fresh L) [] [] [] []
             (fresh_after_setup L0)).
  reflexivity.
Qed.

(** X22. With different paths for the progress and the debug log (so that
    their two file handlers differ), the file handler behind the progress
    handler writes what [progress_lines] says: records from INFO up are
    kept back until one has level ERROR, is the tenth kept, or the instance
    is flushed; the records kept earlier are then written with the colour
    codes that the console handler has put into them, and only the record
    that sets off the writing is written as it was made. After a flush
    nothing is held back: one line has been written per record from INFO
    up. *)
Theorem progress_log_lines (L0 : Logger) (acts : list action) :
  pth_progress_log L0 <> pth_debug_log L0 ->
  let L := setup_logging L0 in
  let file := FileHandler (pth_progress_log L0) 0 in
  lines_of file (run L acts (fresh L)) = progress_lines acts []
  /\ List.length (lines_of file (run L (acts ++ [Flush]) (fresh L)))
     = List.length (filter (fun r => (INFO <=? levelno r)%nat) (records_of acts)).
Proof.
  intros Hfiles L file. subst file.
  destruct (MoreLoggerFacts.setup_logging_handlers L0) as (Hh & Hp & _ & He & _).
  assert (Hsl : (if debug_mode L0 then DEBUG else INFO) <= INFO)
    by (destruct (debug_mode L0); unfold DEBUG, INFO; lia).
  assert (Hall : forall acts', lines_of (FileHandler (pth_progress_log L0) 0) (run L acts' (fresh L))
                               = progress_lines acts' []).
  { intros acts'. unfold lines_of.
    rewrite (progress_lines_from L _ _ _ _ Hh Hp He Hfiles Hsl acts' (fresh L)
               [] [] [] [] [] (fresh_after_setup L0) eq_refl (Forall_nil _)).
    reflexivity. }
  split; [apply Hall |].
  rewrite Hall. apply (progress_lines_after_flush acts []).
Qed.

(** X23. With different paths for the progress and the debug log (so that
    their two file handlers differ), the file handler behind the debug
    handler writes nothing while no record has level CRITICAL and fewer
    than 100000 records have been made: a WARNING or an ERROR does not
    make it write, and flushing the instance does not either. The first
    CRITICAL record then writes one line for every record made so far, the
    DEBUG ones included. *)
Theorem debug_log_waits_for_a_critical (L0 : Logger) (acts : list action) :
  pth_progress_log L0 <> pth_debug_log L0 ->
  Forall (fun r => levelno r < CRITICAL) (records_of acts) ->
  (N.of_nat (List.length (records_of acts)) < 100000)%N ->
  let L := setup_logging L0 in
  let file := FileHandler (pth_debug_log L0) 0 in
  lines_of file (run L acts (fresh L)) = []
  /\ forall t l m,
       CRITICAL <= l ->
       List.length (lines_of file (run L (acts ++ [Submit t l m]) (fresh L)))
       = List.length (records_of acts) + 1.
Proof.
  intros Hfiles Hlow Hfew L file. subst file.
  destruct (MoreLoggerFacts.setup_logging_handlers L0) as (Hh & Hp & _ & He & _).
  assert (Hquiet : lines_of (FileHandler (pth_debug_log L0) 0) (run L acts (fresh L)) = []).
  { unfold lines_of.
    rewrite (debug_lines_from L _ _ _ _ Hh Hp He Hfiles acts (fresh L) [] [] [] []
               (fresh_after_setup L0) Hlow); [reflexivity |].
    cbn [List.length]. lia. }
  split; [exact Hquiet |].
  intros t l m Hl.
  destruct (debug_buffer_from L _ _ _ _ Hh Hp He acts (fresh L) [] [] [] []
              (fresh_after_setup L0) Hlow) as (pb' & db' & Hb' & Hlen');
    [cbn [List.length]; lia |].
  unfold lines_of in *. rewrite run_app.
  change (run L [Submit t l m] (run L acts (fresh L)))
    with (act L (Submit t l m) (run L acts (fresh L))).
  rewrite (critical_flush L _ _ _ _ Hh Hp He Hfiles t l m _ pb' db' [] [] Hb' Hl).
  rewrite Hquiet, length_app, length_map, length_app, Hlen'.
  cbn [List.length]. lia.
Qed.

End EmissionFacts.


(** ** The handlers on a concrete instance *)

Module ToyEmissionRuns.
Import Py LoggerModel Emission.

(** An INFO record is kept back and coloured by the console handler; a
    DEBUG record does not reach the file; the ERROR record writes both,
    itself as it was made. *)
Lemma progress_log_lines_witness :
  let L0 := ToyMore.bare_logger false in
  let acts := [Submit "12:00:01" INFO "Study Started";
               Submit "12:00:02" DEBUG "Loading case";
               Submit "12:00:03" ERROR "Load flow did not converge"] in
  pth_progress_log L0 <> pth_debug_log L0
  /\ lines_of (FileHandler (pth_progress_log L0) 0)
       (run (setup_logging L0) acts (fresh (setup_logging L0)))
     = [format (decorate (record_of "12:00:01" INFO "Study Started"));
        format (record_of "12:00:03" ERROR "Load flow did not converge")].
Proof.
  intros L0 acts.
  assert (Hfiles : pth_progress_log L0 <> pth_debug_log L0) by discriminate.
  split; [exact Hfiles |].
  destruct (EmissionFacts.progress_log_lines L0 acts Hfiles) as (Hlines & _).
  rewrite Hlines. reflexivity.
Defined.

(** A WARNING, an ERROR and a flush leave the debug file unwritten; the
    CRITICAL record after them writes three lines. *)
Lemma debug_log_waits_for_a_critical_witness :
  let L0 := ToyMore.bare_logger false in
  let acts := [Submit "12:00:01" WARNING "Voltage near the limit";
               Submit "12:00:02" ERROR "Load flow did not converge";
               Flush] in
  let file := FileHandler (pth_debug_log L0) 0 in
  (pth_progress_log L0 <> pth_debug_log L0
   /\ Forall (fun r => levelno r < CRITICAL) (records_of acts)
   /\ (N.of_nat (List.length (records_of acts)) < 100000)%N)
  /\ lines_of file (run (setup_logging L0) acts (fresh (setup_logging L0))) = []
  /\ List.length
       (lines_of file
          (run (setup_logging L0)
             (acts ++ [Submit "12:00:03" CRITICAL "function <main> reported stop"])
             (fresh (setup_logging L0))))
     = 3.
Proof.
  intros L0 acts file.
  assert (Hfiles : pth_progress_log L0 <> pth_debug_log L0) by discriminate.
  assert (Hlow : Forall (fun r => levelno r < CRITICAL) (records_of acts))
    by (repeat (apply Forall_cons; [cbv; lia |]); apply Forall_nil).
  assert (Hfew : (N.of_nat (List.length (records_of acts)) < 100000)%N)
    by reflexivity.
  split; [repeat split; assumption |].
  destruct (EmissionFacts.debug_log_waits_for_a_critical L0 acts Hfiles Hlow Hfew)
    as (Hquiet & Hcritical).
  split; [exact Hquiet |].
  apply (Hcritical "12:00:03" CRITICAL "function <main> reported stop").
  apply le_n.
Defined.

End ToyEmissionRuns.
